(** * DevSync: patch engine, keyword extraction, report parsing and the
      workflow orchestrator

    A shallow embedding of the Python sources

      - [tools/github_tool.py]: [GitHubTool._apply_diff_to_content] and
        [GitHubTool.create_fix_branch];
      - [services/anthropic_service.py]: [AnthropicService.parse_bug_report]
        and [generate_code_fix];
      - [tools/jira_tool.py]: [JiraTool.add_comment], [create_ticket],
        [find_similar_issues];
      - [mcp_server.py]: [MCPServer.process_slack_conversation],
        [_extract_keywords] and [_update_workflow].

    Conventions of the embedding.

      - A Python [str] is a Rocq [string]; a character is the code point
        0..255 it denotes (the Latin-1 range of Unicode).  [str.splitlines],
        [str.split], [str.lower] and [int] are written out for that range.
      - A Python [int] is a [Z]; a [list] is a [list]; list indices that the
        interpreter normalises (negative, past the end) are normalised here
        the same way, and an index that [list.insert] cannot convert to a
        machine integer raises [OverflowError] (a 64-bit build).  [int] has
        the default limit of 4300 digits of CPython 3.11.
      - A Python exception is a value of [exn]; a call that can raise returns
        a [res].  Only subclasses of [Exception] are modelled.
      - The clients of the chat model, of Jira and of GitHub are outside the
        repository: their answers are the fields of an [env] record. *)

From Stdlib Require Import ZArith NArith Ascii String List Lia Bool.
From Stdlib Require DecimalString.
From stdpp Require Import base tactics option list strings gmap.

Local Open Scope string_scope.
Local Open Scope list_scope.
Local Open Scope Z_scope.

(** ** Exceptions and results *)

Inductive exn_kind : Type :=
| ValueError
| KeyError
| TypeError
| UnboundLocalError
| OverflowError
| GithubException (status : Z)
| OtherException.

(** [exn_text e] is [str(e)]. *)
Record exn : Type := Exn { exn_class : exn_kind; exn_text : string }.

Inductive res (A : Type) : Type :=
| Ok (a : A)
| Raise (e : exn).

Arguments Ok {A} a.
Arguments Raise {A} e.

Definition res_bind {A B : Type} (m : res A) (k : A -> res B) : res B :=
  match m with
  | Ok a => k a
  | Raise e => Raise e
  end.

Definition is_ok {A : Type} (m : res A) : bool :=
  match m with Ok _ => true | Raise _ => false end.

(** ** Python strings over the code points 0..255 *)

Module PyStr.

Definition nl : string := String "010"%char EmptyString.

Definition code (c : ascii) : N := N_of_ascii c.

Definition is_empty (s : string) : bool :=
  match s with EmptyString => true | String _ _ => false end.

(** The line boundaries of [str.splitlines]: LF, VT, FF, CR, FS, GS, RS
    and NEL (CR LF counts as one boundary). *)
Definition is_linebreak (c : ascii) : bool :=
  let n := code c in
  ((10 <=? n) && (n <=? 13) || (28 <=? n) && (n <=? 30) || (n =? 133))%N.

(** The white space of [str.split()] and [str.strip()]. *)
Definition isspace (c : ascii) : bool :=
  let n := code c in
  ((9 <=? n) && (n <=? 13) || (28 <=? n) && (n <=? 32)
   || (n =? 133) || (n =? 160))%N.

(** [splitlines_from cur s]: [cur] is the line under construction.  A
    pending line is emitted at each boundary and, at the end of the
    text, only when characters follow the last boundary. *)
Fixpoint splitlines_from (cur s : string) : list string :=
  match s with
  | EmptyString => if is_empty cur then [] else [cur]
  | String c rest =>
      if is_linebreak c then
        cur ::
          (if (code c =? 13)%N then
             match rest with
             | String c2 rest' =>
                 if (code c2 =? 10)%N then splitlines_from "" rest'
                 else splitlines_from "" rest
             | EmptyString => splitlines_from "" rest
             end
           else splitlines_from "" rest)
      else splitlines_from (cur +:+ String c "") rest
  end.

Definition splitlines (s : string) : list string := splitlines_from "" s.

(** [s.split()]: maximal runs of non-space characters. *)
Fixpoint split_ws_from (cur s : string) : list string :=
  match s with
  | EmptyString => if is_empty cur then [] else [cur]
  | String c rest =>
      if isspace c then
        (if is_empty cur then split_ws_from "" rest
         else cur :: split_ws_from "" rest)
      else split_ws_from (cur +:+ String c "") rest
  end.

Definition split_ws (s : string) : list string := split_ws_from "" s.

(** [s.split(sep)] for a one-character separator: never empty. *)
Fixpoint split_on_from (sep : ascii) (cur s : string) : list string :=
  match s with
  | EmptyString => [cur]
  | String c rest =>
      if Ascii.eqb c sep then cur :: split_on_from sep "" rest
      else split_on_from sep (cur +:+ String c "") rest
  end.

Definition split_on (sep : ascii) (s : string) : list string :=
  split_on_from sep "" s.

(** [s[1:]] *)
Definition drop_first (s : string) : string :=
  match s with EmptyString => "" | String _ rest => rest end.

Definition startswith (p s : string) : bool := String.prefix p s.

(** ['\n'.join(lines)] *)
Definition join_lines (lines : list string) : string :=
  String.concat nl lines.

Fixpoint lstrip (s : string) : string :=
  match s with
  | EmptyString => ""
  | String c rest => if isspace c then lstrip rest else s
  end.

Fixpoint rstrip (s : string) : string :=
  match s with
  | EmptyString => ""
  | String c rest =>
      let r := rstrip rest in
      if isspace c && is_empty r then "" else String c r
  end.

Definition strip (s : string) : string := rstrip (lstrip s).

Definition is_digit (c : ascii) : bool :=
  let n := code c in ((48 <=? n) && (n <=? 57))%N.

Definition digit_value (c : ascii) : Z := Z.of_N (code c) - 48.

(** [str(n)] for an [int], in base 10 *)
Definition decimal (n : Z) : string :=
  DecimalString.NilZero.string_of_int (Z.to_int n).

(** The digit part of an [int] literal in base 10: digits, with single
    underscores allowed between two digits.  The scan reads the longest
    run of digits and underscores at the head of the text and counts its
    digits. *)
Inductive digit_state : Type := NeedDigit | AfterDigit.

Inductive digit_run : Type :=
| RunBad
| RunOk (value : Z) (digits : Z) (rest : string).

Fixpoint scan_digits (st : digit_state) (acc count : Z) (s : string)
  : digit_run :=
  match s with
  | EmptyString =>
      match st with AfterDigit => RunOk acc count "" | NeedDigit => RunBad end
  | String c rest =>
      if is_digit c then
        scan_digits AfterDigit (10 * acc + digit_value c) (count + 1) rest
      else if Ascii.eqb c "_" then
        match st with
        | AfterDigit => scan_digits NeedDigit acc count rest
        | NeedDigit => RunBad
        end
      else
        match st with AfterDigit => RunOk acc count s | NeedDigit => RunBad end
  end.

(** [sys.get_int_max_str_digits()], at its default *)
Definition max_str_digits : Z := 4300.

(** The outcome of [int(s)]: the value, or one of the two [ValueError]s. *)
Inductive int_outcome : Type :=
| IntValue (z : Z)
| InvalidLiteral
| TooManyDigits (digits : Z).

Definition int_of_digits (sign : Z) (t : string) : int_outcome :=
  match scan_digits NeedDigit 0 0 t with
  | RunBad => InvalidLiteral
  | RunOk value digits rest =>
      if max_str_digits <? digits then TooManyDigits digits
      else if is_empty rest then IntValue (sign * value)
      else InvalidLiteral
  end.

(** The white space that [int] skips around a literal: the file, group,
    record and unit separators are white space for [str.split()] but not
    here. *)
Definition is_int_space (c : ascii) : bool :=
  let n := code c in
  ((9 <=? n) && (n <=? 13) || (n =? 32) || (n =? 133) || (n =? 160))%N.

Fixpoint lstrip_int (s : string) : string :=
  match s with
  | EmptyString => ""
  | String c rest => if is_int_space c then lstrip_int rest else s
  end.

Fixpoint rstrip_int (s : string) : string :=
  match s with
  | EmptyString => ""
  | String c rest =>
      let r := rstrip_int rest in
      if is_int_space c && is_empty r then "" else String c r
  end.

(** [int(s)]: surrounding white space, an optional sign, then the digits.
    A run of more than 4300 digits is refused before what follows it is
    looked at. *)
Definition int_outcome_of (s : string) : int_outcome :=
  match rstrip_int (lstrip_int s) with
  | String "-" rest => int_of_digits (-1) rest
  | String "+" rest => int_of_digits 1 rest
  | t => int_of_digits 1 t
  end.

(** The value of [int(s)]; [None] is a [ValueError]. *)
Definition int_of (s : string) : option Z :=
  match int_outcome_of s with
  | IntValue z => Some z
  | _ => None
  end.

(** [repr(s)] for a [str]: the quote is the apostrophe unless the text
    has an apostrophe and no double quote; the quote and the backslash are
    escaped, and so is every character that is not printable. *)
Definition hex_digit (n : N) : ascii :=
  if (n <? 10)%N then ascii_of_N (48 + n) else ascii_of_N (87 + n).

Definition is_printable (c : ascii) : bool :=
  let n := code c in
  ((32 <=? n) && (n <? 127) || (161 <=? n) && negb (n =? 173))%N.

Definition repr_char (quote c : ascii) : string :=
  let n := code c in
  if Ascii.eqb c quote || Ascii.eqb c "\" then String "\" (String c "")
  else if (n =? 9)%N then "\t"
  else if (n =? 10)%N then "\n"
  else if (n =? 13)%N then "\r"
  else if is_printable c then String c ""
  else String "\" (String "x" (String (hex_digit (n / 16))
                                 (String (hex_digit (n mod 16)) ""))).

Fixpoint repr_body (quote : ascii) (s : string) : string :=
  match s with
  | EmptyString => ""
  | String c rest => repr_char quote c +:+ repr_body quote rest
  end.

Fixpoint has_char (c : ascii) (s : string) : bool :=
  match s with
  | EmptyString => false
  | String x rest => Ascii.eqb x c || has_char c rest
  end.

Definition double_quote : ascii := "034"%char.

Definition repr (s : string) : string :=
  let quote : ascii :=
    if has_char "'" s && negb (has_char double_quote s) then double_quote
    else "'"%char in
  String quote (repr_body quote s) +:+ String quote "".

(** [str.lower()] on one code point: A-Z and the Latin-1 capitals
    (0xC0-0xDE but the multiplication sign) move up by 32. *)
Definition lower_char (c : ascii) : ascii :=
  let n := code c in
  if ((65 <=? n) && (n <=? 90)
      || (192 <=? n) && (n <=? 222) && negb (n =? 215))%N
  then ascii_of_N (n + 32) else c.

Fixpoint lower (s : string) : string :=
  match s with
  | EmptyString => ""
  | String c rest => String (lower_char c) (lower rest)
  end.

(** [s[:n]] *)
Fixpoint prefix_of_length (n : nat) (s : string) : string :=
  match n, s with
  | S n', String c rest => String c (prefix_of_length n' rest)
  | _, _ => ""
  end.

End PyStr.

(** ** Python list operations with interpreter-normalised indices *)

Module PyList.

(** An index [i] of a list of length [n], as slices and [list.insert]
    read it: negative indices count from the end, and the result is
    clamped to [0..n]. *)
Definition norm_index (n i : Z) : Z :=
  if i <? 0 then Z.max 0 (i + n) else Z.min i n.

(** [del l[a:b]] *)
Definition del_slice {A : Type} (l : list A) (a b : Z) : list A :=
  let n := Z.of_nat (length l) in
  let a' := norm_index n a in
  let b' := norm_index n b in
  if b' <=? a' then l
  else take (Z.to_nat a') l ++ drop (Z.to_nat b') l.

(** The range of the machine integer that [list.insert] converts its
    index to. *)
Definition fits_ssize (i : Z) : bool :=
  (- 2 ^ 63 <=? i) && (i <? 2 ^ 63).

Definition index_overflow : exn :=
  Exn OverflowError "Python int too large to convert to C ssize_t".

(** [l.insert(i, x)]: the index is converted first, which raises when it
    does not fit; an index that fits is normalised like a slice index. *)
Definition insert_at {A : Type} (l : list A) (i : Z) (x : A) : res (list A) :=
  if fits_ssize i then
    let k := Z.to_nat (norm_index (Z.of_nat (length l)) i) in
    Ok (take k l ++ x :: drop k l)
  else Raise index_overflow.

End PyList.

(** ** The patch engine: [GitHubTool._apply_diff_to_content] *)

Module PatchEngine.
Import PyStr PyList.

(** A hunk as the parser builds it: the two starts already converted to
    0-based offsets, and the change lines still carrying their tag. *)
Record hunk : Type := Hunk {
  old_start : Z;
  new_start : Z;
  changes : list string
}.

(** The text of the [ValueError] of [int(field)]; the literal is shown
    as its [repr], cut after 200 characters. *)
Definition int_error (field : string) (outcome : int_outcome) : exn :=
  match outcome with
  | TooManyDigits digits =>
      Exn ValueError
        ("Exceeds the limit (4300 digits) for integer string conversion: "
         +:+ "value has " +:+ decimal digits
         +:+ " digits; use sys.set_int_max_str_digits() to increase the limit")
  | _ =>
      Exn ValueError
        ("invalid literal for int() with base 10: "
         +:+ prefix_of_length 200 (repr field))
  end.

(** [int(range.split(',')[0][1:])] *)
Definition range_start (range : string) : res Z :=
  let field := drop_first (hd "" (split_on "," range)) in
  match int_outcome_of field with
  | IntValue z => Ok z
  | outcome => Raise (int_error field outcome)
  end.

(** [current_hunk['changes'].append(line)]: [current_hunk] is the dict
    last appended to [hunks], so the append shows in the list. *)
Fixpoint append_to_current (hunks : list hunk) (line : string) : list hunk :=
  match hunks with
  | [] => []
  | [h] => [Hunk (old_start h) (new_start h) (changes h ++ [line])]
  | h :: rest => h :: append_to_current rest line
  end.

Definition is_change_line (line : string) : bool :=
  startswith "+" line || startswith "-" line || startswith " " line.

(** One turn of the loop over [diff_lines].  [current_hunk] is [None]
    exactly while [hunks] is empty. *)
Definition scan_line (hunks : list hunk) (line : string) : res (list hunk) :=
  if startswith "@@" line then
    let parts := split_ws line in
    if (2 <=? length parts)%nat then
      let old_range := nth 1 parts "" in
      let new_range :=
        if (2 <? length parts)%nat then nth 2 parts "" else old_range in
      res_bind (range_start old_range) (fun old =>
      res_bind (range_start new_range) (fun new =>
      Ok (hunks ++ [Hunk (old - 1) (new - 1) []])))
    else Ok hunks
  else if negb (Nat.eqb (length hunks) 0) && is_change_line line then
    Ok (append_to_current hunks line)
  else Ok hunks.

Fixpoint scan_lines (hunks : list hunk) (diff_lines : list string)
  : res (list hunk) :=
  match diff_lines with
  | [] => Ok hunks
  | line :: rest => res_bind (scan_line hunks line) (fun hs => scan_lines hs rest)
  end.

(** [sum(1 for line in changes if line.startswith('-'))] *)
Definition lines_to_remove (h : hunk) : Z :=
  Z.of_nat (length (List.filter (startswith "-") (changes h))).

(** The replacement block: added and context lines, tag stripped. *)
Fixpoint new_lines_of (changes : list string) : list string :=
  match changes with
  | [] => []
  | line :: rest =>
      if startswith "+" line then drop_first line :: new_lines_of rest
      else if startswith " " line then drop_first line :: new_lines_of rest
      else new_lines_of rest
  end.

(** [for i, new_line in enumerate(new_lines): result_lines.insert(old_start + i, new_line)],
    entered at index [i]. *)
Fixpoint insert_lines (result_lines : list string) (start i : Z)
    (new_lines : list string) : res (list string) :=
  match new_lines with
  | [] => Ok result_lines
  | new_line :: rest =>
      res_bind (insert_at result_lines (start + i) new_line) (fun inserted =>
        insert_lines inserted start (i + 1) rest)
  end.

(** The body of the loop over [reversed(hunks)]. *)
Definition apply_hunk (result_lines : list string) (h : hunk)
  : res (list string) :=
  let removed :=
    if 0 <? lines_to_remove h then
      let end_idx :=
        Z.min (old_start h + lines_to_remove h) (Z.of_nat (length result_lines)) in
      del_slice result_lines (old_start h) end_idx
    else result_lines in
  insert_lines removed (old_start h) 0 (new_lines_of (changes h)).

(** The loop itself, over the hunks in the order they are applied. *)
Fixpoint apply_in_turn (result_lines : list string) (hunks : list hunk)
  : res (list string) :=
  match hunks with
  | [] => Ok result_lines
  | h :: rest =>
      res_bind (apply_hunk result_lines h) (fun changed =>
        apply_in_turn changed rest)
  end.

Definition apply_hunks (original_lines : list string) (hunks : list hunk)
  : res (list string) :=
  apply_in_turn original_lines (rev hunks).

Definition _apply_diff_to_content (original diff : string) : res string :=
  if is_empty diff || is_empty original then Ok original
  else
    let diff_lines := splitlines diff in
    let original_lines := splitlines original in
    res_bind (scan_lines [] diff_lines) (fun hunks =>
      match hunks with
      | [] => Ok original
      | _ :: _ =>
          res_bind (apply_hunks original_lines hunks) (fun result_lines =>
            let result := join_lines result_lines in
            if negb (String.eqb result original) then Ok result else Ok original)
      end).

End PatchEngine.

(** ** Data model *)

(** A Slack message is the dict the bot builds, with the keys [user],
    [text] and [ts]; [parse_bug_report] reads the first two by subscript. *)
Abbreviation message := (gmap string string).

(** The two shapes [affected_components] takes in a report, and JSON
    [null]. *)
Inductive components : Type :=
| CompNone
| CompStr (s : string)
| CompList (l : list string).

(** A bug report dict, read at the keys the code uses.  A field is [None]
    when the key is absent. *)
Record bug_report : Type := BugReport {
  title : option string;
  description : option string;
  steps_to_reproduce : option string;
  expected_behavior : option string;
  actual_behavior : option string;
  severity : option string;
  affected_components : option components;
  additional_context : option string
}.

Record file_change : Type := FileChange {
  file : option string;
  file_changes : option string
}.

(** The value under [code_changes]: JSON [null] or a list. *)
Inductive code_changes_value : Type :=
| ChangesNull
| ChangesList (l : list file_change).

Record fix_proposal : Type := FixProposal {
  root_cause : option string;
  fix_description : option string;
  code_changes : option code_changes_value;
  testing_notes : option string
}.

Record similar_issue : Type := SimilarIssue {
  issue_ref : string;
  issue_summary : string;
  issue_status : string;
  issue_created : string
}.

Record repo_file : Type := RepoFile {
  file_path : string;
  file_content : string;
  file_url : string
}.

(** Values stored in the [data] dict of a workflow step. *)
Inductive data_value : Type :=
| DStr (s : string)
| DInt (n : Z).

Record step : Type := Step {
  step_status : string;
  step_timestamp : string;
  step_data : gmap string data_value
}.

Record workflow : Type := Workflow {
  status : string;
  started_at : string;
  steps : list step
}.

(** The two dicts [process_slack_conversation] returns. *)
Record success_result : Type := SuccessResult {
  ok_workflow_id : string;
  issue_key : string;
  issue_url : string;
  pr_url : option string;
  bug_title : string;
  result_severity : string;
  similar_issues : list similar_issue;
  ok_message : string
}.

Record failure_result : Type := FailureResult {
  failed_workflow_id : string;
  error : string;
  failed_message : string
}.

Inductive workflow_result : Type :=
| Succeeded (r : success_result)
| Failed (r : failure_result).

(** [result['success']] *)
Definition success (r : workflow_result) : bool :=
  match r with Succeeded _ => true | Failed _ => false end.

(** ** The collaborators *)

(** Requests sent to the clients outside the repository, in the order they
    are made. *)
Inductive call : Type :=
| CallChatReport (formatted_conv : string)
| CallChatFix (report : bug_report) (code_context : string)
| CallJiraSearch (summary : string)
| CallJiraCreateIssue (report : bug_report)
| CallJiraComment (key comment : string)
| CallGithubFiles (keywords : list string)
| CallGithubContext (affected : components)
| CallGetBranch (name : string)
| CallCreateGitRef (ref sha : string)
| CallTime
| CallApplyCodeChanges (branch : string) (changes : list file_change)
| CallCreatePull (branch key : string).

(** The answers of the clients.  A [res] answer is the value returned or
    the exception raised by the client. *)
Record env : Type := Env {
  jira_base_url : string;
  github_default_branch : string;
  (** [datetime.now().isoformat()] at the n-th reading of the clock *)
  timestamp : nat -> string;
  (** [int(time.time())] *)
  unix_time : Z;
  (** [self._text(self._chat(prompt))] for the prompt built around the
      formatted conversation *)
  chat_report : string -> res string;
  (** the same for the prompt built from a report and a code context *)
  chat_fix : bug_report -> string -> res string;
  (** [json.loads], read as a report or as a fix; [None] is its
      [JSONDecodeError] *)
  json_loads_report : string -> option bug_report;
  json_loads_fix : string -> option fix_proposal;
  jira_search_issues : string -> res (list similar_issue);
  jira_create_issue : bug_report -> res string;
  jira_post_comment : string -> string -> res unit;
  github_relevant_files : list string -> list repo_file;
  github_context : components -> res string;
  github_get_branch : string -> res string;
  github_create_git_ref : string -> string -> res unit;
  github_apply_code_changes : string -> list file_change -> bool;
  github_create_pull : string -> string -> bug_report -> fix_proposal -> res string
}.

(** The mutable state of a run: the table [self.active_workflows], the
    number of clock readings, and the requests made so far. *)
Record world : Type := World {
  active_workflows : gmap string workflow;
  clock_reads : nat;
  calls : list call
}.

(** ** A state and exception monad

    A raised exception keeps the state reached when it was raised: Python
    does not undo mutations. *)

Definition M (A : Type) : Type := world -> res A * world.

Definition ret {A : Type} (a : A) : M A := fun w => (Ok a, w).

Definition raise {A : Type} (e : exn) : M A := fun w => (Raise e, w).

Definition bind {A B : Type} (m : M A) (k : A -> M B) : M B :=
  fun w =>
    match m w with
    | (Ok a, w') => k a w'
    | (Raise e, w') => (Raise e, w')
    end.

Notation "'let*' x ':=' m 'in' k" := (bind m (fun x => k))
  (at level 10, x name, m at level 100, k at level 200).

(** [try: m except Exception as e: handler e] *)
Definition try_except {A : Type} (m : M A) (handler : exn -> M A) : M A :=
  fun w =>
    match m w with
    | (Ok a, w') => (Ok a, w')
    | (Raise e, w') => handler e w'
    end.

Definition lift {A : Type} (r : res A) : M A := fun w => (r, w).

(** Send a request: it is appended to the log whatever the answer. *)
Definition request {A : Type} (c : call) (answer : res A) : M A :=
  fun w => (answer, World (active_workflows w) (clock_reads w) (calls w ++ [c])).

(** [datetime.now().isoformat()] *)
Definition now (E : env) : M string :=
  fun w => (Ok (timestamp E (clock_reads w)),
            World (active_workflows w) (S (clock_reads w)) (calls w)).

(** Truth value of [d.get(key)] for a string-valued key. *)
Definition truthy (v : option string) : bool :=
  match v with
  | Some s => negb (PyStr.is_empty s)
  | None => false
  end.

(** [str(n)] for an [int] *)
Definition str_of_int (n : Z) : string := PyStr.decimal n.

(** ** [AnthropicService] *)

Module AnthropicService.
Import PyStr.

(** [f"{msg['user']}: {msg['text']}"]; a missing key raises [KeyError]. *)
Definition format_message (msg : message) : res string :=
  match msg !! "user" with
  | None => Raise (Exn KeyError "'user'")
  | Some user =>
      match msg !! "text" with
      | None => Raise (Exn KeyError "'text'")
      | Some text => Ok (user +:+ ": " +:+ text)
      end
  end.

Fixpoint format_messages (conversation : list message) : res (list string) :=
  match conversation with
  | [] => Ok []
  | msg :: rest =>
      res_bind (format_message msg) (fun line =>
      res_bind (format_messages rest) (fun lines => Ok (line :: lines)))
  end.

(** ["\n".join([... for msg in conversation])] *)
Definition format_conversation (conversation : list message) : res string :=
  res_bind (format_messages conversation) (fun lines => Ok (join_lines lines)).

(** [text.index(c)], when [c in text] *)
Fixpoint index_of (c : ascii) (text : string) : option nat :=
  match text with
  | EmptyString => None
  | String x rest => if Ascii.eqb x c then Some O else S <$> index_of c rest
  end.

(** [text.rindex(c)], when [c in text] *)
Fixpoint rindex_of (c : ascii) (text : string) : option nat :=
  match text with
  | EmptyString => None
  | String x rest =>
      match rindex_of c rest with
      | Some i => Some (S i)
      | None => if Ascii.eqb x c then Some O else None
      end
  end.

(** [text[text.index('{'):text.rindex('}')+1]], when both braces occur *)
Definition json_span (text : string) : option string :=
  match index_of "{" text, rindex_of "}" text with
  | Some i, Some j => Some (substring i (S j - i) text)
  | _, _ => None
  end.

Definition fallback_report (formatted_conv : string) : bug_report :=
  {| title := Some "Bug Report from Slack";
     description := Some (prefix_of_length 500 formatted_conv);
     steps_to_reproduce := Some "See conversation";
     expected_behavior := Some "System should work as intended";
     actual_behavior := Some "Issue reported in conversation";
     severity := Some "Medium";
     affected_components := Some (CompList []);
     additional_context := Some formatted_conv |}.

(** The second [try] block of [parse_bug_report]: [Some result] is its
    [return result], [None] is falling out of the [if]. *)
Definition extract_report (E : env) (formatted_conv : string)
  : M (option bug_report) :=
  let* text := request (CallChatReport formatted_conv)
                 (chat_report E formatted_conv) in
  match json_span text with
  | Some json_str =>
      match json_loads_report E json_str with
      | Some result => ret (Some result)
      | None => raise (Exn ValueError "JSONDecodeError")
      end
  | None => ret None
  end.

Definition parse_bug_report (E : env) (conversation : list message)
  : M bug_report :=
  let* formatted_conv := lift (format_conversation conversation) in
  let* parsed := try_except (extract_report E formatted_conv)
                   (fun _ => ret None) in
  match parsed with
  | Some result => ret result
  | None => ret (fallback_report formatted_conv)
  end.

Definition fallback_fix : fix_proposal :=
  {| root_cause := Some "Analysis needed";
     fix_description := Some "Manual review required";
     code_changes := Some (ChangesList []);
     testing_notes := Some "Test thoroughly before deployment" |}.

(** [len(result.get('code_changes', []))], which the [print] before
    [return result] evaluates: [None] has no length. *)
Definition count_code_changes (result : fix_proposal) : res Z :=
  match code_changes result with
  | None => Ok 0
  | Some (ChangesList l) => Ok (Z.of_nat (length l))
  | Some ChangesNull =>
      Raise (Exn TypeError "object of type 'NoneType' has no len()")
  end.

(** The [try] block of [generate_code_fix]: [Some result] is its
    [return result], [None] is falling out of the [if]. *)
Definition extract_fix (E : env) (report : bug_report) (code_context : string)
  : M (option fix_proposal) :=
  let* text := request (CallChatFix report code_context)
                 (chat_fix E report code_context) in
  match json_span text with
  | Some json_str =>
      match json_loads_fix E json_str with
      | Some result =>
          let* _ := lift (count_code_changes result) in
          ret (Some result)
      | None => raise (Exn ValueError "JSONDecodeError")
      end
  | None => ret None
  end.

Definition generate_code_fix (E : env) (report : bug_report)
    (code_context : string) : M fix_proposal :=
  let* parsed := try_except (extract_fix E report code_context)
                   (fun _ => ret None) in
  match parsed with
  | Some result => ret result
  | None => ret fallback_fix
  end.

End AnthropicService.

(** ** [JiraTool] *)

Module JiraTool.

(** [create_ticket]: the issue fields are formatted from the report and
    sent with [self.jira.create_issue]; an exception of the client is
    printed and raised again. *)
Definition create_ticket (E : env) (report : bug_report) : M string :=
  request (CallJiraCreateIssue report) (jira_create_issue E report).

(** [add_comment]: any exception of the client is printed and dropped. *)
Definition add_comment (E : env) (key comment : string) : M unit :=
  try_except
    (request (CallJiraComment key comment) (jira_post_comment E key comment))
    (fun _ => ret tt).

(** [find_similar_issues]: the bare [except] returns the empty list. *)
Definition find_similar_issues (E : env) (summary : string)
  : M (list similar_issue) :=
  try_except
    (request (CallJiraSearch summary) (jira_search_issues E summary))
    (fun _ => ret []).

End JiraTool.

(** ** [GitHubTool] *)

Module GitHubTool.
Import PyStr.

Definition is_branch_char (c : ascii) : bool :=
  let n := code c in
  ((97 <=? n) && (n <=? 122) || (65 <=? n) && (n <=? 90)
   || (48 <=? n) && (n <=? 57) || (n =? 45))%N.

(** [re.sub(r'[^a-zA-Z0-9-]', '-', s)] *)
Fixpoint replace_other_chars (s : string) : string :=
  match s with
  | EmptyString => ""
  | String c rest =>
      String (if is_branch_char c then c else "-"%char) (replace_other_chars rest)
  end.

(** [re.sub(r'-+', '-', s)]; [after_dash] tells that the previous
    character was a dash. *)
Fixpoint squeeze_dashes (after_dash : bool) (s : string) : string :=
  match s with
  | EmptyString => ""
  | String c rest =>
      if Ascii.eqb c "-" then
        (if after_dash then squeeze_dashes true rest
         else String c (squeeze_dashes true rest))
      else String c (squeeze_dashes false rest)
  end.

Definition clean_title (bug_title : string) : string :=
  prefix_of_length 30 (squeeze_dashes false (replace_other_chars (lower bug_title))).

Definition branch_name_for (key bug_title : string) : string :=
  "fix/" +:+ lower key +:+ "-" +:+ clean_title bug_title.

Definition create_git_ref (E : env) (branch_name sha : string) : M unit :=
  let ref := "refs/heads/" +:+ branch_name in
  request (CallCreateGitRef ref sha) (github_create_git_ref E ref sha).

(** The [except GithubException as e] clause. *)
Definition on_github_exception (E : env) (branch_name : string)
    (base_branch : option string) (e : exn) : M string :=
  match exn_class e with
  | GithubException status =>
      if status =? 422 then
        let* t := request CallTime (Ok (unix_time E)) in
        let branch_name := branch_name +:+ "-" +:+ str_of_int t in
        match base_branch with
        | Some sha =>
            let* _ := create_git_ref E branch_name sha in
            ret branch_name
        | None =>
            raise (Exn UnboundLocalError
                     "cannot access local variable 'base_branch' where it is not associated with a value")
        end
      else raise e
  | _ => raise e
  end.

(** [base_branch] is bound in the handler once [get_branch] has
    returned. *)
Definition create_fix_branch (E : env) (key bug_title : string) : M string :=
  let branch_name := branch_name_for key bug_title in
  fun w =>
    match request (CallGetBranch (github_default_branch E))
            (github_get_branch E (github_default_branch E)) w with
    | (Raise e, w1) => on_github_exception E branch_name None e w1
    | (Ok sha, w1) =>
        match create_git_ref E branch_name sha w1 with
        | (Ok _, w2) => (Ok branch_name, w2)
        | (Raise e, w2) => on_github_exception E branch_name (Some sha) e w2
        end
    end.

(** [get_relevant_files]: every request is inside its [try]; the list
    collected so far is returned whatever happens. *)
Definition get_relevant_files (E : env) (keywords : list string)
  : M (list repo_file) :=
  request (CallGithubFiles keywords) (Ok (github_relevant_files E keywords)).

Definition analyze_codebase_context (E : env) (affected : components)
  : M string :=
  request (CallGithubContext affected) (github_context E affected).

(** [apply_code_changes]: [False] for an empty list, before any request;
    otherwise the outcome of the commits, [False] on any exception. *)
Definition apply_code_changes (E : env) (branch_name : string)
    (changes : list file_change) : M bool :=
  match changes with
  | [] => ret false
  | _ :: _ =>
      request (CallApplyCodeChanges branch_name changes)
        (Ok (github_apply_code_changes E branch_name changes))
  end.

Definition create_pull_request (E : env) (branch_name key : string)
    (report : bug_report) (proposal : fix_proposal) : M string :=
  request (CallCreatePull branch_name key)
    (github_create_pull E branch_name key report proposal).

End GitHubTool.

(** ** [MCPServer] *)

Module MCPServer.
Import PyStr.

Definition stopwords : list string :=
  ["the"; "and"; "for"; "with"; "from"; "into"; "when"; "where"; "this"; "that"].

(** [k.lower() in stopwords] *)
Definition is_stopword (k : string) : bool :=
  existsb (String.eqb (lower k)) stopwords.

(** Iterating over a [str] yields its characters. *)
Fixpoint chars (s : string) : list string :=
  match s with
  | EmptyString => []
  | String c rest => String c "" :: chars rest
  end.

(** [[w for w in title.split() if len(w) > 3]], when the title is truthy *)
Definition title_words (report : bug_report) : list string :=
  if truthy (title report) then
    List.filter (fun w => (3 <? String.length w)%nat)
      (split_ws (default "" (title report)))
  else [].

(** What [keywords.extend(affected_components)] appends, with [[]] for
    an absent key and nothing for [None]. *)
Definition component_entries (report : bug_report) : list string :=
  match affected_components report with
  | None => []
  | Some CompNone => []
  | Some (CompStr s) => chars s
  | Some (CompList l) => l
  end.

Definition _extract_keywords (report : bug_report) : list string :=
  let keywords := title_words report ++ component_entries report in
  take 5 (List.filter (fun k => negb (is_stopword k)) keywords).

(** Lines 86-92 of [process_slack_conversation]. *)
Definition search_keywords (report : bug_report) : list string :=
  let keywords := _extract_keywords report in
  match affected_components report with
  | Some (CompStr s) => keywords ++ [s]
  | Some (CompList l) => keywords ++ l
  | _ => keywords
  end.

Definition set_workflows (t : gmap string workflow) : M unit :=
  fun w => (Ok tt, World t (clock_reads w) (calls w)).

Definition get_workflows : M (gmap string workflow) :=
  fun w => (Ok (active_workflows w), w).

Definition _update_workflow (E : env) (workflow_id status : string)
    (data : gmap string data_value) : M unit :=
  let* table := get_workflows in
  match table !! workflow_id with
  | Some wf =>
      let* t := now E in
      set_workflows
        (<[workflow_id := Workflow status (started_at wf)
                            (steps wf ++ [Step status t data])]> table)
  | None => ret tt
  end.

Definition manual_fix : fix_proposal :=
  {| root_cause := Some "Manual analysis required";
     fix_description := Some "This issue requires manual investigation";
     code_changes := Some (ChangesList []);
     testing_notes := Some "Manual testing required" |}.

(** [not fix] for a dict read at the four keys *)
Definition is_empty_dict (proposal : fix_proposal) : bool :=
  match root_cause proposal, fix_description proposal,
        code_changes proposal, testing_notes proposal with
  | None, None, None, None => true
  | _, _, _, _ => false
  end.

(** [len(fix.get('code_changes', []))] *)
Definition files_to_change (proposal : fix_proposal) : res Z :=
  match code_changes proposal with
  | None => Ok 0
  | Some (ChangesList l) => Ok (Z.of_nat (length l))
  | Some ChangesNull =>
      Raise (Exn TypeError "object of type 'NoneType' has no len()")
  end.

(** [fix['code_changes']] when [fix.get('code_changes')] is truthy *)
Definition changes_to_apply (proposal : fix_proposal) : list file_change :=
  match code_changes proposal with
  | Some (ChangesList l) => l
  | _ => []
  end.

Definition file_context (f : repo_file) : string :=
  "=== COMPLETE FILE: " +:+ file_path f +:+ " ===" +:+ nl +:+ file_content f.

(** Step 3: the keywords, the relevant files and the code context. *)
Definition gather_context (E : env) (report : bug_report) : M string :=
  let keywords := search_keywords report in
  let* relevant_files := GitHubTool.get_relevant_files E keywords in
  let affected :=
    match affected_components report with
    | None => CompList []
    | Some CompNone => CompList []
    | Some c => c
    end in
  let* code_context :=
    try_except (GitHubTool.analyze_codebase_context E affected)
      (fun _ => ret "") in
  match relevant_files with
  | [] => ret code_context
  | _ :: _ =>
      ret (String.concat (nl +:+ nl) (map file_context (take 3 relevant_files)))
  end.

(** Step 4: the fix of the model, or the manual one. *)
Definition propose_fix (E : env) (report : bug_report) (code_context : string)
  : M fix_proposal :=
  let* generated :=
    try_except
      (let* f := AnthropicService.generate_code_fix E report code_context in
       ret (Some f))
      (fun _ => ret None) in
  match generated with
  | Some f => if is_empty_dict f then ret manual_fix else ret f
  | None => ret manual_fix
  end.

(** Step 6: branch, commits and pull request, or the advisory comment. *)
Definition publish_fix (E : env) (workflow_id key bug_title : string)
    (report : bug_report) (proposal : fix_proposal) : M (option string) :=
  match changes_to_apply proposal with
  | _ :: _ =>
      let* _ := _update_workflow E workflow_id "creating_pr" ∅ in
      let* branch_name := GitHubTool.create_fix_branch E key bug_title in
      let* applied :=
        GitHubTool.apply_code_changes E branch_name (changes_to_apply proposal) in
      if applied then
        let* url :=
          GitHubTool.create_pull_request E branch_name key report proposal in
        if is_empty url then ret (Some url)
        else
          let* _ := JiraTool.add_comment E key ("Pull Request created: " +:+ url) in
          let* _ := _update_workflow E workflow_id "pr_created"
                      {[ "pr_url" := DStr url ]} in
          ret (Some url)
      else ret None
  | [] =>
      let* _ := JiraTool.add_comment E key
                  "No automated fix generated. Manual investigation required." in
      ret None
  end.

(** [self.active_workflows[workflow_id] = {'status': 'started', ...}] *)
Definition start_workflow (E : env) (workflow_id : string) : M unit :=
  let* started := now E in
  let* table := get_workflows in
  set_workflows (<[workflow_id := Workflow "started" started []]> table).

(** The outer [try], steps 1 to 4: the report, the similar issues and
    the fix, up to the [fix_generated] transition. *)
Definition prepare (E : env) (conversation : list message)
    (workflow_id : string)
  : M (bug_report * list similar_issue * fix_proposal) :=
  let* _ := start_workflow E workflow_id in
  let* _ := _update_workflow E workflow_id "parsing_bug_report" ∅ in
  let* report := AnthropicService.parse_bug_report E conversation in
  if negb (truthy (title report)) then
    raise (Exn ValueError "Failed to parse bug report from conversation")
  else
    let bug_title := default "" (title report) in
    let* _ := _update_workflow E workflow_id "bug_report_parsed"
                {[ "bug_title" := DStr bug_title ]} in
    let* similar := JiraTool.find_similar_issues E bug_title in
    let* _ := _update_workflow E workflow_id "analyzing_codebase" ∅ in
    let* code_context := gather_context E report in
    let* _ := _update_workflow E workflow_id "generating_fix" ∅ in
    let* proposal := propose_fix E report code_context in
    let* n := lift (files_to_change proposal) in
    let* _ := _update_workflow E workflow_id "fix_generated"
                {[ "files_to_change" := DInt n ]} in
    ret (report, similar, proposal).

(** The outer [try], steps 5 to 7: the ticket, the pull request or the
    advisory comment, and the result. *)
Definition conclude (E : env) (workflow_id : string) (report : bug_report)
    (similar : list similar_issue) (proposal : fix_proposal)
  : M workflow_result :=
  let bug_title := default "" (title report) in
  let* _ := _update_workflow E workflow_id "creating_jira_ticket" ∅ in
  let* key := JiraTool.create_ticket E report in
  let* _ := _update_workflow E workflow_id "jira_ticket_created"
              {[ "issue_key" := DStr key ]} in
  let* url := publish_fix E workflow_id key bug_title report proposal in
  let* _ := _update_workflow E workflow_id "completed" ∅ in
  ret (Succeeded
         {| ok_workflow_id := workflow_id;
            issue_key := key;
            issue_url := "https://" +:+ jira_base_url E +:+ "/browse/" +:+ key;
            pr_url := url;
            bug_title := bug_title;
            result_severity := default "Medium" (severity report);
            similar_issues := similar;
            ok_message :=
              "Successfully created Jira ticket " +:+ key +:+
              (if truthy url then " and PR " +:+ default "" url
               else " (manual fix required)") |}).

(** The body of the outer [try]. *)
Definition run_workflow (E : env) (conversation : list message)
    (workflow_id : string) : M workflow_result :=
  let* ready := prepare E conversation workflow_id in
  conclude E workflow_id ready.1.1 ready.1.2 ready.2.

(** The [except Exception as e] clause of the outer [try]. *)
Definition on_failure (E : env) (workflow_id : string) (e : exn)
  : M workflow_result :=
  let* _ := _update_workflow E workflow_id "failed"
              {[ "error" := DStr (exn_text e) ]} in
  ret (Failed
         {| failed_workflow_id := workflow_id;
            error := exn_text e;
            failed_message := "Failed to process bug report: " +:+ exn_text e |}).

Definition process_slack_conversation (E : env) (conversation : list message)
    (channel_id thread_ts : string) : M workflow_result :=
  let workflow_id := channel_id +:+ "_" +:+ thread_ts in
  try_except (run_workflow E conversation workflow_id)
    (on_failure E workflow_id).

(** [get_workflow_status] *)
Definition get_workflow_status (w : world) (workflow_id : string)
  : option workflow :=
  active_workflows w !! workflow_id.

End MCPServer.


(** ** Properties of runs, for the statements below *)

Module RunLogic.

(** [keeps P m]: running [m] from a state in [P] ends in a state in [P],
    whether [m] returns or raises. *)
Definition keeps {A : Type} (P : world -> Prop) (m : M A) : Prop :=
  forall w, P w -> P (m w).2.

(** The workflow has an entry in the table [active_workflows]. *)
Definition tracked (workflow_id : string) (w : world) : Prop :=
  is_Some (active_workflows w !! workflow_id).

(** [returns Q m]: every value [m] returns satisfies [Q]. *)
Definition returns {A : Type} (Q : A -> Prop) (m : M A) : Prop :=
  forall w a w', m w = (Ok a, w') -> Q a.

End RunLogic.

(** ** Concrete collaborators and inputs, for the examples *)

Module Examples.

Definition unavailable : exn := Exn OtherException "service unavailable".

(** A model that answers nothing usable, a Jira that files every ticket
    as CCS-1, and a GitHub that accepts every request. *)
Definition quiet : env :=
  {| jira_base_url := "jira.example.com";
     github_default_branch := "main";
     timestamp := fun n => "t" +:+ str_of_int (Z.of_nat n);
     unix_time := 1700000000;
     chat_report := fun _ => Raise unavailable;
     chat_fix := fun _ _ => Raise unavailable;
     json_loads_report := fun _ => None;
     json_loads_fix := fun _ => None;
     jira_search_issues := fun _ => Ok [];
     jira_create_issue := fun _ => Ok "CCS-1";
     jira_post_comment := fun _ _ => Ok tt;
     github_relevant_files := fun _ => [];
     github_context := fun _ => Ok "No specific code context found";
     github_get_branch := fun _ => Ok "0a1b2c";
     github_create_git_ref := fun _ _ => Ok tt;
     github_apply_code_changes := fun _ _ => true;
     github_create_pull := fun _ _ _ _ => Ok "https://github.example.com/pull/1" |}.

Definition with_report_answer (text : string) (parsed : string -> option bug_report)
    (E : env) : env :=
  {| jira_base_url := jira_base_url E;
     github_default_branch := github_default_branch E;
     timestamp := timestamp E;
     unix_time := unix_time E;
     chat_report := fun _ => Ok text;
     chat_fix := chat_fix E;
     json_loads_report := parsed;
     json_loads_fix := json_loads_fix E;
     jira_search_issues := jira_search_issues E;
     jira_create_issue := jira_create_issue E;
     jira_post_comment := jira_post_comment E;
     github_relevant_files := github_relevant_files E;
     github_context := github_context E;
     github_get_branch := github_get_branch E;
     github_create_git_ref := github_create_git_ref E;
     github_apply_code_changes := github_apply_code_changes E;
     github_create_pull := github_create_pull E |}.

Definition with_create_issue (answer : bug_report -> res string) (E : env) : env :=
  {| jira_base_url := jira_base_url E;
     github_default_branch := github_default_branch E;
     timestamp := timestamp E;
     unix_time := unix_time E;
     chat_report := chat_report E;
     chat_fix := chat_fix E;
     json_loads_report := json_loads_report E;
     json_loads_fix := json_loads_fix E;
     jira_search_issues := jira_search_issues E;
     jira_create_issue := answer;
     jira_post_comment := jira_post_comment E;
     github_relevant_files := github_relevant_files E;
     github_context := github_context E;
     github_get_branch := github_get_branch E;
     github_create_git_ref := github_create_git_ref E;
     github_apply_code_changes := github_apply_code_changes E;
     github_create_pull := github_create_pull E |}.

Definition with_create_git_ref (answer : string -> string -> res unit) (E : env)
  : env :=
  {| jira_base_url := jira_base_url E;
     github_default_branch := github_default_branch E;
     timestamp := timestamp E;
     unix_time := unix_time E;
     chat_report := chat_report E;
     chat_fix := chat_fix E;
     json_loads_report := json_loads_report E;
     json_loads_fix := json_loads_fix E;
     jira_search_issues := jira_search_issues E;
     jira_create_issue := jira_create_issue E;
     jira_post_comment := jira_post_comment E;
     github_relevant_files := github_relevant_files E;
     github_context := github_context E;
     github_get_branch := github_get_branch E;
     github_create_git_ref := answer;
     github_apply_code_changes := github_apply_code_changes E;
     github_create_pull := github_create_pull E |}.

(** The report that [json.loads] makes of the text [{}]. *)
Definition empty_report : bug_report :=
  BugReport None None None None None None None None.

Definition loads_empty_object (s : string) : option bug_report :=
  if String.eqb s "{}" then Some empty_report else None.

(** The model answers with an object that has no title. *)
Definition untitled : env := with_report_answer "{}" loads_empty_object quiet.

(** Jira refuses the ticket with an exception whose text is empty, as
    [Exception()] has. *)
Definition silent_refusal : env :=
  with_create_issue (fun _ => Raise (Exn OtherException "")) quiet.

(** The first branch name is taken; any other name is free. *)
Definition conflict : exn := Exn (GithubException 422) "422 Reference already exists".

Definition taken_once : env :=
  with_create_git_ref
    (fun ref _ =>
       if String.eqb ref "refs/heads/fix/ccs-1-login-button"
       then Raise conflict else Ok tt)
    quiet.

Definition alice : list message :=
  [ {[ "user" := "alice"; "text" := "Login button does nothing on click";
       "ts" := "1700000000.000100" ]} ].

Definition fresh : world := World ∅ 0 [].

(** A report whose title has no word longer than three characters and
    whose component is a single string. *)
Definition database_report : bug_report :=
  BugReport (Some "Bug") None None None None None (Some (CompStr "database")) None.

End Examples.

(** ** Predicates on patches, for the statements below *)

Module PatchShape.
Import PyStr PyList PatchEngine.

(** A line that opens a hunk: it starts with [@@] and has at least two
    fields. *)
Definition is_header (line : string) : bool :=
  startswith "@@" line && (2 <=? length (split_ws line))%nat.

(** The two start numbers of a header line are accepted by [int]. *)
Definition header_numbers_ok (line : string) : bool :=
  let parts := split_ws line in
  let old_range := nth 1 parts "" in
  let new_range := if (2 <? length parts)%nat then nth 2 parts "" else old_range in
  is_ok (range_start old_range) && is_ok (range_start new_range).

(** Every index at which the lines of the hunk are inserted,
    [old_start .. old_start + n - 1] for [n] added and context lines, can
    be converted by [list.insert]. *)
Definition hunk_fits (h : hunk) : bool :=
  let n := Z.of_nat (length (new_lines_of (changes h))) in
  (n =? 0) || fits_ssize (old_start h) && fits_ssize (old_start h + n - 1).

(** The same for every hunk of a patch whose headers parse. *)
Definition patch_fits (diff : string) : bool :=
  match scan_lines [] (splitlines diff) with
  | Ok hunks => forallb hunk_fits hunks
  | Raise _ => true
  end.

End PatchShape.

(** ** Further concrete collaborators, for the examples *)

Module MoreExamples.
Import Examples.

Definition quote : string := String "034"%char EmptyString.

Definition quoted (s : string) : string := quote +:+ s +:+ quote.

(** The JSON text of a fix with one changed file. *)
Definition fix_text : string :=
  "{" +:+ quoted "code_changes" +:+ ": [{" +:+ quoted "file" +:+ ": "
  +:+ quoted "src/login.py" +:+ ", " +:+ quoted "changes" +:+ ": "
  +:+ quoted "bind(handler)" +:+ "}]}".

Definition one_change : list file_change :=
  [FileChange (Some "src/login.py") (Some "bind(handler)")].

(** What [json.loads] makes of [fix_text]. *)
Definition one_change_fix : fix_proposal :=
  FixProposal None None (Some (ChangesList one_change)) None.

Definition loads_fix_text (s : string) : option fix_proposal :=
  if String.eqb s fix_text then Some one_change_fix else None.

(** The model proposes the fix above; [applied] is the outcome of the
    commits and [pull] the answer to the pull request. *)
Definition fixing (applied : bool) (pull : res string) : env :=
  {| jira_base_url := jira_base_url quiet;
     github_default_branch := github_default_branch quiet;
     timestamp := timestamp quiet;
     unix_time := unix_time quiet;
     chat_report := chat_report quiet;
     chat_fix := fun _ _ => Ok ("Here is the fix: " +:+ fix_text);
     json_loads_report := json_loads_report quiet;
     json_loads_fix := loads_fix_text;
     jira_search_issues := jira_search_issues quiet;
     jira_create_issue := jira_create_issue quiet;
     jira_post_comment := jira_post_comment quiet;
     github_relevant_files := github_relevant_files quiet;
     github_context := github_context quiet;
     github_get_branch := github_get_branch quiet;
     github_create_git_ref := github_create_git_ref quiet;
     github_apply_code_changes := fun _ _ => applied;
     github_create_pull := fun _ _ _ _ => pull |}.

(** The model answers with a fix whose [code_changes] is JSON [null]. *)
Definition null_text : string := "{" +:+ quoted "code_changes" +:+ ": null}".

Definition null_fix : fix_proposal :=
  FixProposal None None (Some ChangesNull) None.

Definition null_changes : env :=
  {| jira_base_url := jira_base_url quiet;
     github_default_branch := github_default_branch quiet;
     timestamp := timestamp quiet;
     unix_time := unix_time quiet;
     chat_report := chat_report quiet;
     chat_fix := fun _ _ => Ok null_text;
     json_loads_report := json_loads_report quiet;
     json_loads_fix := fun s => if String.eqb s null_text then Some null_fix else None;
     jira_search_issues := jira_search_issues quiet;
     jira_create_issue := jira_create_issue quiet;
     jira_post_comment := jira_post_comment quiet;
     github_relevant_files := github_relevant_files quiet;
     github_context := github_context quiet;
     github_get_branch := github_get_branch quiet;
     github_create_git_ref := github_create_git_ref quiet;
     github_apply_code_changes := github_apply_code_changes quiet;
     github_create_pull := github_create_pull quiet |}.

(** GitHub refuses [get_branch] with status 422. *)
Definition no_base : env :=
  {| jira_base_url := jira_base_url quiet;
     github_default_branch := github_default_branch quiet;
     timestamp := timestamp quiet;
     unix_time := unix_time quiet;
     chat_report := chat_report quiet;
     chat_fix := chat_fix quiet;
     json_loads_report := json_loads_report quiet;
     json_loads_fix := json_loads_fix quiet;
     jira_search_issues := jira_search_issues quiet;
     jira_create_issue := jira_create_issue quiet;
     jira_post_comment := jira_post_comment quiet;
     github_relevant_files := github_relevant_files quiet;
     github_context := github_context quiet;
     github_get_branch := fun _ => Raise conflict;
     github_create_git_ref := github_create_git_ref quiet;
     github_apply_code_changes := github_apply_code_changes quiet;
     github_create_pull := github_create_pull quiet |}.

(** A table that already holds a finished workflow for two threads. *)
Definition earlier : world :=
  World {[ "C1_1.0" := Workflow "completed" "yesterday"
                         [Step "completed" "yesterday" ∅];
           "C2_7.5" := Workflow "failed" "last week"
                         [Step "failed" "last week" ∅] ]}
    40 [].

End MoreExamples.

(** ** The result of a successful run, for the statements below *)

Module RunShape.

(** The dict returned at the end of the outer [try] of
    [process_slack_conversation], as a function of its parts. *)
Definition success_dict (E : env) (workflow_id key : string) (report : bug_report)
    (similar : list similar_issue) (url : option string) : workflow_result :=
  Succeeded
    {| ok_workflow_id := workflow_id;
       issue_key := key;
       issue_url := "https://" +:+ jira_base_url E +:+ "/browse/" +:+ key;
       pr_url := url;
       bug_title := default "" (title report);
       result_severity := default "Medium" (severity report);
       similar_issues := similar;
       ok_message :=
         "Successfully created Jira ticket " +:+ key +:+
         (if truthy url then " and PR " +:+ default "" url
          else " (manual fix required)") |}.

End RunShape.

(** ** [Config] *)

Module Config.
Import PyStr.

(** ["/" in s] *)
Definition has_slash (s : string) : bool :=
  existsb (Ascii.eqb "/") (list_ascii_of_string s).

(** [get_github_owner_repo], with the value of [GITHUB_REPO]. *)
Definition get_github_owner_repo (github_repo : string) : res (string * string) :=
  if has_slash github_repo then
    let parts := split_on "/" github_repo in
    Ok (nth 0 parts "", nth 1 parts "")
  else Raise (Exn ValueError ("Invalid GITHUB_REPO format: " +:+ github_repo)).

(** The name [GitHubTool.__init__] hands to [get_repo]. *)
Definition repo_full_name (github_repo : string) : res string :=
  res_bind (get_github_owner_repo github_repo) (fun parts =>
    Ok (parts.1 +:+ "/" +:+ parts.2)).

End Config.

(** ** [JiraTool]: issue types and issue fields *)

Module JiraFields.
Import PyStr.

Definition default_issue_types : list string := ["Task"; "Story"; "Bug"; "Epic"].

(** [_get_available_issue_types].  [cache] is [self._available_issue_types];
    [project_types] is what reading the issue types of the project gives if
    it is asked.  Returns the types, the cache afterwards, and whether the
    project was asked. *)
Definition _get_available_issue_types (project_types : res (list string))
    (cache : option (list string)) : list string * option (list string) * bool :=
  match cache with
  | Some types => (types, Some types, false)
  | None =>
      match project_types with
      | Ok types => (types, Some types, true)
      | Raise _ => (default_issue_types, Some default_issue_types, true)
      end
  end.

(** [x in l] for strings *)
Definition member (x : string) (l : list string) : bool :=
  existsb (String.eqb x) l.

Definition fallbacks : list string := ["Task"; "Story"; "Bug"; "Epic"; "Sub-task"].

(** The choice made by [_get_valid_issue_type] among [available_types]. *)
Definition valid_issue_type (preferred_type : option string)
    (available_types : list string) : string :=
  if truthy preferred_type && member (default "" preferred_type) available_types
  then default "" preferred_type
  else
    match List.find (fun fallback => member fallback available_types) fallbacks with
    | Some fallback => fallback
    | None =>
        match available_types with
        | first :: _ => first
        | [] => "Task"
        end
    end.

Definition _get_valid_issue_type (project_types : res (list string))
    (cache : option (list string)) (preferred_type : option string)
  : string * option (list string) * bool :=
  let '(available_types, cache', asked) :=
    _get_available_issue_types project_types cache in
  (valid_issue_type preferred_type available_types, cache', asked).

(** [priority_map.get(bug_report.get('severity', 'Medium'), 'Medium')] *)
Definition priority_of (report : bug_report) : string :=
  let sev := default "Medium" (severity report) in
  if String.eqb sev "Critical" then "Highest"
  else if String.eqb sev "High" then "High"
  else if String.eqb sev "Medium" then "Medium"
  else if String.eqb sev "Low" then "Low"
  else "Medium".

Definition is_label_char (c : ascii) : bool :=
  let n := code c in
  ((97 <=? n) && (n <=? 122) || (65 <=? n) && (n <=? 90)
   || (48 <=? n) && (n <=? 57) || (n =? 95) || (n =? 45))%N.

(** [re.sub(r'[^a-zA-Z0-9_-]', '_', component)] *)
Fixpoint clean_label (component : string) : string :=
  match component with
  | EmptyString => ""
  | String c rest =>
      String (if is_label_char c then c else "_"%char) (clean_label rest)
  end.

(** The loop that collects the labels in [create_ticket]. *)
Fixpoint labels_from (components : list string) : list string :=
  match components with
  | [] => []
  | component :: rest =>
      let label := clean_label component in
      if is_empty label then labels_from rest else label :: labels_from rest
  end.

Definition labels_of (report : bug_report) : list string :=
  labels_from (MCPServer.component_entries report).

(** [{code}], the module constant of [jira_tool.py] *)
Definition code_marker : string := "{code}".

(** The part of [additional_context] that [_format_description] shows. *)
Definition shown_context (context : string) : string :=
  if (2000 <? String.length context)%nat
  then prefix_of_length 2000 context +:+ "..." +:+ nl +:+ "[Truncated]"
  else context.

Definition section_if (present : bool) (text : string) : list string :=
  if present then [text] else [].

Fixpoint bullet_lines (components : list string) : list string :=
  match components with
  | [] => []
  | c :: rest => ("* " +:+ c) :: bullet_lines rest
  end.

(** The entries of [affected_components] as [_format_description] iterates
    over them: none for an absent key, [None] or an empty value. *)
Definition listed_components (report : bug_report) : list string :=
  match affected_components report with
  | Some (CompStr s) => MCPServer.chars s
  | Some (CompList l) => l
  | _ => []
  end.

(** [_format_description] *)
Definition _format_description (report : bug_report) (pr_url : option string)
  : string :=
  let sections :=
    section_if (truthy (description report))
      ("h3. Description" +:+ nl +:+ default "" (description report))
    ++ section_if (truthy (steps_to_reproduce report))
         ("h3. Steps to Reproduce" +:+ nl +:+ default "" (steps_to_reproduce report))
    ++ section_if (truthy (expected_behavior report))
         ("h3. Expected Behavior" +:+ nl +:+ default "" (expected_behavior report))
    ++ section_if (truthy (actual_behavior report))
         ("h3. Actual Behavior" +:+ nl +:+ default "" (actual_behavior report))
    ++ section_if (negb (Nat.eqb (length (listed_components report)) 0))
         ("h3. Affected Components" +:+ nl
          +:+ join_lines (bullet_lines (listed_components report)))
    ++ section_if (truthy (additional_context report))
         ("h3. Additional Context" +:+ nl +:+ code_marker
          +:+ shown_context (default "" (additional_context report))
          +:+ code_marker)
    ++ section_if (truthy pr_url)
         ("h3. Pull Request" +:+ nl +:+ "[GitHub PR|" +:+ default "" pr_url +:+ "]") in
  String.concat (nl +:+ nl) sections.

(** The dict [create_ticket] sends to [create_issue]; [labels] is [None]
    when the key is not set. *)
Record issue_fields : Type := IssueFields {
  project : string;
  summary : string;
  issue_description : string;
  issuetype : string;
  priority : string;
  labels : option (list string)
}.

Definition issue_dict (project_key issue_type : string) (report : bug_report)
    (pr_url : option string) : issue_fields :=
  {| project := project_key;
     summary := default "Bug Report from Slack" (title report);
     issue_description := _format_description report pr_url;
     issuetype := issue_type;
     priority := priority_of report;
     labels := match labels_of report with
               | [] => None
               | l => Some l
               end |}.

End JiraFields.

(** ** [GitHubTool]: the requests behind the search, the context and the
       commits

    The orchestrator above sees [get_relevant_files],
    [analyze_codebase_context] and [apply_code_changes] through their
    results.  Here the three functions, [apply_unified_diff] and
    [get_file_content] are written out against the client of GitHub.

    The answers of the client may depend on everything requested before, so
    every function takes the list of the requests made so far and returns
    it extended.  A listing of search results that fails while it is read
    behaves as the listing of what was read before: the handlers around both
    loops only go on with the next query. An answer of [get_contents] that
    is not a file (a directory listing) makes the first attribute access
    raise inside the same handler as the request; it is a [Raise] here. *)

Module GitHubRepo.
Import PyStr.

Record fetched_file : Type := FetchedFile {
  size : Z;
  (** [base64.b64decode(content).decode('utf-8')] *)
  decoded : res string;
  sha : string;
  html_url : string
}.

Inductive repo_call : Type :=
| SearchCode (query : string)
| GetContents (path : string) (ref : option string)
| UpdateFile (path message content file_sha branch : string)
| CreateFile (path message content branch : string).

Record client : Type := Client {
  repo_name : string;
  search_code : list repo_call -> string -> res (list string);
  get_contents : list repo_call -> string -> option string -> res fetched_file;
  update_file :
    list repo_call -> string -> string -> string -> string -> string -> res unit;
  create_file :
    list repo_call -> string -> string -> string -> string -> res unit
}.

(** [c.isupper()] for one character: the upper-case letters of Latin-1. *)
Definition is_upper (c : ascii) : bool :=
  let n := code c in
  ((65 <=? n) && (n <=? 90) || (192 <=? n) && (n <=? 222) && negb (n =? 215))%N.

(** [sub in s] *)
Fixpoint contains (sub s : string) : bool :=
  String.prefix sub s
  || match s with
     | EmptyString => false
     | String _ rest => contains sub rest
     end.

(** [x in seen_paths] *)
Definition seen (x : string) (seen_paths : list string) : bool :=
  existsb (String.eqb x) seen_paths.

(** [len(k) > 3 and k[0].isupper()] *)
Definition is_component_name (k : string) : bool :=
  (3 <? String.length k)%nat
  && match k with
     | String c _ => is_upper c
     | EmptyString => false
     end.

(** ['.tsx' in k or '.ts' in k or '.jsx' in k] *)
Definition looks_like_file (k : string) : bool :=
  contains ".tsx" k || contains ".ts" k || contains ".jsx" k.

Definition search_queries (repo : string) (keywords : list string)
  : list string :=
  let primary_keywords := List.filter is_component_name keywords in
  let file_keywords := List.filter looks_like_file keywords in
  match file_keywords with
  | first :: _ => ["repo:" +:+ repo +:+ " filename:" +:+ first]
  | [] => []
  end
  ++ match primary_keywords with
     | _ :: _ =>
         ["repo:" +:+ repo +:+ " " +:+ String.concat " OR " (take 2 primary_keywords)]
     | [] => []
     end
  ++ match keywords with
     | _ :: _ => ["repo:" +:+ repo +:+ " " +:+ String.concat " " (take 3 keywords)]
     | [] => []
     end
  ++ ["repo:" +:+ repo +:+ " extension:tsx extension:ts"].

(** The inner loop of [get_relevant_files], over the results of one query. *)
Fixpoint read_results (C : client) (max_files : Z) (results : list string)
    (relevant_files : list repo_file) (seen_paths : list string)
    (log : list repo_call) : list repo_file * list string * list repo_call :=
  match results with
  | [] => (relevant_files, seen_paths, log)
  | path :: rest =>
      if max_files <=? Z.of_nat (length relevant_files)
      then (relevant_files, seen_paths, log)
      else if seen path seen_paths
      then read_results C max_files rest relevant_files seen_paths log
      else
        let log' := log ++ [GetContents path None] in
        match get_contents C log path None with
        | Ok content =>
            if size content <? 200000 then
              match decoded content with
              | Ok decoded_content =>
                  read_results C max_files rest
                    (relevant_files
                     ++ [RepoFile path decoded_content (html_url content)])
                    (seen_paths ++ [path]) log'
              | Raise _ =>
                  read_results C max_files rest relevant_files seen_paths log'
              end
            else read_results C max_files rest relevant_files seen_paths log'
        | Raise _ =>
            read_results C max_files rest relevant_files seen_paths log'
        end
  end.

(** The outer loop, over the queries. *)
Fixpoint run_queries (C : client) (max_files : Z) (queries : list string)
    (relevant_files : list repo_file) (seen_paths : list string)
    (log : list repo_call) : list repo_file * list repo_call :=
  match queries with
  | [] => (relevant_files, log)
  | query :: rest =>
      if max_files <=? Z.of_nat (length relevant_files)
      then (relevant_files, log)
      else
        let log' := log ++ [SearchCode query] in
        match search_code C log query with
        | Ok code_results =>
            let '(relevant_files', seen_paths', log'') :=
              read_results C max_files code_results relevant_files seen_paths log' in
            run_queries C max_files rest relevant_files' seen_paths' log''
        | Raise _ => run_queries C max_files rest relevant_files seen_paths log'
        end
  end.

Definition get_relevant_files (C : client) (keywords : list string)
    (max_files : Z) (log : list repo_call) : list repo_file * list repo_call :=
  run_queries C max_files (search_queries (repo_name C) keywords) [] [] log.

(** [get_file_content] *)
Definition get_file_content (C : client) (file_path : string)
    (log : list repo_call) : string * list repo_call :=
  (match get_contents C log file_path None with
   | Ok file_obj =>
       if size file_obj <? 500000 then
         match decoded file_obj with
         | Ok content => content
         | Raise _ => ""
         end
       else ""
   | Raise _ => ""
   end,
   log ++ [GetContents file_path None]).

(** [affected_components[:5]], for the shapes of the data model; [None] is
    replaced by the empty list first. *)
Definition first_components (affected : components) : list string :=
  match affected with
  | CompNone => []
  | CompStr s => MCPServer.chars (prefix_of_length 5 s)
  | CompList l => take 5 l
  end.

(** The inner [try] of [analyze_codebase_context]: the head of a file. *)
Definition file_part (C : client) (component : string) (log : list repo_call)
  : list string * list repo_call :=
  if contains "." component then
    (match get_contents C log component None with
     | Ok content =>
         if size content <? 50000 then
           match decoded content with
           | Ok file_content =>
               ["=== " +:+ component +:+ " ===" +:+ nl
                +:+ prefix_of_length 1000 file_content]
           | Raise _ => []
           end
         else []
     | Raise _ => []
     end,
     log ++ [GetContents component None])
  else ([], log).

Fixpoint analyze_components (C : client) (components : list string)
    (context_parts : list string) (log : list repo_call)
  : list string * list repo_call :=
  match components with
  | [] => (context_parts, log)
  | component :: rest =>
      let '(file_parts, log1) := file_part C component log in
      let query := "repo:" +:+ repo_name C +:+ " " +:+ component in
      let log2 := log1 ++ [SearchCode query] in
      match search_code C log1 query with
      | Ok search_results =>
          analyze_components C rest
            (context_parts ++ file_parts
             ++ map (fun path => "Reference in " +:+ path) (take 2 search_results))
            log2
      | Raise _ => analyze_components C rest (context_parts ++ file_parts) log2
      end
  end.

Definition no_context : string := "No specific code context found".

Definition analyze_codebase_context (C : client) (affected : components)
    (log : list repo_call) : string * list repo_call :=
  let '(context_parts, log') :=
    analyze_components C (first_components affected) [] log in
  (match context_parts with
   | [] => no_context
   | _ :: _ => String.concat (nl +:+ nl) context_parts
   end,
   log').

(** A patch dict, read with [.get(key, '')]; a field is [None] when the key
    is absent. *)
Record patch : Type := Patch {
  patch_path : option string;
  unified_diff : option string
}.

(** [not file_path or not diff] is false *)
Definition has_path_and_diff (p : patch) : bool :=
  negb (is_empty (default "" (patch_path p)))
  && negb (is_empty (default "" (unified_diff p))).

(** [commit_message or f"fix: Apply patch to {file_path}"] *)
Definition patch_message (commit_message file_path : string) : string :=
  if is_empty commit_message then "fix: Apply patch to " +:+ file_path
  else commit_message.

(** The loop of [apply_unified_diff]. *)
Fixpoint apply_patches (C : client) (branch_name : string) (patches : list patch)
    (commit_message : string) (log : list repo_call) : bool * list repo_call :=
  match patches with
  | [] => (true, log)
  | p :: rest =>
      let file_path := default "" (patch_path p) in
      let diff := default "" (unified_diff p) in
      if is_empty file_path || is_empty diff
      then apply_patches C branch_name rest commit_message log
      else
        let log1 := log ++ [GetContents file_path (Some branch_name)] in
        match get_contents C log file_path (Some branch_name) with
        | Ok file_obj =>
            match decoded file_obj with
            | Ok current_content =>
                match PatchEngine._apply_diff_to_content current_content diff with
                | Ok new_content =>
                    if is_empty new_content then (false, log1)
                    else
                      let message := patch_message commit_message file_path in
                      let log2 :=
                        log1 ++ [UpdateFile file_path message new_content
                                   (sha file_obj) branch_name] in
                      match update_file C log1 file_path message new_content
                              (sha file_obj) branch_name with
                      | Ok _ =>
                          apply_patches C branch_name rest commit_message log2
                      | Raise _ => (false, log2)
                      end
                | Raise _ => (false, log1)
                end
            | Raise _ => (false, log1)
            end
        | Raise _ => (false, log1)
        end
  end.

Definition apply_unified_diff (C : client) (branch_name : string)
    (patches : list patch) (commit_message : string) (log : list repo_call)
  : bool * list repo_call :=
  match patches with
  | [] => (false, log)
  | _ :: _ => apply_patches C branch_name patches commit_message log
  end.

(** [not file_path] and [not changes] are both false *)
Definition has_file_and_changes (change : file_change) : bool :=
  negb (is_empty (default "" (file change)))
  && negb (is_empty (default "" (file_changes change))).

(** The handler of [apply_code_changes] that creates the file. *)
Definition create_instead (C : client) (branch_name file_path changes : string)
    (log : list repo_call) : res unit * list repo_call :=
  let message := "Fix: Create " +:+ file_path in
  (create_file C log file_path message changes branch_name,
   log ++ [CreateFile file_path message changes branch_name]).

(** The [try] of [apply_code_changes] that updates the file; [Raise] stands
    for an exception of [get_contents], of the decoding or of
    [update_file]. *)
Definition update_existing (C : client) (branch_name file_path changes : string)
    (log : list repo_call) : res unit * list repo_call :=
  let log1 := log ++ [GetContents file_path (Some branch_name)] in
  match get_contents C log file_path (Some branch_name) with
  | Ok file_content =>
      match decoded file_content with
      | Ok _ =>
          let message := "Fix: Update " +:+ file_path in
          (update_file C log1 file_path message changes (sha file_content)
             branch_name,
           log1 ++ [UpdateFile file_path message changes (sha file_content)
                      branch_name])
      | Raise e => (Raise e, log1)
      end
  | Raise e => (Raise e, log1)
  end.

(** The loop of [apply_code_changes], for changes whose [changes] is a
    string. *)
Fixpoint apply_changes (C : client) (branch_name : string)
    (code_changes : list file_change) (log : list repo_call)
  : bool * list repo_call :=
  match code_changes with
  | [] => (true, log)
  | change :: rest =>
      let file_path := default "" (file change) in
      let changes := default "" (file_changes change) in
      if is_empty file_path then apply_changes C branch_name rest log
      else if is_empty changes then apply_changes C branch_name rest log
      else
        match update_existing C branch_name file_path changes log with
        | (Ok _, log1) => apply_changes C branch_name rest log1
        | (Raise _, log1) =>
            match create_instead C branch_name file_path changes log1 with
            | (Ok _, log2) => apply_changes C branch_name rest log2
            | (Raise _, log2) => (false, log2)
            end
        end
  end.

Definition apply_code_changes (C : client) (branch_name : string)
    (code_changes : list file_change) (log : list repo_call)
  : bool * list repo_call :=
  match code_changes with
  | [] => (false, log)
  | _ :: _ => apply_changes C branch_name code_changes log
  end.

(** What a list of requests writes, and what it searches. *)
Definition is_search (c : repo_call) : bool :=
  match c with SearchCode _ => true | _ => false end.

Definition is_fetch (c : repo_call) : bool :=
  match c with GetContents _ _ => true | _ => false end.

Definition is_write (c : repo_call) : bool :=
  match c with UpdateFile _ _ _ _ _ | CreateFile _ _ _ _ => true | _ => false end.

Definition written_path (c : repo_call) : option string :=
  match c with
  | UpdateFile path _ _ _ _ | CreateFile path _ _ _ => Some path
  | _ => None
  end.

(** [f] is in the result of [get_relevant_files] for a reason: some request
    for its path was answered with a file below the size limit whose content
    and address are the ones reported. *)
Definition fetched_from (C : client) (f : repo_file) : Prop :=
  exists (history : list repo_call) (content : fetched_file),
    get_contents C history (file_path f) None = Ok content
    /\ size content < 200000
    /\ decoded content = Ok (file_content f)
    /\ html_url content = file_url f.

(** What [apply_unified_diff] may request for [branch_name]: the file on
    that branch, and an update with content that is not empty. *)
Definition patch_request (branch_name commit_message : string) (c : repo_call)
  : Prop :=
  match c with
  | GetContents _ ref => ref = Some branch_name
  | UpdateFile path message content _ branch =>
      content <> "" /\ branch = branch_name
      /\ message = patch_message commit_message path
  | _ => False
  end.

(** The query of a search request. *)
Definition searched (c : repo_call) : option string :=
  match c with SearchCode query => Some query | _ => None end.

(** The requests [new], made after [log], end with a [create_file] that the
    client refused. *)
Definition ends_with_refused_create (C : client) (log new : list repo_call)
  : Prop :=
  exists history path message content branch,
    new = history ++ [CreateFile path message content branch]
    /\ is_ok (create_file C (log ++ history) path message content branch) = false.

(** A repository with one file, [app.ts], that answers every search with
    the same two paths. *)
Definition small_repo : client :=
  {| repo_name := "acme/shop";
     search_code := fun _ _ => Ok ["app.ts"; "gone.ts"];
     get_contents := fun _ path _ =>
       if String.eqb path "app.ts"
       then Ok (FetchedFile 12 (Ok ("let a = 1" +:+ nl +:+ "let b = 2")) "s1"
                  "https://github.com/acme/shop/blob/main/app.ts")
       else if String.eqb path "empty.ts"
       then Ok (FetchedFile 0 (Ok "") "s0"
                  "https://github.com/acme/shop/blob/main/empty.ts")
       else Raise (Exn (GithubException 404) "Not Found");
     update_file := fun _ _ _ _ _ _ => Ok tt;
     create_file := fun _ _ _ _ _ => Ok tt |}.

(** The same repository when every write is refused. *)
Definition read_only_repo : client :=
  {| repo_name := repo_name small_repo;
     search_code := search_code small_repo;
     get_contents := get_contents small_repo;
     update_file := fun _ _ _ _ _ _ => Raise (Exn (GithubException 409) "Conflict");
     create_file := fun _ _ _ _ _ => Raise (Exn (GithubException 422) "Exists") |}.

End GitHubRepo.
(** * Properties of the patch engine *)

Module PatchEngineFacts.
Import PyStr PyList PatchEngine PatchShape.

(** *** Lists cut at given lengths *)

Lemma cut_three {A : Type} (l : list A) (n m : nat) :
  (n + m <= length l)%nat ->
  exists a b c, l = a ++ b ++ c /\ length a = n /\ length b = m.
Proof.
  intros Hlen.
  exists (take n l), (take m (drop n l)), (drop m (drop n l)).
  rewrite !take_drop. split; [done|].
  rewrite !length_take, length_drop. lia.
Qed.

Lemma take_clamped {A : Type} (l : list A) (i : Z) :
  0 <= i ->
  take (Z.to_nat (Z.min i (Z.of_nat (length l)))) l = take (Z.to_nat i) l.
Proof.
  intros Hi. destruct (Z.le_gt_cases i (Z.of_nat (length l))).
  - by rewrite Z.min_l.
  - rewrite Z.min_r, Nat2Z.id by lia. by rewrite !take_ge by lia.
Qed.

Lemma drop_clamped {A : Type} (l : list A) (i : Z) :
  0 <= i ->
  drop (Z.to_nat (Z.min i (Z.of_nat (length l)))) l = drop (Z.to_nat i) l.
Proof.
  intros Hi. destruct (Z.le_gt_cases i (Z.of_nat (length l))).
  - by rewrite Z.min_l.
  - rewrite Z.min_r, Nat2Z.id by lia. by rewrite !drop_ge by lia.
Qed.

(** *** Index normalisation, deletion and insertion at offsets that are
        not negative *)

Lemma norm_index_nonneg (n i : Z) : 0 <= i -> norm_index n i = Z.min i n.
Proof. intros H. unfold norm_index. destruct (Z.ltb_spec i 0); lia. Qed.

Lemma fits_ssize_spec (i : Z) :
  fits_ssize i = true <-> - 2 ^ 63 <= i < 2 ^ 63.
Proof. unfold fits_ssize. rewrite andb_true_iff, Z.leb_le, Z.ltb_lt. done. Qed.

Lemma fits_ssize_between (a b c : Z) :
  a <= b <= c -> fits_ssize a = true -> fits_ssize c = true ->
  fits_ssize b = true.
Proof. rewrite !fits_ssize_spec. lia. Qed.

Lemma insert_at_nonneg {A : Type} (l : list A) (i : Z) (x : A) :
  0 <= i < 2 ^ 63 ->
  insert_at l i x = Ok (take (Z.to_nat i) l ++ x :: drop (Z.to_nat i) l).
Proof.
  intros Hi. unfold insert_at.
  assert (fits_ssize i = true) as -> by (apply fits_ssize_spec; lia).
  rewrite norm_index_nonneg by lia.
  by rewrite take_clamped, drop_clamped by lia.
Qed.

Lemma insert_at_overflow {A : Type} (l : list A) (i : Z) (x : A) :
  fits_ssize i = false -> insert_at l i x = Raise index_overflow.
Proof. intros H. unfold insert_at. by rewrite H. Qed.

Lemma del_slice_beyond {A : Type} (l : list A) (a b : Z) :
  Z.of_nat (length l) <= a -> del_slice l a b = l.
Proof.
  intros H. unfold del_slice. cbv zeta.
  rewrite (norm_index_nonneg _ a), Z.min_r by lia.
  assert (norm_index (Z.of_nat (length l)) b <= Z.of_nat (length l)) as Hb.
  { unfold norm_index. destruct (Z.ltb_spec b 0); lia. }
  destruct (Z.leb_spec (norm_index (Z.of_nat (length l)) b) (Z.of_nat (length l)));
    [done | lia].
Qed.

Lemma del_slice_nonneg {A : Type} (l : list A) (a b : Z) :
  0 <= a <= b ->
  del_slice l a b = take (Z.to_nat a) l ++ drop (Z.to_nat b) l.
Proof.
  intros Hab. unfold del_slice. cbv zeta.
  rewrite !norm_index_nonneg by lia.
  destruct (Z.leb_spec (Z.min b (Z.of_nat (length l)))
              (Z.min a (Z.of_nat (length l)))) as [Hle|Hlt].
  - destruct (Z.eq_dec a b) as [->|Hne]; [by rewrite take_drop|].
    rewrite take_ge, drop_ge by lia. by rewrite app_nil_r.
  - by rewrite take_clamped, drop_clamped by lia.
Qed.

(** The lines left by the removal step of a hunk. *)
Lemma removal_closed_form (l : list string) (s r : Z) :
  0 <= s -> 0 <= r ->
  (if 0 <? r
   then del_slice l s (Z.min (s + r) (Z.of_nat (length l)))
   else l)
  = take (Z.to_nat s) l ++ drop (Z.to_nat (s + r)) l.
Proof.
  intros Hs Hr. destruct (Z.ltb_spec 0 r) as [Hpos|Hzero].
  - destruct (Z.le_gt_cases s (Z.of_nat (length l))) as [Hin|Hout].
    + rewrite del_slice_nonneg by lia. by rewrite drop_clamped by lia.
    + rewrite del_slice_beyond by lia.
      rewrite take_ge, drop_ge by lia. by rewrite app_nil_r.
  - replace (s + r) with s by lia. by rewrite take_drop.
Qed.

(** *** The insertion loop *)

Lemma insert_lines_closed_form (new_lines : list string) :
  forall (l : list string) (start i : Z),
    0 <= start + i ->
    new_lines = [] \/ start + i + Z.of_nat (length new_lines) <= 2 ^ 63 ->
    insert_lines l start i new_lines
    = Ok (take (Z.to_nat (start + i)) l ++ new_lines
          ++ drop (Z.to_nat (start + i)) l).
Proof.
  induction new_lines as [|x new_lines IH]; intros l start i H0 Hfit.
  { simpl. by rewrite take_drop. }
  destruct Hfit as [|Hfit]; [done|]. simpl in Hfit.
  cbn [insert_lines]. rewrite insert_at_nonneg by lia. cbn [res_bind].
  rewrite IH; [|lia|].
  2: { destruct new_lines; [by left | right; simpl in *; lia]. }
  f_equal.
  replace (Z.to_nat (start + (i + 1))) with (S (Z.to_nat (start + i))) by lia.
  set (p := Z.to_nat (start + i)).
  destruct (Nat.le_gt_cases p (length l)) as [Hin|Hout].
  - assert (length (take p l ++ [x]) = S p) as Hlen
        by (rewrite length_app, length_take; simpl; lia).
    replace (take p l ++ x :: drop p l) with ((take p l ++ [x]) ++ drop p l)
      by (by rewrite <- app_assoc).
    rewrite take_app_length', drop_app_length' by done.
    by rewrite <- app_assoc.
  - rewrite (take_ge l p), (drop_ge l p) by lia.
    rewrite take_ge, drop_ge by (rewrite length_app; simpl; lia).
    by rewrite <- !app_assoc.
Qed.

Lemma insert_lines_is_ok (new_lines : list string) :
  forall (l : list string) (start i : Z),
    is_ok (insert_lines l start i new_lines)
    = match new_lines with
      | [] => true
      | _ :: _ =>
          fits_ssize (start + i)
          && fits_ssize (start + i + Z.of_nat (length new_lines) - 1)
      end.
Proof.
  induction new_lines as [|x new_lines IH]; intros l start i; [done|].
  cbn [insert_lines]. unfold insert_at.
  destruct (fits_ssize (start + i)) eqn:Hi; cbn [res_bind is_ok andb]; [|done].
  rewrite IH. destruct new_lines as [|y new_lines].
  - cbn [length]. replace (start + i + Z.of_nat 1 - 1) with (start + i) by lia.
    by rewrite Hi.
  - replace (start + (i + 1) + Z.of_nat (length (y :: new_lines)) - 1)
      with (start + i + Z.of_nat (length (x :: y :: new_lines)) - 1)
      by (cbn [length]; lia).
    destruct (fits_ssize (start + i + _ - 1)) eqn:Hend.
    + rewrite andb_true_r.
      apply (fits_ssize_between (start + i) _
               (start + i + Z.of_nat (length (x :: y :: new_lines)) - 1));
        [cbn [length]; lia | done | done].
    + by rewrite andb_false_r.
Qed.

Lemma insert_lines_raises (new_lines : list string) :
  forall (l : list string) (start i : Z) (e : exn),
    insert_lines l start i new_lines = Raise e -> e = index_overflow.
Proof.
  induction new_lines as [|x new_lines IH]; intros l start i e; [done|].
  cbn [insert_lines]. unfold insert_at.
  destruct (fits_ssize (start + i)); cbn [res_bind].
  - apply IH.
  - by intros [= <-].
Qed.

(** *** One hunk *)

Lemma lines_to_remove_nonneg (h : hunk) : 0 <= lines_to_remove h.
Proof. unfold lines_to_remove. lia. Qed.

Lemma apply_hunk_is_ok (l : list string) (h : hunk) :
  is_ok (apply_hunk l h) = hunk_fits h.
Proof.
  unfold apply_hunk, hunk_fits. cbv zeta. rewrite insert_lines_is_ok.
  destruct (new_lines_of (changes h)) as [|x rest]; [done|].
  rewrite Z.add_0_r.
  by destruct (Z.eqb_spec (Z.of_nat (length (x :: rest))) 0).
Qed.

Lemma apply_hunk_raises (l : list string) (h : hunk) (e : exn) :
  apply_hunk l h = Raise e -> e = index_overflow /\ hunk_fits h = false.
Proof.
  intros Hraise. split.
  - unfold apply_hunk in Hraise. by eapply insert_lines_raises.
  - rewrite <- (apply_hunk_is_ok l h), Hraise. done.
Qed.

Lemma apply_hunk_overflow (l : list string) (h : hunk) :
  hunk_fits h = false -> apply_hunk l h = Raise index_overflow.
Proof.
  intros Hfit. rewrite <- (apply_hunk_is_ok l h) in Hfit.
  destruct (apply_hunk l h) as [|e] eqn:Hrun; [done|].
  by apply apply_hunk_raises in Hrun as [-> _].
Qed.

(** What a hunk at an offset that is not negative makes of the lines. *)
Lemma apply_hunk_value (l : list string) (h : hunk) :
  0 <= old_start h ->
  hunk_fits h = true ->
  apply_hunk l h
  = Ok (take (Z.to_nat (old_start h)) l
        ++ new_lines_of (changes h)
        ++ drop (Z.to_nat (old_start h + lines_to_remove h)) l).
Proof.
  intros H0 Hfit. pose proof (lines_to_remove_nonneg h) as Hr.
  unfold apply_hunk. cbv zeta. rewrite removal_closed_form by done.
  rewrite insert_lines_closed_form; [|lia|].
  2: { unfold hunk_fits in Hfit. cbv zeta in Hfit.
       destruct (new_lines_of (changes h)) as [|x rest]; [by left|].
       right. apply orb_true_iff in Hfit as [Hfit|Hfit].
       - apply Z.eqb_eq in Hfit. simpl in Hfit. lia.
       - apply andb_true_iff in Hfit as [_ Hfit].
         apply fits_ssize_spec in Hfit. lia. }
  f_equal. rewrite Z.add_0_r. set (s := Z.to_nat (old_start h)).
  destruct (Nat.le_gt_cases s (length l)) as [Hin|Hout].
  - rewrite take_app_length', drop_app_length' by (rewrite length_take; lia).
    done.
  - rewrite (take_ge l s), (drop_ge l (Z.to_nat _)) by lia.
    rewrite app_nil_r. by rewrite take_ge, drop_ge by lia.
Qed.

(** *** All hunks *)

Lemma apply_in_turn_is_ok (hunks : list hunk) :
  forall l, is_ok (apply_in_turn l hunks) = forallb hunk_fits hunks.
Proof.
  induction hunks as [|h hunks IH]; intros l; [done|]. simpl.
  rewrite <- (apply_hunk_is_ok l h).
  destruct (apply_hunk l h); simpl; [apply IH | done].
Qed.

Lemma apply_in_turn_raises (hunks : list hunk) :
  forall l e, apply_in_turn l hunks = Raise e -> e = index_overflow.
Proof.
  induction hunks as [|h hunks IH]; intros l e; [done|]. simpl.
  destruct (apply_hunk l h) as [l'|e'] eqn:Hh; simpl.
  - apply IH.
  - intros [= <-]. by apply apply_hunk_raises in Hh as [-> _].
Qed.

Lemma forallb_rev {A : Type} (f : A -> bool) (l : list A) :
  forallb f (rev l) = forallb f l.
Proof.
  induction l as [|x l IH]; [done|]. simpl.
  rewrite forallb_app, IH. simpl. rewrite andb_true_r. apply andb_comm.
Qed.

Lemma apply_hunks_is_ok (l : list string) (hunks : list hunk) :
  is_ok (apply_hunks l hunks) = forallb hunk_fits hunks.
Proof. unfold apply_hunks. by rewrite apply_in_turn_is_ok, forallb_rev. Qed.

Lemma apply_hunks_raises (l : list string) (hunks : list hunk) (e : exn) :
  apply_hunks l hunks = Raise e -> e = index_overflow.
Proof. apply apply_in_turn_raises. Qed.

(** *** Two hunks in either order *)

(** The upper hunk [h1] keeps the number of lines and removes lines of the
    document only; the lower hunk [h2] starts at or after the end of the
    lines [h1] removes, and may run past the end of the document. *)
Lemma apply_hunks_two_orders (L : list string) (h1 h2 : hunk) :
  Z.of_nat (length L) <= 2 ^ 63 ->
  0 <= old_start h1 ->
  old_start h1 + lines_to_remove h1 <= Z.of_nat (length L) ->
  old_start h1 + lines_to_remove h1 <= old_start h2 ->
  Z.of_nat (length (new_lines_of (changes h1))) = lines_to_remove h1 ->
  apply_hunks L [h1; h2] = apply_hunks L [h2; h1].
Proof.
  intros Hsmall H0 Hin H12 Hkeep.
  pose proof (lines_to_remove_nonneg h1) as Hr1.
  pose proof (lines_to_remove_nonneg h2) as Hr2.
  assert (hunk_fits h1 = true) as Hfit1.
  { unfold hunk_fits. cbv zeta. apply orb_true_iff.
    destruct (Z.eqb_spec (Z.of_nat (length (new_lines_of (changes h1)))) 0);
      [by left | right].
    apply andb_true_iff. split; apply fits_ssize_spec; lia. }
  unfold apply_hunks. cbn [rev app apply_in_turn].
  rewrite (apply_hunk_value L h1) by done. cbn [res_bind].
  destruct (hunk_fits h2) eqn:Hfit2.
  2: { rewrite !(apply_hunk_overflow _ h2) by done. done. }
  rewrite (apply_hunk_value L h2) by (done || lia). cbn [res_bind].
  rewrite !apply_hunk_value by (done || lia). cbn [res_bind]. f_equal.
  destruct (cut_three L (Z.to_nat (old_start h1)) (Z.to_nat (lines_to_remove h1)))
    as (a & b & rest & -> & Ha & Hb); [lia|].
  set (N1 := new_lines_of (changes h1)) in *.
  set (N2 := new_lines_of (changes h2)) in *.
  set (t := Z.to_nat (old_start h2 - old_start h1 - lines_to_remove h1)).
  assert (Z.to_nat (old_start h1) = length a) as -> by lia.
  assert (Z.to_nat (old_start h1 + lines_to_remove h1)
          = (length a + length b)%nat) as -> by lia.
  assert (Z.to_nat (old_start h2) = (length a + (length b + t))%nat) as Hs2
      by lia.
  assert (Z.to_nat (old_start h2 + lines_to_remove h2)
          = (length a + (length b + (t + Z.to_nat (lines_to_remove h2))))%nat)
    as Hs2r by lia.
  rewrite Hs2, Hs2r.
  assert (length N1 = length b) as HN1 by lia.
  set (r2 := Z.to_nat (lines_to_remove h2)).
  assert (forall (m : list string) (k : nat),
             take (length a + (length m + k)) (a ++ m ++ rest)
             = a ++ m ++ take k rest) as Htake
      by (intros m k; by rewrite !take_app_add).
  assert (forall (m : list string) (k : nat),
             drop (length a + (length m + k)) (a ++ m ++ rest) = drop k rest)
    as Hdrop by (intros m k; by rewrite !drop_app_add).
  (* the lower hunk first, then the upper one *)
  rewrite (Htake b t), (Hdrop b (t + r2)%nat).
  replace ((a ++ b ++ take t rest) ++ N2 ++ drop (t + r2) rest)
    with (a ++ b ++ (take t rest ++ N2 ++ drop (t + r2) rest))
    by (by rewrite <- !app_assoc).
  rewrite take_app_length.
  rewrite <- (drop_drop _ (length b) (length a)), !drop_app_length.
  (* the upper hunk first, then the lower one *)
  rewrite take_app_length.
  rewrite <- (drop_drop (a ++ b ++ rest) (length b) (length a)),
    !drop_app_length.
  rewrite <- HN1. rewrite (Htake N1 t), (Hdrop N1 (t + r2)%nat).
  by rewrite <- !app_assoc.
Qed.

(** *** Scanning a patch *)

Lemma scan_lines_no_header (diff_lines : list string) :
  (forall line, In line diff_lines -> startswith "@@" line = false) ->
  scan_lines [] diff_lines = Ok [].
Proof.
  induction diff_lines as [|line rest IH]; intros Hno; simpl.
  - done.
  - unfold scan_line. rewrite (Hno line) by (left; done). simpl.
    apply IH. intros l Hl. apply Hno. right. done.
Qed.

Lemma scan_lines_without_header (diff_lines : list string) :
  (forall line, In line diff_lines -> is_header line = false) ->
  scan_lines [] diff_lines = Ok [].
Proof.
  induction diff_lines as [|line rest IH]; intros Hno; [done|].
  cbn [scan_lines].
  assert (scan_line [] line = Ok []) as ->.
  { specialize (Hno line (or_introl eq_refl)). unfold is_header in Hno.
    unfold scan_line. destruct (startswith "@@" line); [|done].
    cbn [andb] in Hno. by rewrite Hno. }
  cbn [res_bind]. apply IH. intros l Hl. apply Hno. by right.
Qed.

Lemma range_start_raises (range : string) (e : exn) :
  range_start range = Raise e -> exn_class e = ValueError.
Proof.
  unfold range_start. cbv zeta.
  destruct (int_outcome_of _); intros Heq; [discriminate|..];
    injection Heq as <-; done.
Qed.

Lemma scan_line_raises (hunks : list hunk) (line : string) (e : exn) :
  scan_line hunks line = Raise e -> exn_class e = ValueError.
Proof.
  unfold scan_line.
  destruct (startswith "@@" line).
  - destruct (Nat.leb_spec 2 (length (split_ws line))); [|done].
    destruct (range_start (nth 1 _ _)) as [old|e1] eqn:E1; simpl.
    + destruct (range_start (if (2 <? _)%nat then _ else _)) as [new|e2] eqn:E2;
        simpl; intros Heq.
      * discriminate.
      * injection Heq as <-. eauto using range_start_raises.
    + intros Heq. injection Heq as <-. eauto using range_start_raises.
  - destruct (_ && _); done.
Qed.

Lemma scan_lines_raises (diff_lines : list string) :
  forall (hunks : list hunk) (e : exn),
    scan_lines hunks diff_lines = Raise e -> exn_class e = ValueError.
Proof.
  induction diff_lines as [|line rest IH]; intros hunks e; simpl.
  - done.
  - destruct (scan_line hunks line) as [hs|e'] eqn:E; simpl.
    + apply IH.
    + intros Heq. injection Heq as <-. by eapply scan_line_raises.
Qed.

Lemma scan_line_is_ok (hunks : list hunk) (line : string) :
  is_ok (scan_line hunks line) = negb (is_header line) || header_numbers_ok line.
Proof.
  unfold scan_line, is_header, header_numbers_ok. cbv zeta.
  destruct (startswith "@@" line); cbn [andb negb orb].
  - destruct (2 <=? length (split_ws line))%nat; cbn [andb negb orb]; [|done].
    destruct (range_start (nth 1 (split_ws line) "")); cbn [is_ok res_bind andb];
      [|done].
    destruct (range_start (if (2 <? _)%nat then _ else _)); done.
  - by destruct (_ && _).
Qed.

Lemma scan_lines_is_ok (diff_lines : list string) :
  forall hunks,
    is_ok (scan_lines hunks diff_lines)
    = forallb (fun line => negb (is_header line) || header_numbers_ok line)
        diff_lines.
Proof.
  induction diff_lines as [|line rest IH]; intros hunks; simpl; [done|].
  rewrite <- (scan_line_is_ok hunks line).
  destruct (scan_line hunks line); simpl; [apply IH | done].
Qed.

(** A scan raises exactly when some header line carries a start number
    that [int] refuses. *)
Lemma scan_lines_raises_iff (diff_lines : list string) (hunks : list hunk) :
  is_ok (scan_lines hunks diff_lines) = false
  <-> exists line, In line diff_lines /\ is_header line = true
                   /\ header_numbers_ok line = false.
Proof.
  rewrite scan_lines_is_ok. split.
  - intros Hnot. induction diff_lines as [|line rest IH]; [done|].
    simpl in Hnot. apply andb_false_iff in Hnot as [Hline|Hrest].
    + exists line. apply orb_false_iff in Hline as [Hh Hn].
      split; [by left|]. by destruct (is_header line).
    + destruct (IH Hrest) as (l & Hin & Hl). exists l. split; [by right | done].
  - intros (line & Hin & Hh & Hn).
    destruct (forallb _ diff_lines) eqn:Hall; [|done].
    rewrite forallb_forall in Hall. specialize (Hall line Hin).
    by rewrite Hh, Hn in Hall.
Qed.

Lemma splitlines_nonempty_text (s : string) :
  splitlines s <> [] -> is_empty s = false.
Proof. destruct s; [done|]. done. Qed.

(** The last test of the engine returns the joined lines in both of its
    branches. *)
Lemma changed_or_same (result original : string) :
  (if negb (String.eqb result original) then Ok result else Ok original)
  = Ok result.
Proof.
  destruct (String.eqb_spec result original) as [->|]; done.
Qed.

Lemma apply_with_hunks (original diff : string) (h : hunk) (hs : list hunk) :
  is_empty original = false ->
  scan_lines [] (splitlines diff) = Ok (h :: hs) ->
  _apply_diff_to_content original diff
  = res_bind (apply_hunks (splitlines original) (h :: hs)) (fun result_lines =>
      Ok (join_lines result_lines)).
Proof.
  intros Ho Hscan. unfold _apply_diff_to_content.
  destruct diff as [|c diff]; [done|].
  rewrite Ho. simpl orb. cbv iota. rewrite Hscan. cbn [res_bind]. cbv zeta.
  destruct (apply_hunks (splitlines original) (h :: hs)); cbn [res_bind]; [|done].
  apply changed_or_same.
Qed.

(** The engine raises in two ways only. *)
Lemma apply_raises (original diff : string) (e : exn) :
  _apply_diff_to_content original diff = Raise e ->
  is_empty diff = false /\ is_empty original = false
  /\ ((exn_class e = ValueError
       /\ is_ok (scan_lines [] (splitlines diff)) = false)
      \/ (e = index_overflow
          /\ exists hunks,
               scan_lines [] (splitlines diff) = Ok hunks
               /\ forallb hunk_fits hunks = false)).
Proof.
  unfold _apply_diff_to_content.
  destruct (is_empty diff); [done|]. destruct (is_empty original); [done|].
  cbn [orb]. cbv zeta.
  destruct (scan_lines [] (splitlines diff)) as [hunks|e'] eqn:Hscan;
    cbn [res_bind].
  - destruct hunks as [|h hs]; [done|].
    destruct (apply_hunks (splitlines original) (h :: hs)) as [ls|e'] eqn:Hrun;
      cbn [res_bind].
    + by rewrite changed_or_same.
    + intros [= <-]. do 2 (split; [done|]). right.
      split; [by eapply apply_hunks_raises|].
      exists (h :: hs). split; [done|].
      rewrite <- (apply_hunks_is_ok (splitlines original)), Hrun. done.
  - intros [= <-]. do 2 (split; [done|]). left.
    split; [by eapply scan_lines_raises | done].
Qed.

(** *** The claims about the patch engine *)

(** C10: with an empty original the engine returns the empty string for
    every patch, and with an empty patch it returns the original for
    every original; both returns happen before the patch is split into
    lines.  The patch in the third part parses to one hunk that only
    adds a line, and is still not applied to the empty original. *)
Theorem empty_original_returned_unchanged :
  (forall diff, _apply_diff_to_content "" diff = Ok "")
  /\ (forall original, _apply_diff_to_content original "" = Ok original)
  /\ (let diff := join_lines ["@@ -1,0 +1,1 @@"; "+new"] in
      scan_lines [] (splitlines diff) = Ok [Hunk 0 0 ["+new"]]
      /\ _apply_diff_to_content "" diff = Ok "").
Proof.
  split; [|split].
  - intros diff. unfold _apply_diff_to_content.
    rewrite orb_true_r. done.
  - intros original. done.
  - split; vm_compute; done.
Qed.

(** C4: on every original whose lines are a, old, b the one-hunk patch
    [@@ -2,1 +2,1 @@ / -old / +new] is parsed to a hunk at 0-based
    offset 1, and the engine returns the three lines a, new, b joined by
    newlines. *)
Theorem single_hunk_replaces_second_line (original : string) :
  splitlines original = ["a"; "old"; "b"] ->
  let diff := join_lines ["@@ -2,1 +2,1 @@"; "-old"; "+new"] in
  scan_lines [] (splitlines diff) = Ok [Hunk 1 1 ["-old"; "+new"]]
  /\ _apply_diff_to_content original diff = Ok (join_lines ["a"; "new"; "b"])
  /\ splitlines (join_lines ["a"; "new"; "b"]) = ["a"; "new"; "b"].
Proof.
  intros Hlines diff.
  assert (Hscan : scan_lines [] (splitlines diff) = Ok [Hunk 1 1 ["-old"; "+new"]])
    by (vm_compute; done).
  split; [done|]. split; [|vm_compute; done].
  rewrite (apply_with_hunks original diff _ _) by
    (try apply splitlines_nonempty_text; try rewrite Hlines; done).
  rewrite Hlines. vm_compute. done.
Qed.

Lemma single_hunk_replaces_second_line_witness :
  _apply_diff_to_content (join_lines ["a"; "old"; "b"])
    (join_lines ["@@ -2,1 +2,1 @@"; "-old"; "+new"])
  = Ok (join_lines ["a"; "new"; "b"]).
Proof.
  apply (single_hunk_replaces_second_line (join_lines ["a"; "old"; "b"])).
  vm_compute. reflexivity.
Defined.

(** C1, as stated, fails: a header line whose range has no number makes
    [int] raise, and the engine lets the [ValueError] through. *)
Lemma apply_raises_on_header_without_number :
  _apply_diff_to_content "a" "@@ x"
  = Raise (Exn ValueError "invalid literal for int() with base 10: ''").
Proof. vm_compute. reflexivity. Qed.

(** C1, amended.  The engine returns the original unchanged when the
    original or the patch is empty, and when no line of the patch opens a
    hunk, that is starts with [@@] and has at least two fields.  With an
    original and a patch that are not empty, it raises in exactly two
    cases.  It raises a [ValueError] exactly when a line that opens a hunk
    carries a start number that [int] refuses.  When every such number is
    accepted, it raises an [OverflowError] exactly when some hunk has a
    line to insert at an index that [list.insert] cannot convert.  It
    raises nothing else. *)
Theorem apply_noop_without_headers_and_raises_only_on_headers
    (original diff : string) :
  (is_empty diff = true \/ is_empty original = true
   \/ (forall line, In line (splitlines diff) -> is_header line = false) ->
   _apply_diff_to_content original diff = Ok original)
  /\ (forall e, _apply_diff_to_content original diff = Raise e ->
        is_empty diff = false /\ is_empty original = false
        /\ (exn_class e = ValueError \/ exn_class e = OverflowError))
  /\ (is_empty diff = false -> is_empty original = false ->
      ((exists e, _apply_diff_to_content original diff = Raise e
                  /\ exn_class e = ValueError)
       <-> exists line, In line (splitlines diff) /\ is_header line = true
                        /\ header_numbers_ok line = false)
      /\ ((exists e, _apply_diff_to_content original diff = Raise e
                     /\ exn_class e = OverflowError)
          <-> exists hunks h,
                scan_lines [] (splitlines diff) = Ok hunks
                /\ In h hunks /\ hunk_fits h = false)).
Proof.
  split; [|split].
  - unfold _apply_diff_to_content. intros [->|[->|Hno]]; [done| |].
    + by rewrite orb_true_r.
    + destruct (_ || _); [done|].
      by rewrite scan_lines_without_header.
  - intros e Hraise.
    destruct (apply_raises original diff e Hraise)
      as (Hd & Ho & [[Hc _]|[-> _]]); auto.
  - intros Hd Ho. split; split.
    + intros (e & Hraise & Hclass).
      destruct (apply_raises original diff e Hraise)
        as (_ & _ & [[_ Hscan]|[-> _]]); [|done].
      by apply scan_lines_raises_iff in Hscan.
    + intros Hline. apply (scan_lines_raises_iff _ []) in Hline.
      unfold _apply_diff_to_content. rewrite Hd, Ho. cbn [orb]. cbv zeta.
      destruct (scan_lines [] (splitlines diff)) as [|e] eqn:Hscan; [done|].
      exists e. split; [done|]. by eapply scan_lines_raises.
    + intros (e & Hraise & Hclass).
      destruct (apply_raises original diff e Hraise)
        as (_ & _ & [[Hc _]|[_ (hunks & Hscan & Hfit)]]); [congruence|].
      exists hunks.
      assert (exists h, In h hunks /\ hunk_fits h = false) as (h & Hin & Hh).
      { clear -Hfit. induction hunks as [|h hunks IH]; [done|].
        simpl in Hfit. apply andb_false_iff in Hfit as [Hh|Hrest].
        - exists h. split; [by left | done].
        - destruct (IH Hrest) as (h' & Hin & Hh'). exists h'.
          split; [by right | done]. }
      by exists h.
    + intros (hunks & h & Hscan & Hin & Hh).
      assert (forallb hunk_fits hunks = false) as Hfit.
      { destruct (forallb hunk_fits hunks) eqn:Hall; [|done].
        rewrite forallb_forall in Hall. by rewrite (Hall h Hin) in Hh. }
      destruct hunks as [|h0 hs]; [done|].
      rewrite (apply_with_hunks original diff h0 hs) by done.
      rewrite <- (apply_hunks_is_ok (splitlines original)) in Hfit.
      destruct (apply_hunks (splitlines original) (h0 :: hs)) as [|e] eqn:Hrun;
        [done|].
      apply apply_hunks_raises in Hrun as ->.
      exists index_overflow. done.
Qed.

Lemma apply_noop_without_headers_witness :
  _apply_diff_to_content "a" "@@" = Ok "a".
Proof.
  apply (proj1 (apply_noop_without_headers_and_raises_only_on_headers
                  "a" "@@")).
  right. right. intros line Hin. vm_compute in Hin.
  destruct Hin as [<-|[]]. vm_compute. reflexivity.
Defined.

(** C3, as stated, fails: on the ten lines l1..l10, a hunk replacing l2
    by two lines and a hunk replacing l8 by one line do not overlap, yet
    the result depends on the order in which the patch lists them. *)
Lemma two_hunks_listing_order_matters :
  let original :=
    join_lines ["l1"; "l2"; "l3"; "l4"; "l5"; "l6"; "l7"; "l8"; "l9"; "l10"] in
  let upper := ["@@ -2,1 +2,2 @@"; "-l2"; "+x"; "+y"] in
  let lower := ["@@ -8,1 +9,1 @@"; "-l8"; "+z"] in
  let h1 := Hunk 1 1 ["-l2"; "+x"; "+y"] in
  let h2 := Hunk 7 8 ["-l8"; "+z"] in
  length (splitlines original) = 10%nat
  /\ scan_lines [] (splitlines (join_lines (upper ++ lower))) = Ok [h1; h2]
  /\ scan_lines [] (splitlines (join_lines (lower ++ upper))) = Ok [h2; h1]
  /\ old_start h1 + lines_to_remove h1 <= old_start h2
  /\ _apply_diff_to_content original (join_lines (upper ++ lower))
     = Ok (join_lines ["l1"; "x"; "y"; "l3"; "l4"; "l5"; "l6"; "l7"; "z"; "l9"; "l10"])
  /\ _apply_diff_to_content original (join_lines (lower ++ upper))
     = Ok (join_lines ["l1"; "x"; "y"; "l3"; "l4"; "l5"; "l6"; "z"; "l8"; "l9"; "l10"])
  /\ _apply_diff_to_content original (join_lines (upper ++ lower))
     <> _apply_diff_to_content original (join_lines (lower ++ upper)).
Proof.
  repeat split; try (vm_compute; reflexivity).
  - vm_compute. discriminate.
  - vm_compute. discriminate.
Qed.

(** C3, amended: on a ten-line document, take two hunks of which the upper
    one starts at an offset that is not negative and removes lines of the
    document only, and the lower one starts at or after the end of those
    lines (it may run past the end of the document, where its removal is
    clamped).  Listing them in ascending or in descending order of
    [old_start] gives the same outcome provided the upper hunk inserts as
    many lines as it removes. *)
Theorem two_hunks_order_irrelevant_when_upper_keeps_length
    (original d_asc d_desc : string) (h1 h2 : hunk) :
  length (splitlines original) = 10%nat ->
  scan_lines [] (splitlines d_asc) = Ok [h1; h2] ->
  scan_lines [] (splitlines d_desc) = Ok [h2; h1] ->
  0 <= old_start h1 ->
  old_start h1 + lines_to_remove h1 <= 10 ->
  old_start h1 + lines_to_remove h1 <= old_start h2 ->
  Z.of_nat (length (new_lines_of (changes h1))) = lines_to_remove h1 ->
  _apply_diff_to_content original d_asc
  = _apply_diff_to_content original d_desc.
Proof.
  intros Hten Hasc Hdesc H0 H1n H12 Hkeep.
  assert (Ho : is_empty original = false).
  { apply splitlines_nonempty_text. intros E. rewrite E in Hten. done. }
  rewrite (apply_with_hunks original d_asc h1 [h2]) by done.
  rewrite (apply_with_hunks original d_desc h2 [h1]) by done.
  rewrite (apply_hunks_two_orders (splitlines original) h1 h2); [done|..];
    try done; rewrite Hten; [done | lia].
Qed.

Lemma two_hunks_order_irrelevant_witness :
  let original :=
    join_lines ["l1"; "l2"; "l3"; "l4"; "l5"; "l6"; "l7"; "l8"; "l9"; "l10"] in
  let upper := ["@@ -2,1 +2,1 @@"; "-l2"; "+x"] in
  let lower := ["@@ -10,3 +10,2 @@"; "-l10"; "-l11"; "-l12"; "+y"; "+z"] in
  _apply_diff_to_content original (join_lines (upper ++ lower))
  = _apply_diff_to_content original (join_lines (lower ++ upper)).
Proof.
  intros original upper lower.
  apply (two_hunks_order_irrelevant_when_upper_keeps_length original
           (join_lines (upper ++ lower)) (join_lines (lower ++ upper))
           (Hunk 1 1 ["-l2"; "+x"])
           (Hunk 9 9 ["-l10"; "-l11"; "-l12"; "+y"; "+z"]));
    vm_compute; first [reflexivity | discriminate].
Defined.

End PatchEngineFacts.

(** * Properties of the branch creation *)

Module BranchFacts.
Import GitHubTool.

Lemma on_other_exception (E : env) (name : string) (base : option string)
    (e : exn) (w : world) :
  exn_class e <> GithubException 422 ->
  on_github_exception E name base e w = (Raise e, w).
Proof.
  intros Hclass. unfold on_github_exception.
  destruct (exn_class e) as [| | | | |status|]; try done.
  destruct (Z.eqb_spec status 422) as [->|]; done.
Qed.

(** C9: when [get_branch] has answered and the creation of the branch is
    refused with status 422, [create_fix_branch] reads the time and asks
    for the creation exactly once more, under the name extended by a dash
    and the time; it returns that name if the second creation succeeds and
    raises the second exception otherwise.  An exception of the first
    creation with another class or status, and such an exception of
    [get_branch], is raised again without any further request. *)
Theorem create_fix_branch_retries_conflict_once
    (E : env) (key bug_title : string) (w : world) :
  let name := branch_name_for key bug_title in
  let retry_name := name +:+ "-" +:+ str_of_int (unix_time E) in
  let first_ref := "refs/heads/" +:+ name in
  let retry_ref := "refs/heads/" +:+ retry_name in
  let main := github_default_branch E in
  let outcome := create_fix_branch E key bug_title w in
  (forall sha e,
      github_get_branch E main = Ok sha ->
      github_create_git_ref E first_ref sha = Raise e ->
      exn_class e = GithubException 422 ->
      calls outcome.2
      = calls w ++ [CallGetBranch main; CallCreateGitRef first_ref sha;
                    CallTime; CallCreateGitRef retry_ref sha]
      /\ outcome.1 = match github_create_git_ref E retry_ref sha with
                     | Ok _ => Ok retry_name
                     | Raise e' => Raise e'
                     end)
  /\ (forall sha e,
        github_get_branch E main = Ok sha ->
        github_create_git_ref E first_ref sha = Raise e ->
        exn_class e <> GithubException 422 ->
        calls outcome.2
        = calls w ++ [CallGetBranch main; CallCreateGitRef first_ref sha]
        /\ outcome.1 = Raise e)
  /\ (forall e,
        github_get_branch E main = Raise e ->
        exn_class e <> GithubException 422 ->
        calls outcome.2 = calls w ++ [CallGetBranch main]
        /\ outcome.1 = Raise e).
Proof.
  intros name retry_name first_ref retry_ref main outcome.
  subst outcome. unfold create_fix_branch, create_git_ref, request.
  fold name. fold first_ref. fold main.
  split; [|split].
  - intros sha e Hbase Hfirst Hclass. rewrite Hbase, Hfirst.
    unfold on_github_exception. rewrite Hclass. simpl.
    unfold bind, request, create_git_ref, request, ret. simpl.
    fold retry_name. fold retry_ref.
    destruct (github_create_git_ref E retry_ref sha); simpl;
      rewrite <- !app_assoc; done.
  - intros sha e Hbase Hfirst Hclass. rewrite Hbase, Hfirst.
    rewrite on_other_exception by done. simpl.
    rewrite <- !app_assoc. done.
  - intros e Hbase Hclass. rewrite Hbase.
    rewrite on_other_exception by done. done.
Qed.

Lemma create_fix_branch_retries_conflict_once_witness :
  let outcome :=
    create_fix_branch Examples.taken_once "CCS-1" "Login button" Examples.fresh in
  calls outcome.2
  = [CallGetBranch "main";
     CallCreateGitRef "refs/heads/fix/ccs-1-login-button" "0a1b2c";
     CallTime;
     CallCreateGitRef "refs/heads/fix/ccs-1-login-button-1700000000" "0a1b2c"]
  /\ outcome.1 = Ok "fix/ccs-1-login-button-1700000000".
Proof.
  apply (proj1 (create_fix_branch_retries_conflict_once
                  Examples.taken_once "CCS-1" "Login button" Examples.fresh)
           "0a1b2c" Examples.conflict).
  - reflexivity.
  - vm_compute. reflexivity.
  - reflexivity.
Defined.

End BranchFacts.

(** * Properties of the report parsing and of the orchestrator *)

Module FlowFacts.
Import PyStr AnthropicService JiraTool GitHubTool MCPServer RunLogic.

(** *** Invariants of a run *)

Section Keeps.
Context {A B : Type} (P : world -> Prop).

Lemma keeps_ret (a : A) : keeps P (ret a).
Proof. intros w Hw. done. Qed.

Lemma keeps_raise (e : exn) : keeps P (@raise A e).
Proof. intros w Hw. done. Qed.

Lemma keeps_lift (r : res A) : keeps P (lift r).
Proof. intros w Hw. done. Qed.

Lemma keeps_bind (m : M A) (k : A -> M B) :
  keeps P m -> (forall a, keeps P (k a)) -> keeps P (bind m k).
Proof.
  intros Hm Hk w Hw. unfold bind. specialize (Hm w Hw).
  destruct (m w) as [[a|e] w']; simpl in *; [by apply Hk | done].
Qed.

Lemma keeps_try_except (m : M A) (handler : exn -> M A) :
  keeps P m -> (forall e, keeps P (handler e)) -> keeps P (try_except m handler).
Proof.
  intros Hm Hh w Hw. unfold try_except. specialize (Hm w Hw).
  destruct (m w) as [[a|e] w']; simpl in *; [done | by apply Hh].
Qed.
End Keeps.

Section Tracked.
Context (E : env) (workflow_id : string).

Lemma keeps_request {A : Type} (c : call) (answer : res A) :
  keeps (tracked workflow_id) (request c answer).
Proof. intros w Hw. done. Qed.

Lemma keeps_now : keeps (tracked workflow_id) (now E).
Proof. intros w Hw. done. Qed.

Lemma keeps_update (other status : string) (data : gmap string data_value) :
  keeps (tracked workflow_id) (_update_workflow E other status data).
Proof.
  intros w Hw. unfold _update_workflow, bind, get_workflows, now, set_workflows.
  destruct (active_workflows w !! other) as [wf|] eqn:Hother; simpl; [|done].
  unfold tracked in *. simpl.
  destruct (decide (other = workflow_id)) as [->|Hne].
  - rewrite lookup_insert_eq. done.
  - rewrite lookup_insert_ne by done. done.
Qed.

Lemma keeps_on_github_exception (name : string) (base : option string) (e : exn) :
  keeps (tracked workflow_id) (on_github_exception E name base e).
Proof.
  unfold on_github_exception.
  destruct (exn_class e); try apply keeps_raise.
  destruct (_ =? _); [|apply keeps_raise].
  apply keeps_bind; [apply keeps_request|]. intros t.
  destruct base; [|apply keeps_raise].
  apply keeps_bind; [apply keeps_request|]. intros _. apply keeps_ret.
Qed.

Lemma keeps_create_fix_branch (key bug_title : string) :
  keeps (tracked workflow_id) (create_fix_branch E key bug_title).
Proof.
  intros w Hw. unfold create_fix_branch.
  destruct (request _ _ w) as [[sha|e] w1] eqn:E1.
  - assert (tracked workflow_id w1) as Hw1
        by (change w1 with (Ok sha, w1).2; rewrite <- E1; by apply keeps_request).
    destruct (create_git_ref E _ sha w1) as [[u|e] w2] eqn:E2.
    + change w2 with (Ok u, w2).2. rewrite <- E2. by apply keeps_request.
    + apply keeps_on_github_exception.
      change w2 with (@Raise unit e, w2).2. rewrite <- E2. by apply keeps_request.
  - apply keeps_on_github_exception.
    change w1 with (@Raise string e, w1).2. rewrite <- E1. by apply keeps_request.
Qed.
End Tracked.

(** Discharges [keeps (tracked _) m] by following the structure of [m]. *)
Ltac keeps_step :=
  first
    [ apply keeps_ret | apply keeps_raise | apply keeps_lift
    | apply keeps_request | apply keeps_now | apply keeps_update
    | apply keeps_create_fix_branch
    | apply keeps_bind; [|intros ?]
    | apply keeps_try_except; [|intros ?]
    | match goal with
      | |- keeps _ (if ?b then _ else _) => destruct b
      | |- keeps _ (match ?x with _ => _ end) => destruct x
      end ].

Ltac keeps_auto := repeat keeps_step.

Lemma keeps_parse_bug_report E wid conversation :
  keeps (tracked wid) (parse_bug_report E conversation).
Proof. unfold parse_bug_report, extract_report. keeps_auto. Qed.

Lemma keeps_gather_context E wid report :
  keeps (tracked wid) (gather_context E report).
Proof.
  unfold gather_context, get_relevant_files, analyze_codebase_context.
  keeps_auto.
Qed.

Lemma keeps_propose_fix E wid report code_context :
  keeps (tracked wid) (propose_fix E report code_context).
Proof.
  unfold propose_fix, generate_code_fix, extract_fix. keeps_auto.
Qed.

Lemma keeps_publish_fix E wid other key bug_title report proposal :
  keeps (tracked wid) (publish_fix E other key bug_title report proposal).
Proof.
  unfold publish_fix, apply_code_changes, create_pull_request, add_comment.
  keeps_auto.
Qed.

Lemma keeps_conclude E wid report similar proposal :
  keeps (tracked wid) (conclude E wid report similar proposal).
Proof.
  unfold conclude, create_ticket.
  repeat first [apply keeps_publish_fix | keeps_step].
Qed.

Lemma start_workflow_tracks E wid w :
  exists w1, start_workflow E wid w = (Ok tt, w1) /\ tracked wid w1.
Proof.
  eexists. split; [reflexivity|].
  unfold tracked. simpl. rewrite lookup_insert_eq. done.
Qed.

Lemma prepare_tracks E conversation wid w :
  tracked wid (prepare E conversation wid w).2.
Proof.
  unfold prepare. unfold bind at 1.
  destruct (start_workflow_tracks E wid w) as (w1 & -> & Hw1).
  revert w1 Hw1. fold (keeps (A := bug_report * list similar_issue * fix_proposal)
                        (tracked wid)).
  repeat first [ apply keeps_parse_bug_report | apply keeps_gather_context
               | apply keeps_propose_fix | keeps_step ].
Qed.

Lemma run_workflow_tracks E conversation wid w :
  tracked wid (run_workflow E conversation wid w).2.
Proof.
  unfold run_workflow, bind.
  pose proof (prepare_tracks E conversation wid w) as Hw1.
  destruct (prepare E conversation wid w) as [[ready|e] w1]; simpl in *; [|done].
  by apply keeps_conclude.
Qed.

(** *** What a run returns *)

Lemma returns_ret {A : Type} (Q : A -> Prop) (a : A) : Q a -> returns Q (ret a).
Proof. intros Ha w a' w' Heq. injection Heq as <- _. done. Qed.

Lemma returns_bind {A B : Type} (Q : B -> Prop) (m : M A) (k : A -> M B) :
  (forall a, returns Q (k a)) -> returns Q (bind m k).
Proof.
  intros Hk w b w'. unfold bind.
  destruct (m w) as [[a|e] w1]; [apply Hk | done].
Qed.

Lemma run_workflow_returns_success E conversation wid :
  returns (fun r => success r = true) (run_workflow E conversation wid).
Proof.
  unfold run_workflow, conclude.
  repeat (apply returns_bind; intros ?).
  by apply returns_ret.
Qed.

(** [_update_workflow] never raises, and logs the transition of a
    tracked workflow. *)
Lemma update_workflow_returns E wid st data w :
  (_update_workflow E wid st data w).1 = Ok tt.
Proof.
  unfold _update_workflow, bind, get_workflows. simpl.
  destruct (active_workflows w !! wid); done.
Qed.

Lemma update_workflow_tracked E wid st data w :
  tracked wid w ->
  exists w' wf,
    _update_workflow E wid st data w = (Ok tt, w')
    /\ calls w' = calls w
    /\ active_workflows w' !! wid = Some wf
    /\ status wf = st
    /\ last (steps wf) = Some (Step st (timestamp E (clock_reads w)) data).
Proof.
  intros [wf Hwf]. unfold _update_workflow, bind, get_workflows. simpl.
  rewrite Hwf. simpl. eexists _, _. split; [reflexivity|]. simpl.
  split; [done|]. rewrite lookup_insert_eq. split; [done|]. simpl.
  split; [done|]. apply last_snoc.
Qed.

(** *** The orchestrator boundary *)



(** *** Parsing the report *)

(** The report returned does not depend on the state of the run. *)
Lemma parse_bug_report_value E conversation w w' :
  (parse_bug_report E conversation w).1 = (parse_bug_report E conversation w').1.
Proof.
  unfold parse_bug_report, bind, lift, try_except, extract_report, bind, request.
  destruct (format_conversation conversation) as [formatted|e]; simpl; [|done].
  destruct (chat_report E formatted) as [text|e]; simpl; [|done].
  destruct (json_span text) as [json_str|]; simpl; [|done].
  destruct (json_loads_report E json_str); done.
Qed.

Lemma parse_bug_report_cases E conversation formatted w :
  format_conversation conversation = Ok formatted ->
  (parse_bug_report E conversation w).1
  = Ok match chat_report E formatted with
       | Raise _ => fallback_report formatted
       | Ok text =>
           match json_span text with
           | None => fallback_report formatted
           | Some json_str =>
               match json_loads_report E json_str with
               | None => fallback_report formatted
               | Some result => result
               end
           end
       end.
Proof.
  intros Hfmt.
  unfold parse_bug_report, bind, lift, try_except, extract_report, bind, request.
  rewrite Hfmt. simpl.
  destruct (chat_report E formatted) as [text|e]; simpl; [|done].
  destruct (json_span text) as [json_str|]; simpl; [|done].
  destruct (json_loads_report E json_str); done.
Qed.

Lemma untitled_report_fails E conversation channel_id thread_ts w report :
  (parse_bug_report E conversation w).1 = Ok report ->
  truthy (title report) = false ->
  (process_slack_conversation E conversation channel_id thread_ts w).1
  = Ok (Failed
          {| failed_workflow_id := channel_id +:+ "_" +:+ thread_ts;
             error := "Failed to parse bug report from conversation";
             failed_message :=
               "Failed to process bug report: Failed to parse bug report from conversation" |}).
Proof.
  intros Hparse Htitle.
  unfold process_slack_conversation, try_except, run_workflow.
  set (wid := channel_id +:+ "_" +:+ thread_ts).
  unfold bind at 1. unfold prepare. unfold bind at 1.
  destruct (start_workflow_tracks E wid w) as (w1 & -> & Hw1).
  unfold bind at 1.
  destruct (update_workflow_tracked E wid "parsing_bug_report" ∅ w1 Hw1)
    as (w2 & wf & -> & _).
  unfold bind at 1.
  destruct (parse_bug_report E conversation w2) as [[report'|e] w3] eqn:Hp.
  all: rewrite (parse_bug_report_value E conversation w w2), Hp in Hparse.
  all: simpl in Hparse; try discriminate.
  injection Hparse as ->. rewrite Htitle. simpl.
  unfold on_failure, bind.
  pose proof (update_workflow_returns E wid "failed"
                {[ "error" := DStr "Failed to parse bug report from conversation" ]}
                w3) as Hup.
  simpl in Hup.
  destruct (_update_workflow E wid "failed" _ w3) as [[u|e] w4]; simpl in *;
    [|discriminate].
  done.
Qed.


(** C2, as stated, fails: when the model answers with a JSON object that
    has no title, [parse_bug_report] returns that object, not the
    fallback report, and the orchestrator raises its [ValueError]: the
    workflow ends as failed at this step. *)
Lemma untitled_answer_is_returned_and_aborts :
  (parse_bug_report Examples.untitled Examples.alice Examples.fresh).1
  = Ok Examples.empty_report
  /\ title Examples.empty_report = None
  /\ (process_slack_conversation Examples.untitled Examples.alice
        "C1" "1.0" Examples.fresh).1
     = Ok (Failed
             {| failed_workflow_id := "C1_1.0";
                error := "Failed to parse bug report from conversation";
                failed_message :=
                  "Failed to process bug report: Failed to parse bug report from conversation" |}).
Proof. repeat split; vm_compute; reflexivity. Qed.

(** C2, amended: for every conversation whose messages have the keys
    [user] and [text] (so that the transcript [formatted] is built),
    [parse_bug_report] returns a report.  If the call of the model
    raises, or its text has no [{]...[}] span, or [json.loads] rejects
    the span, the report is the fallback: title the fixed literal (so
    non-empty), description the first 500 characters of the transcript,
    severity Medium.  If [json.loads] accepts the span, its result is
    returned as it is; when that result has no non-empty title, the
    orchestrator raises at this step and the workflow ends as failed. *)
Theorem parse_bug_report_falls_back_unless_decoded
    (E : env) (conversation : list message) (formatted : string) (w : world) :
  format_conversation conversation = Ok formatted ->
  let outcome := (parse_bug_report E conversation w).1 in
  let fallback := fallback_report formatted in
  (exists report, outcome = Ok report)
  /\ title fallback = Some "Bug Report from Slack"
  /\ truthy (title fallback) = true
  /\ description fallback = Some (prefix_of_length 500 formatted)
  /\ severity fallback = Some "Medium"
  /\ (forall e, chat_report E formatted = Raise e -> outcome = Ok fallback)
  /\ (forall text,
        chat_report E formatted = Ok text -> json_span text = None ->
        outcome = Ok fallback)
  /\ (forall text json_str,
        chat_report E formatted = Ok text -> json_span text = Some json_str ->
        json_loads_report E json_str = None ->
        outcome = Ok fallback)
  /\ (forall text json_str result,
        chat_report E formatted = Ok text -> json_span text = Some json_str ->
        json_loads_report E json_str = Some result ->
        outcome = Ok result
        /\ (truthy (title result) = false ->
            forall channel_id thread_ts,
              (process_slack_conversation E conversation channel_id thread_ts w).1
              = Ok (Failed
                      {| failed_workflow_id := channel_id +:+ "_" +:+ thread_ts;
                         error := "Failed to parse bug report from conversation";
                         failed_message :=
                           "Failed to process bug report: Failed to parse bug report from conversation" |}))).
Proof.
  intros Hfmt outcome fallback. subst outcome.
  rewrite (parse_bug_report_cases E conversation formatted w Hfmt).
  split; [eauto|]. do 4 (split; [reflexivity|]).
  split; [|split; [|split]].
  - intros e ->. done.
  - intros text -> ->. done.
  - intros text json_str -> -> ->. done.
  - intros text json_str result Hchat Hspan Hloads.
    rewrite Hchat, Hspan, Hloads. split; [done|].
    intros Htitle channel_id thread_ts.
    apply (untitled_report_fails E conversation channel_id thread_ts w result);
      [|done].
    rewrite (parse_bug_report_cases E conversation formatted w Hfmt).
    rewrite Hchat, Hspan, Hloads. done.
Qed.

Lemma parse_bug_report_falls_back_witness :
  (parse_bug_report Examples.quiet Examples.alice Examples.fresh).1
  = Ok (fallback_report "alice: Login button does nothing on click").
Proof.
  destruct (parse_bug_report_falls_back_unless_decoded Examples.quiet
              Examples.alice "alice: Login button does nothing on click"
              Examples.fresh)
    as (_ & _ & _ & _ & _ & Hraise & _).
  - vm_compute. reflexivity.
  - apply (Hraise Examples.unavailable). reflexivity.
Defined.

(** *** The advisory path *)

Lemma publish_fix_advisory E wid key bug_title report proposal w :
  changes_to_apply proposal = [] ->
  publish_fix E wid key bug_title report proposal w
  = (Ok None,
     World (active_workflows w) (clock_reads w)
       (calls w ++ [CallJiraComment key
                      "No automated fix generated. Manual investigation required."])).
Proof.
  intros Hempty. unfold publish_fix. rewrite Hempty.
  unfold bind, add_comment, try_except, request.
  destruct (jira_post_comment E key _); done.
Qed.

Lemma conclude_advisory E wid report similar proposal key w1 :
  tracked wid w1 ->
  changes_to_apply proposal = [] ->
  jira_create_issue E report = Ok key ->
  exists r w2 wf,
    conclude E wid report similar proposal w1 = (Ok (Succeeded r), w2)
    /\ pr_url r = None
    /\ issue_key r = key
    /\ ok_workflow_id r = wid
    /\ calls w2
       = calls w1 ++ [CallJiraCreateIssue report;
                      CallJiraComment key
                        "No automated fix generated. Manual investigation required."]
    /\ active_workflows w2 !! wid = Some wf
    /\ status wf = "completed".
Proof.
  intros Htr Hempty Hkey. unfold conclude.
  unfold bind at 1.
  destruct (update_workflow_tracked E wid "creating_jira_ticket" ∅ w1 Htr)
    as (w2 & wf2 & -> & Hc2 & Hwf2 & _).
  unfold bind at 1. unfold create_ticket, request. rewrite Hkey.
  set (w3 := World (active_workflows w2) (clock_reads w2)
               (calls w2 ++ [CallJiraCreateIssue report])).
  assert (tracked wid w3) as Htr3 by (unfold tracked; simpl; eauto).
  unfold bind at 1.
  destruct (update_workflow_tracked E wid "jira_ticket_created"
              {[ "issue_key" := DStr key ]} w3 Htr3)
    as (w4 & wf4 & -> & Hc4 & Hwf4 & _).
  unfold bind at 1. rewrite publish_fix_advisory by done.
  set (w5 := World (active_workflows w4) (clock_reads w4) _).
  assert (tracked wid w5) as Htr5 by (unfold tracked; simpl; eauto).
  unfold bind at 1.
  destruct (update_workflow_tracked E wid "completed" ∅ w5 Htr5)
    as (w6 & wf6 & -> & Hc6 & Hwf6 & Hst6 & _).
  eexists _, w6, wf6. split; [reflexivity|]. simpl.
  repeat split; try done.
  rewrite Hc6. simpl. rewrite Hc4. simpl. rewrite Hc2.
  rewrite <- app_assoc. done.
Qed.

(** C6: whenever steps 1 to 4 end with a fix whose [code_changes] is
    empty (or absent) and Jira creates the ticket, the orchestrator asks
    Jira for the ticket and then for the advisory comment on it, and for
    nothing else; it returns the success dict with [pr_url] null; and the
    workflow is left with status [completed].  A fix that the model gives
    with [code_changes] null ends steps 1 to 4 in this way too, because
    [generate_code_fix] replaces it by its fallback fix: the run below is
    such a run. *)
Theorem empty_code_changes_end_with_advisory_comment
    (E : env) (conversation : list message) (channel_id thread_ts : string)
    (w : world) (report : bug_report) (similar : list similar_issue)
    (proposal : fix_proposal) (key : string) :
  let workflow_id := channel_id +:+ "_" +:+ thread_ts in
  let ready := prepare E conversation workflow_id w in
  let outcome := process_slack_conversation E conversation channel_id thread_ts w in
  ready.1 = Ok (report, similar, proposal) ->
  changes_to_apply proposal = [] ->
  jira_create_issue E report = Ok key ->
  exists r wf,
    outcome.1 = Ok (Succeeded r)
    /\ success (Succeeded r) = true
    /\ pr_url r = None
    /\ issue_key r = key
    /\ calls outcome.2
       = calls ready.2 ++ [CallJiraCreateIssue report;
                           CallJiraComment key
                             "No automated fix generated. Manual investigation required."]
    /\ active_workflows outcome.2 !! workflow_id = Some wf
    /\ status wf = "completed".
Proof.
  intros wid ready outcome Hready Hempty Hkey.
  pose proof (prepare_tracks E conversation wid w) as Htr.
  subst ready.
  destruct (prepare E conversation wid w) as [[ready|e] w1] eqn:Hp;
    simpl in Hready, Htr; [|discriminate].
  injection Hready as ->.
  destruct (conclude_advisory E wid report similar proposal key w1 Htr Hempty Hkey)
    as (r & w2 & wf & Hc & Hpr & Hik & _ & Hcalls & Hwf & Hst).
  assert (outcome = (Ok (Succeeded r), w2)) as ->.
  { subst outcome.
    unfold process_slack_conversation, try_except, run_workflow, bind.
    fold wid. rewrite Hp. simpl. rewrite Hc. done. }
  exists r, wf. simpl. repeat split; done.
Qed.

Lemma empty_code_changes_witness :
  let outcome :=
    process_slack_conversation MoreExamples.null_changes Examples.alice
      "C1" "1.0" Examples.fresh in
  exists r wf,
    outcome.1 = Ok (Succeeded r)
    /\ success (Succeeded r) = true
    /\ pr_url r = None
    /\ issue_key r = "CCS-1"
    /\ calls outcome.2
       = calls (prepare MoreExamples.null_changes Examples.alice "C1_1.0"
                  Examples.fresh).2
         ++ [CallJiraCreateIssue
               (fallback_report "alice: Login button does nothing on click");
             CallJiraComment "CCS-1"
               "No automated fix generated. Manual investigation required."]
    /\ active_workflows outcome.2 !! "C1_1.0" = Some wf
    /\ status wf = "completed".
Proof.
  apply (empty_code_changes_end_with_advisory_comment MoreExamples.null_changes
           Examples.alice "C1" "1.0" Examples.fresh
           (fallback_report "alice: Login button does nothing on click")
           [] fallback_fix "CCS-1").
  - vm_compute. reflexivity.
  - reflexivity.
  - reflexivity.
Defined.

End FlowFacts.

(** * Properties of the keyword extraction *)

Module KeywordFacts.
Import PyStr MCPServer.










(** C8: the code at a report that passes the title guard of the
    orchestrator, whose title has no word longer than three characters and
    whose only component is the string [database].  [extend] iterates over
    the string, so the extractor returns its first five characters and
    [database] is not among them; the whole string is appended only
    afterwards, by the caller.  The same holds for every title and every
    string component of two or more characters: the entries the extractor
    takes from the component are single characters. *)
Theorem extract_keywords_iterates_over_string_component :
  truthy (title Examples.database_report) = true
  /\ _extract_keywords Examples.database_report = ["d"; "a"; "t"; "a"; "b"]
  /\ ~ In "database" (_extract_keywords Examples.database_report)
  /\ search_keywords Examples.database_report
     = ["d"; "a"; "t"; "a"; "b"; "database"]
  /\ (forall report s,
        affected_components report = Some (CompStr s) ->
        component_entries report = chars s
        /\ (forall k, In k (component_entries report) -> String.length k = 1%nat)
        /\ ((1 < String.length s)%nat -> ~ In s (component_entries report))).
Proof.
  split; [reflexivity|].
  split; [vm_compute; reflexivity|]. split; [|split; [vm_compute; reflexivity|]].
  - vm_compute. intros H.
    repeat (destruct H as [H|H]; [discriminate H|]). destruct H.
  - intros report s Hs. unfold component_entries. rewrite Hs.
    assert (forall k, In k (chars s) -> String.length k = 1%nat) as Hone.
    { clear. induction s as [|c s IH]; simpl; [done|].
      intros k [<-|Hk]; [done | by apply IH]. }
    split; [done|]. split; [done|].
    intros Hlong Hin. apply Hone in Hin. lia.
Qed.

End KeywordFacts.

(** * Further properties of the branch name and of the branch creation *)

Module BranchNameFacts.
Import PyStr GitHubTool.

(** The characters a cleaned title can hold: a-z, 0-9 and the dash. *)
Lemma lower_then_replace_char (c : ascii) :
  let d := if is_branch_char (lower_char c) then lower_char c else "-"%char in
  let n := code d in
  ((97 <=? n) && (n <=? 122) || (48 <=? n) && (n <=? 57) || (n =? 45))%N = true.
Proof.
  destruct c as [[] [] [] [] [] [] [] []]; vm_compute; reflexivity.
Qed.

Lemma In_prefix_of_length (c : ascii) (n : nat) (s : string) :
  In c (list_ascii_of_string (prefix_of_length n s)) ->
  In c (list_ascii_of_string s).
Proof.
  revert s. induction n as [|n IH]; intros [|x s]; simpl; try done.
  intros [->|H]; [by left | right; by apply IH].
Qed.

Lemma In_squeeze_dashes (c : ascii) (s : string) :
  forall b, In c (list_ascii_of_string (squeeze_dashes b s)) ->
            In c (list_ascii_of_string s).
Proof.
  induction s as [|x s IH]; intros b; simpl; [done|].
  destruct (Ascii.eqb x "-"); [destruct b|]; simpl; intros H.
  - right. by eapply IH.
  - destruct H as [->|H]; [by left | right; by eapply IH].
  - destruct H as [->|H]; [by left | right; by eapply IH].
Qed.

Lemma In_replace_lower (c : ascii) (s : string) :
  In c (list_ascii_of_string (replace_other_chars (lower s))) ->
  exists x, c = if is_branch_char (lower_char x) then lower_char x else "-"%char.
Proof.
  induction s as [|x s IH]; simpl; [done|].
  intros [<-|H]; [by exists x | by apply IH].
Qed.

Lemma length_prefix_of_length (n : nat) (s : string) :
  (String.length (prefix_of_length n s) <= n)%nat.
Proof.
  revert s. induction n as [|n IH]; intros [|x s]; simpl; try lia.
  specialize (IH s). lia.
Qed.

Lemma prefix_of_length_is_prefix (n : nat) (s : string) :
  exists rest, s = prefix_of_length n s +:+ rest.
Proof.
  revert s. induction n as [|n IH]; intros s.
  - exists s. by destruct s.
  - destruct s as [|x s]; [by exists ""|].
    destruct (IH s) as [rest Hrest]. exists rest.
    change (String x s = String x (prefix_of_length n s +:+ rest)).
    f_equal. exact Hrest.
Qed.

Lemma append_cons (x : ascii) (a b : string) :
  String x a +:+ b = String x (a +:+ b).
Proof. reflexivity. Qed.

Lemma append_nil (b : string) : "" +:+ b = b.
Proof. reflexivity. Qed.

Lemma append_assoc (a b c : string) : (a +:+ b) +:+ c = a +:+ (b +:+ c).
Proof.
  induction a as [|x a IH]; [reflexivity|].
  rewrite !append_cons. f_equal. exact IH.
Qed.

(** After a dash has been seen, the squeezed text does not start with one;
    and in no case does it hold two dashes in a row. *)
Lemma squeeze_dashes_head (s : string) (rest : string) :
  squeeze_dashes true s <> String "-" rest.
Proof.
  induction s as [|x s IH]; simpl; [done|].
  destruct (Ascii.eqb_spec x "-"); [done|]. congruence.
Qed.

Lemma squeeze_dashes_no_run (s : string) :
  forall b pre post, squeeze_dashes b s <> pre +:+ "--" +:+ post.
Proof.
  induction s as [|x s IH]; intros b pre post; simpl.
  - destruct pre; rewrite ?append_cons, ?append_nil; done.
  - destruct (Ascii.eqb_spec x "-") as [->|Hx].
    + destruct b; [apply IH|].
      destruct pre as [|p pre]; rewrite ?append_cons, ?append_nil.
      * intros [= H]. by apply squeeze_dashes_head in H.
      * intros [= _ H]. by apply IH in H.
    + destruct pre as [|p pre]; rewrite ?append_cons, ?append_nil.
      * intros [= H _]. done.
      * intros [= _ H]. by apply IH in H.
Qed.

(** X1: the title part of a branch name has at most 30 characters, holds
    only the letters a-z, the digits and the dash, and never two dashes in
    a row. *)
Theorem clean_title_is_short_and_plain (bug_title : string) :
  (String.length (clean_title bug_title) <= 30)%nat
  /\ (forall c, In c (list_ascii_of_string (clean_title bug_title)) ->
        let n := code c in
        (97 <= n <= 122 \/ 48 <= n <= 57 \/ n = 45)%N)
  /\ (forall pre post, clean_title bug_title <> pre +:+ "--" +:+ post).
Proof.
  unfold clean_title. split; [apply length_prefix_of_length|]. split.
  - intros c Hc. cbv zeta.
    apply In_prefix_of_length, In_squeeze_dashes, In_replace_lower in Hc
      as [x ->].
    pose proof (lower_then_replace_char x) as H. cbv zeta in H.
    set (n := code _) in *.
    apply orb_true_iff in H as [H|H]; [apply orb_true_iff in H as [H|H]|].
    + apply andb_true_iff in H as [H1 H2].
      apply N.leb_le in H1, H2. lia.
    + apply andb_true_iff in H as [H1 H2].
      apply N.leb_le in H1, H2. lia.
    + apply N.eqb_eq in H. lia.
  - intros pre post Heq.
    destruct (prefix_of_length_is_prefix 30
                (squeeze_dashes false (replace_other_chars (lower bug_title))))
      as [rest Hrest].
    rewrite Heq in Hrest.
    rewrite !append_assoc in Hrest.
    by apply squeeze_dashes_no_run in Hrest.
Qed.

(** X2: when [get_branch] answers and the first creation succeeds,
    [create_fix_branch] returns the name [fix/<key in lower case>-<cleaned
    title>] after exactly these two requests, without reading the time. *)
Theorem create_fix_branch_first_attempt
    (E : env) (key bug_title sha : string) (w : world) :
  let name := "fix/" +:+ lower key +:+ "-" +:+ clean_title bug_title in
  let ref := "refs/heads/" +:+ name in
  github_get_branch E (github_default_branch E) = Ok sha ->
  github_create_git_ref E ref sha = Ok tt ->
  create_fix_branch E key bug_title w
  = (Ok name,
     World (active_workflows w) (clock_reads w)
       (calls w ++ [CallGetBranch (github_default_branch E);
                    CallCreateGitRef ref sha])).
Proof.
  intros name ref Hbase Hcreate.
  unfold create_fix_branch, create_git_ref, request, branch_name_for.
  fold name. fold ref. rewrite Hbase. simpl. rewrite Hcreate.
  rewrite <- app_assoc. done.
Qed.

Lemma create_fix_branch_first_attempt_witness :
  create_fix_branch Examples.quiet "CCS-7" "Login fails: NullPointer!" Examples.fresh
  = (Ok "fix/ccs-7-login-fails-nullpointer-",
     World ∅ 0
       [CallGetBranch "main";
        CallCreateGitRef "refs/heads/fix/ccs-7-login-fails-nullpointer-" "0a1b2c"]).
Proof.
  apply (create_fix_branch_first_attempt Examples.quiet "CCS-7"
           "Login fails: NullPointer!" "0a1b2c" Examples.fresh); reflexivity.
Defined.

(** X3: when [get_branch] itself is refused with status 422, the handler
    reads the time and then fails on the unbound [base_branch]: the caller
    gets an [UnboundLocalError], and no creation is ever requested. *)
Theorem create_fix_branch_conflict_before_base
    (E : env) (key bug_title : string) (w : world) (e : exn) :
  github_get_branch E (github_default_branch E) = Raise e ->
  exn_class e = GithubException 422 ->
  let outcome := create_fix_branch E key bug_title w in
  (exists e', outcome.1 = Raise e' /\ exn_class e' = UnboundLocalError)
  /\ calls outcome.2 = calls w ++ [CallGetBranch (github_default_branch E); CallTime].
Proof.
  intros Hbase Hclass outcome. subst outcome.
  unfold create_fix_branch, request. rewrite Hbase.
  unfold on_github_exception. rewrite Hclass. simpl.
  unfold bind, request, raise. simpl.
  split; [eauto|]. rewrite <- app_assoc. done.
Qed.

Lemma create_fix_branch_conflict_before_base_witness :
  calls (create_fix_branch MoreExamples.no_base "CCS-1" "Login button"
           Examples.fresh).2
  = [CallGetBranch "main"; CallTime].
Proof.
  apply (create_fix_branch_conflict_before_base MoreExamples.no_base "CCS-1"
           "Login button" Examples.fresh Examples.conflict); reflexivity.
Defined.

End BranchNameFacts.

(** * Further properties of the patch engine *)

Module PatchEngineMore.
Import PyStr PyList PatchEngine PatchShape PatchEngineFacts.

(** *** One hunk at any offset that is not negative *)

Lemma hunk_fits_nonneg (h : hunk) :
  0 <= old_start h ->
  hunk_fits h = true
  <-> new_lines_of (changes h) = []
      \/ old_start h + Z.of_nat (length (new_lines_of (changes h))) <= 2 ^ 63.
Proof.
  intros H0. unfold hunk_fits. cbv zeta.
  rewrite orb_true_iff, andb_true_iff, Z.eqb_eq, !fits_ssize_spec.
  destruct (new_lines_of (changes h)) as [|x rest]; [by split; left|].
  cbn [length]. split.
  - intros [?|?]; [lia | right; lia].
  - intros [?|?]; [done | right; lia].
Qed.

(** X4: for every hunk whose offset is not negative, the loop body either
    raises or rewrites the lines in one way.  It raises [OverflowError]
    exactly when the hunk has a line to insert and the offset of the last
    inserted line does not fit the index of [list.insert], that is when
    the offset plus the number of added and context lines exceeds 2^63.
    Otherwise it keeps the lines before the offset, puts the added and
    context lines there, and keeps what follows the removed lines: a
    removal that runs past the end stops at the end, a hunk past the end
    appends, and the context lines are inserted again without being
    compared with the document. *)
Theorem apply_hunk_closed_form (result_lines : list string) (h : hunk) :
  0 <= old_start h ->
  apply_hunk result_lines h
  = (if hunk_fits h
     then Ok (take (Z.to_nat (old_start h)) result_lines
              ++ new_lines_of (changes h)
              ++ drop (Z.to_nat (old_start h + lines_to_remove h)) result_lines)
     else Raise index_overflow)
  /\ (hunk_fits h = true
      <-> new_lines_of (changes h) = []
          \/ old_start h + Z.of_nat (length (new_lines_of (changes h)))
             <= 2 ^ 63).
Proof.
  intros H0. split; [|by apply hunk_fits_nonneg].
  destruct (hunk_fits h) eqn:Hfit.
  - by apply apply_hunk_value.
  - by apply apply_hunk_overflow.
Qed.

Lemma apply_hunk_closed_form_witness :
  apply_hunk ["a"; "b"; "c"] (Hunk 2 2 ["-c"; "-d"; "-e"; " k"; "+x"])
  = Ok ["a"; "b"; "k"; "x"]
  /\ apply_hunk ["a"; "b"; "c"] (Hunk (2 ^ 63 - 1) 0 ["-c"; " k"; "+x"])
     = Raise index_overflow.
Proof.
  split.
  - rewrite (proj1 (apply_hunk_closed_form ["a"; "b"; "c"]
                      (Hunk 2 2 ["-c"; "-d"; "-e"; " k"; "+x"])
                      ltac:(vm_compute; discriminate))).
    reflexivity.
  - rewrite (proj1 (apply_hunk_closed_form ["a"; "b"; "c"]
                      (Hunk (2 ^ 63 - 1) 0 ["-c"; " k"; "+x"])
                      ltac:(vm_compute; discriminate))).
    reflexivity.
Defined.

(** *** Patches whose hunks carry no change line *)

Lemma apply_hunk_without_changes (result_lines : list string) (h : hunk) :
  changes h = [] -> apply_hunk result_lines h = Ok result_lines.
Proof.
  intros Hc. unfold apply_hunk, lines_to_remove. rewrite Hc. done.
Qed.

Lemma apply_in_turn_without_changes (hunks : list hunk) (lines : list string) :
  Forall (fun h => changes h = []) hunks ->
  apply_in_turn lines hunks = Ok lines.
Proof.
  intros Hall. induction Hall as [|h hs Hh _ IH]; simpl; [done|].
  by rewrite apply_hunk_without_changes.
Qed.

Lemma apply_hunks_without_changes (hunks : list hunk) (lines : list string) :
  Forall (fun h => changes h = []) hunks -> apply_hunks lines hunks = Ok lines.
Proof.
  unfold apply_hunks. intros Hall.
  apply apply_in_turn_without_changes. by apply Forall_rev.
Qed.

(** X5: when the patch has hunk headers but none of its hunks has a change
    line, the engine does not return the original as it is: it returns
    the lines of the original joined by a line feed, so other line
    endings and a final line break are lost. *)
Theorem header_only_patch_rejoins_lines
    (original diff : string) (h : hunk) (hs : list hunk) :
  is_empty original = false ->
  scan_lines [] (splitlines diff) = Ok (h :: hs) ->
  Forall (fun h => changes h = []) (h :: hs) ->
  _apply_diff_to_content original diff = Ok (join_lines (splitlines original)).
Proof.
  intros Ho Hscan Hall.
  rewrite (apply_with_hunks original diff h hs) by done.
  by rewrite apply_hunks_without_changes.
Qed.

Lemma header_only_patch_rejoins_lines_witness :
  _apply_diff_to_content
    ("a" +:+ String "013" (String "010" "b") +:+ nl) "@@ -1,0 +1,0 @@"
  = Ok ("a" +:+ nl +:+ "b").
Proof.
  apply (header_only_patch_rejoins_lines
           ("a" +:+ String "013" (String "010" "b") +:+ nl) "@@ -1,0 +1,0 @@"
           (Hunk 0 0 []) []).
  - reflexivity.
  - vm_compute. reflexivity.
  - repeat constructor.
Defined.

(** *** The scan of the patch lines *)

Lemma scan_line_no_header (hunks : list hunk) (line : string) :
  is_header line = false ->
  scan_line hunks line
  = Ok (if negb (Nat.eqb (length hunks) 0) && is_change_line line
           && negb (startswith "@@" line)
        then append_to_current hunks line else hunks).
Proof.
  unfold is_header, scan_line. intros H.
  destruct (startswith "@@" line); simpl in *.
  - rewrite H. by rewrite andb_false_r.
  - rewrite andb_true_r. by destruct (_ && _).
Qed.

Lemma length_append_to_current (hunks : list hunk) (line : string) :
  length (append_to_current hunks line) = length hunks.
Proof.
  induction hunks as [|h [|h' hs] IH]; simpl in *; [done..|].
  by rewrite IH.
Qed.

Lemma scan_line_header (hunks : list hunk) (line : string) (hs : list hunk) :
  is_header line = true ->
  scan_line hunks line = Ok hs ->
  exists old new, hs = hunks ++ [Hunk old new []].
Proof.
  unfold is_header, scan_line. intros [-> ->]%andb_true_iff.
  destruct (range_start (nth 1 (split_ws line) "")) as [old|]; simpl; [|done].
  destruct (range_start (if (2 <? _)%nat then _ else _)) as [new|]; simpl;
    [|done].
  intros [= <-]. eauto.
Qed.

Lemma scan_lines_app (l1 l2 : list string) (hunks : list hunk) :
  scan_lines hunks (l1 ++ l2)
  = res_bind (scan_lines hunks l1) (fun hs => scan_lines hs l2).
Proof.
  revert hunks. induction l1 as [|line l1 IH]; intros hunks; simpl; [done|].
  destruct (scan_line hunks line); simpl; [apply IH | done].
Qed.

(** X6: the scan returns as many hunks as the patch has header lines: a
    line opens a hunk exactly when it starts with [@@] and has a second
    field, whatever the lines between the headers are. *)
Theorem scan_lines_counts_headers (diff_lines : list string) :
  forall hunks hs,
    scan_lines hunks diff_lines = Ok hs ->
    length hs = (length hunks + length (List.filter is_header diff_lines))%nat.
Proof.
  induction diff_lines as [|line rest IH]; intros hunks hs; simpl.
  - intros [= <-]. lia.
  - destruct (scan_line hunks line) as [hs1|] eqn:E1; simpl; [|done].
    intros Hrest. apply IH in Hrest. rewrite Hrest.
    destruct (is_header line) eqn:Hh; simpl.
    + destruct (scan_line_header _ _ _ Hh E1) as (old & new & ->).
      rewrite length_app. simpl. lia.
    + rewrite scan_line_no_header in E1 by done. injection E1 as <-.
      destruct (_ && _); [rewrite length_append_to_current|]; lia.
Qed.

Lemma scan_lines_counts_headers_witness :
  length [Hunk 0 0 ["-a"; "+b"]; Hunk 8 8 []]
  = (length (@nil hunk)
     + length (List.filter is_header
                 ["--- a/f"; "+++ b/f"; "@@ -1,1 +1,1 @@"; "-a"; "+b"; "@@";
                  "@@ -9 +9 @@"]))%nat.
Proof.
  apply (scan_lines_counts_headers
           ["--- a/f"; "+++ b/f"; "@@ -1,1 +1,1 @@"; "-a"; "+b"; "@@";
            "@@ -9 +9 @@"] []).
  vm_compute. reflexivity.
Defined.

(** X7: the lines of a patch that come before its first header line are
    ignored, also when they start with a plus, a minus or a space, as the
    file names of a unified diff do. *)
Theorem scan_lines_ignores_preamble (preamble rest : list string) :
  (forall line, In line preamble -> startswith "@@" line = false) ->
  scan_lines [] (preamble ++ rest) = scan_lines [] rest.
Proof.
  intros Hpre. rewrite scan_lines_app.
  by rewrite scan_lines_no_header.
Qed.

Lemma scan_lines_ignores_preamble_witness :
  scan_lines [] (["--- a/f"; "+++ b/f"] ++ ["@@ -1,1 +1,1 @@"; "-a"; "+b"])
  = Ok [Hunk 0 0 ["-a"; "+b"]].
Proof.
  rewrite (scan_lines_ignores_preamble ["--- a/f"; "+++ b/f"]).
  - vm_compute. reflexivity.
  - intros line [<-|[<-|[]]]; reflexivity.
Defined.

(** *** When the engine raises *)

(** X8: the engine returns normally exactly when the original or the patch
    is empty, or every header line of the patch carries start numbers that
    [int] accepts and every hunk of the patch inserts its lines at indices
    that [list.insert] can convert; in every other case it raises. *)
Theorem apply_returns_iff_headers_parse (original diff : string) :
  is_ok (_apply_diff_to_content original diff)
  = is_empty diff || is_empty original
    || forallb (fun line => negb (is_header line) || header_numbers_ok line)
         (splitlines diff)
       && patch_fits diff.
Proof.
  unfold _apply_diff_to_content, patch_fits.
  destruct (is_empty diff || is_empty original); [done|]. cbn [orb]. cbv zeta.
  rewrite <- (scan_lines_is_ok (splitlines diff) []).
  destruct (scan_lines [] (splitlines diff)) as [[|h hs]|]; cbn [res_bind is_ok];
    [done| |done].
  rewrite <- (apply_hunks_is_ok (splitlines original)).
  destruct (apply_hunks (splitlines original) (h :: hs)); cbn [res_bind is_ok];
    [|done].
  by rewrite changed_or_same.
Qed.

End PatchEngineMore.

(** * Further properties of the orchestrator *)

Module RunFacts.
Import PyStr AnthropicService JiraTool GitHubTool MCPServer RunLogic FlowFacts.

(** *** Invariants that only read the table *)

Section Frame.
Context (E : env) (workflow_id : string) (P : world -> Prop).
Hypothesis P_table :
  forall w c k, P w -> P (World (active_workflows w) c k).
Hypothesis P_update :
  forall st data, keeps P (_update_workflow E workflow_id st data).

Lemma frame_request {A : Type} (c : call) (answer : res A) :
  keeps P (request c answer).
Proof. intros w Hw. by apply P_table. Qed.

Lemma frame_now : keeps P (now E).
Proof. intros w Hw. by apply P_table. Qed.

Lemma frame_on_github_exception (name : string) (base : option string) (e : exn) :
  keeps P (on_github_exception E name base e).
Proof.
  unfold on_github_exception.
  destruct (exn_class e); try apply keeps_raise.
  destruct (_ =? _); [|apply keeps_raise].
  apply keeps_bind; [apply frame_request|]. intros t.
  destruct base; [|apply keeps_raise].
  apply keeps_bind; [apply frame_request|]. intros _. apply keeps_ret.
Qed.

Lemma frame_create_fix_branch (key bug_title : string) :
  keeps P (create_fix_branch E key bug_title).
Proof.
  intros w Hw. unfold create_fix_branch, create_git_ref, request.
  destruct (github_get_branch E _) as [sha|e].
  - destruct (github_create_git_ref E _ sha) as [u|e].
    + simpl. by apply P_table.
    + apply frame_on_github_exception. simpl. by apply P_table.
  - apply frame_on_github_exception. simpl. by apply P_table.
Qed.

Ltac frame_step :=
  first
    [ apply keeps_ret | apply keeps_raise | apply keeps_lift
    | apply frame_request | apply frame_now | apply P_update
    | apply frame_create_fix_branch
    | apply keeps_bind; [|intros ?]
    | apply keeps_try_except; [|intros ?]
    | match goal with
      | |- keeps _ (if ?b then _ else _) => destruct b
      | |- keeps _ (match ?x with _ => _ end) => destruct x
      end ].

Lemma frame_parse_bug_report conversation :
  keeps P (parse_bug_report E conversation).
Proof. unfold parse_bug_report, extract_report. repeat frame_step. Qed.

Lemma frame_gather_context report : keeps P (gather_context E report).
Proof.
  unfold gather_context, get_relevant_files, analyze_codebase_context.
  repeat frame_step.
Qed.

Lemma frame_propose_fix report code_context :
  keeps P (propose_fix E report code_context).
Proof.
  unfold propose_fix, generate_code_fix, extract_fix. repeat frame_step.
Qed.

Lemma frame_publish_fix key bug_title report proposal :
  keeps P (publish_fix E workflow_id key bug_title report proposal).
Proof.
  unfold publish_fix, apply_code_changes, create_pull_request, add_comment.
  repeat frame_step.
Qed.

Lemma frame_conclude report similar proposal :
  keeps P (conclude E workflow_id report similar proposal).
Proof.
  unfold conclude, create_ticket.
  repeat first [apply frame_publish_fix | frame_step].
Qed.

Lemma frame_on_failure e : keeps P (on_failure E workflow_id e).
Proof. unfold on_failure. repeat frame_step. Qed.

(** What follows the first transition in [prepare]. *)
Lemma frame_prepare_after_first_step conversation (w w1 w2 : world) :
  start_workflow E workflow_id w = (Ok tt, w1) ->
  _update_workflow E workflow_id "parsing_bug_report" ∅ w1 = (Ok tt, w2) ->
  P w2 ->
  P (prepare E conversation workflow_id w).2.
Proof.
  intros Hstart Hfirst Hw2. unfold prepare.
  unfold bind at 1. rewrite Hstart.
  unfold bind at 1. rewrite Hfirst.
  clear Hstart Hfirst. revert w2 Hw2.
  fold (keeps (A := bug_report * list similar_issue * fix_proposal) P).
  repeat first [ apply frame_parse_bug_report | apply frame_gather_context
               | apply frame_propose_fix | frame_step ].
Qed.

Lemma frame_process_after_first_step conversation channel_id thread_ts
    (w w1 w2 : world) :
  workflow_id = channel_id +:+ "_" +:+ thread_ts ->
  start_workflow E workflow_id w = (Ok tt, w1) ->
  _update_workflow E workflow_id "parsing_bug_report" ∅ w1 = (Ok tt, w2) ->
  P w2 ->
  P (process_slack_conversation E conversation channel_id thread_ts w).2.
Proof.
  intros Hid Hstart Hfirst Hw2.
  pose proof (frame_prepare_after_first_step conversation w w1 w2
                Hstart Hfirst Hw2) as Hp.
  unfold process_slack_conversation, try_except, run_workflow.
  rewrite <- Hid. unfold bind at 1.
  destruct (prepare E conversation workflow_id w) as [[ready|e] w3]; simpl in Hp.
  - pose proof (frame_conclude ready.1.1 ready.1.2 ready.2 w3 Hp) as Hc.
    destruct (conclude E workflow_id _ _ _ w3) as [[r|e] w4]; simpl in Hc;
      [done|].
    by apply frame_on_failure.
  - by apply frame_on_failure.
Qed.

End Frame.

Lemma start_workflow_run E wid w :
  start_workflow E wid w
  = (Ok tt,
     World (<[wid := Workflow "started" (timestamp E (clock_reads w)) []]>
              (active_workflows w))
       (S (clock_reads w)) (calls w)).
Proof. reflexivity. Qed.

Lemma update_workflow_run E wid st data w wf :
  active_workflows w !! wid = Some wf ->
  _update_workflow E wid st data w
  = (Ok tt,
     World (<[wid := Workflow st (started_at wf)
                       (steps wf ++ [Step st (timestamp E (clock_reads w)) data])]>
              (active_workflows w))
       (S (clock_reads w)) (calls w)).
Proof.
  intros Hwf. unfold _update_workflow, bind, get_workflows. simpl.
  rewrite Hwf. reflexivity.
Qed.

Lemma update_workflow_absent E wid st data w :
  active_workflows w !! wid = None ->
  _update_workflow E wid st data w = (Ok tt, w).
Proof.
  intros Hwf. unfold _update_workflow, bind, get_workflows. simpl.
  rewrite Hwf. reflexivity.
Qed.

Lemma first_step_run E wid w :
  exists w1 w2,
    start_workflow E wid w = (Ok tt, w1)
    /\ _update_workflow E wid "parsing_bug_report" ∅ w1 = (Ok tt, w2)
    /\ active_workflows w2
       = <[wid := Workflow "parsing_bug_report" (timestamp E (clock_reads w))
                    [Step "parsing_bug_report" (timestamp E (S (clock_reads w))) ∅]]>
           (active_workflows w).
Proof.
  eexists _, _. split; [apply start_workflow_run|]. split.
  - apply update_workflow_run. simpl. apply lookup_insert_eq.
  - simpl. by rewrite insert_insert_eq.
Qed.

(** X9: a run reads and writes only the record of its own workflow id:
    the record of every other id is after the run what it was before. *)
Theorem process_leaves_other_workflows
    (E : env) (conversation : list message) (channel_id thread_ts other : string)
    (w : world) :
  other <> channel_id +:+ "_" +:+ thread_ts ->
  active_workflows
    (process_slack_conversation E conversation channel_id thread_ts w).2 !! other
  = active_workflows w !! other.
Proof.
  intros Hother.
  set (wid := channel_id +:+ "_" +:+ thread_ts) in *.
  set (P := fun w' => active_workflows w' !! other = active_workflows w !! other).
  assert (forall st data, keeps P (_update_workflow E wid st data)) as Hupd.
  { intros st data w' Hw'. unfold P in *.
    destruct (active_workflows w' !! wid) as [wf|] eqn:Hwf.
    - rewrite (update_workflow_run E wid st data w' wf Hwf). simpl.
      by rewrite lookup_insert_ne.
    - by rewrite update_workflow_absent. }
  destruct (first_step_run E wid w) as (w1 & w2 & Hstart & Hfirst & Htable).
  apply (frame_process_after_first_step E wid P ltac:(done) Hupd
           conversation channel_id thread_ts w w1 w2 eq_refl Hstart Hfirst).
  unfold P. rewrite Htable. by rewrite lookup_insert_ne.
Qed.

Lemma process_leaves_other_workflows_witness :
  active_workflows
    (process_slack_conversation Examples.quiet Examples.alice "C1" "1.0"
       MoreExamples.earlier).2 !! "C2_7.5"
  = active_workflows MoreExamples.earlier !! "C2_7.5".
Proof.
  apply (process_leaves_other_workflows Examples.quiet Examples.alice
           "C1" "1.0" "C2_7.5" MoreExamples.earlier).
  vm_compute. discriminate.
Defined.

(** X10: a run starts the record of its workflow id afresh.  Whatever the
    table held for the id, after the run the record has the first clock
    reading of the run as [started_at], and its log begins with the
    [parsing_bug_report] step stamped with the second reading. *)
Theorem process_restarts_record
    (E : env) (conversation : list message) (channel_id thread_ts : string)
    (w : world) :
  exists wf later,
    active_workflows
      (process_slack_conversation E conversation channel_id thread_ts w).2
      !! (channel_id +:+ "_" +:+ thread_ts) = Some wf
    /\ started_at wf = timestamp E (clock_reads w)
    /\ steps wf
       = Step "parsing_bug_report" (timestamp E (S (clock_reads w))) ∅ :: later.
Proof.
  set (wid := channel_id +:+ "_" +:+ thread_ts).
  set (first_step := Step "parsing_bug_report" (timestamp E (S (clock_reads w))) ∅).
  set (P := fun w' => exists wf later,
              active_workflows w' !! wid = Some wf
              /\ started_at wf = timestamp E (clock_reads w)
              /\ steps wf = first_step :: later).
  assert (forall st data, keeps P (_update_workflow E wid st data)) as Hupd.
  { intros st data w' (wf & later & Hwf & Hst & Hsteps).
    rewrite (update_workflow_run E wid st data w' wf Hwf).
    eexists _, _. split; [apply lookup_insert_eq|].
    split; [exact Hst|]. cbn [steps]. rewrite Hsteps. reflexivity. }
  destruct (first_step_run E wid w) as (w1 & w2 & Hstart & Hfirst & Htable).
  apply (frame_process_after_first_step E wid P ltac:(done) Hupd
           conversation channel_id thread_ts w w1 w2 eq_refl Hstart Hfirst).
  unfold P. rewrite Htable. eexists _, [].
  split; [apply lookup_insert_eq|]. split; reflexivity.
Qed.

(** *** The final status *)

Lemma bind_returns {A B : Type} (m : M A) (k : A -> M B) (w w' : world) (b : B) :
  bind m k w = (Ok b, w') ->
  exists a w1, m w = (Ok a, w1) /\ k a w1 = (Ok b, w').
Proof.
  unfold bind. destruct (m w) as [[a|e] w1]; [eauto | done].
Qed.

Lemma keeps_on_return {A : Type} (P : world -> Prop) (m : M A) (w w' : world)
    (r : res A) :
  keeps P m -> P w -> m w = (r, w') -> P w'.
Proof. intros Hm Hw Heq. specialize (Hm w Hw). by rewrite Heq in Hm. Qed.

Lemma conclude_returns_completed E wid report similar proposal w1 w2 r :
  tracked wid w1 ->
  conclude E wid report similar proposal w1 = (Ok r, w2) ->
  exists wf,
    active_workflows w2 !! wid = Some wf
    /\ status wf = "completed"
    /\ exists t, last (steps wf) = Some (Step "completed" t ∅).
Proof.
  intros Htr Hrun. unfold conclude in Hrun.
  apply bind_returns in Hrun as (u1 & wa & H1 & Hrun).
  pose proof (keeps_on_return _ _ _ _ _ (keeps_update E wid wid _ _) Htr H1) as Ha.
  apply bind_returns in Hrun as (key & wb & H2 & Hrun).
  assert (tracked wid wb) as Hb.
  { unfold create_ticket in H2.
    exact (keeps_on_return _ _ _ _ _ (keeps_request wid _ _) Ha H2). }
  apply bind_returns in Hrun as (u2 & wc & H3 & Hrun).
  pose proof (keeps_on_return _ _ _ _ _ (keeps_update E wid wid _ _) Hb H3) as Hc.
  apply bind_returns in Hrun as (url & wd & H4 & Hrun).
  pose proof (keeps_on_return _ _ _ _ _
                (keeps_publish_fix E wid wid key _ report proposal) Hc H4) as Hd.
  apply bind_returns in Hrun as (u3 & we & H5 & Hrun).
  destruct (update_workflow_tracked E wid "completed" ∅ wd Hd)
    as (we' & wf & Hupd & _ & Hwf & Hst & Hlast).
  rewrite Hupd in H5. injection H5 as _ <-.
  injection Hrun as _ <-. eauto.
Qed.

(** X11: after every run the record of the workflow is in a terminal
    state that agrees with the result: status [completed] and a last step
    [completed] when [success] is true, status [failed] and a last step
    [failed] when it is false. *)
Theorem process_ends_in_terminal_state
    (E : env) (conversation : list message) (channel_id thread_ts : string)
    (w : world) :
  let outcome := process_slack_conversation E conversation channel_id thread_ts w in
  exists r wf last_step,
    outcome.1 = Ok r
    /\ active_workflows outcome.2 !! (channel_id +:+ "_" +:+ thread_ts) = Some wf
    /\ status wf = (if success r then "completed" else "failed")
    /\ last (steps wf) = Some last_step
    /\ step_status last_step = status wf.
Proof.
  intros outcome. subst outcome.
  set (wid := channel_id +:+ "_" +:+ thread_ts).
  unfold process_slack_conversation, try_except. fold wid.
  pose proof (run_workflow_tracks E conversation wid w) as Htr.
  pose proof (run_workflow_returns_success E conversation wid w) as Hok.
  destruct (run_workflow E conversation wid w) as [[r|e] w1] eqn:Hrun;
    simpl in Htr.
  - specialize (Hok r w1 eq_refl).
    unfold run_workflow in Hrun.
    apply bind_returns in Hrun as (ready & wp & Hp & Hc).
    pose proof (prepare_tracks E conversation wid w) as Hwp.
    rewrite Hp in Hwp. simpl in Hwp.
    destruct (conclude_returns_completed _ _ _ _ _ _ _ _ Hwp Hc)
      as (wf & Hwf & Hst & t & Hlast).
    exists r, wf, (Step "completed" t ∅). rewrite Hok. simpl.
    repeat split; first [done | by rewrite Hst].
  - unfold on_failure, bind.
    destruct (update_workflow_tracked E wid "failed"
                {[ "error" := DStr (exn_text e) ]} w1 Htr)
      as (w2 & wf & -> & _ & Hwf & Hst & Hlast).
    eexists _, wf, _. simpl. repeat split; first [done | by rewrite Hst].
Qed.

(** *** After the ticket *)

Lemma conclude_after_ticket E wid report similar proposal key w1 :
  tracked wid w1 ->
  jira_create_issue E report = Ok key ->
  exists w4,
    tracked wid w4
    /\ calls w4 = calls w1 ++ [CallJiraCreateIssue report]
    /\ conclude E wid report similar proposal w1
       = bind (publish_fix E wid key (default "" (title report)) report proposal)
           (fun url =>
              bind (_update_workflow E wid "completed" ∅)
                (fun _ => ret (RunShape.success_dict E wid key report similar url)))
           w4.
Proof.
  intros Htr Hkey. unfold conclude.
  unfold bind at 1.
  destruct (update_workflow_tracked E wid "creating_jira_ticket" ∅ w1 Htr)
    as (w2 & wf2 & -> & Hc2 & Hwf2 & _).
  unfold bind at 1. unfold create_ticket, request. rewrite Hkey.
  set (w3 := World (active_workflows w2) (clock_reads w2)
               (calls w2 ++ [CallJiraCreateIssue report])).
  assert (tracked wid w3) as Htr3 by (unfold tracked; simpl; eauto).
  unfold bind at 1.
  destruct (update_workflow_tracked E wid "jira_ticket_created"
              {[ "issue_key" := DStr key ]} w3 Htr3)
    as (w4 & wf4 & -> & Hc4 & Hwf4 & _).
  exists w4. split; [unfold tracked; eauto|]. split; [|reflexivity].
  rewrite Hc4. simpl. by rewrite Hc2.
Qed.

Lemma conclude_ticket_refused E wid report similar proposal e w1 :
  tracked wid w1 ->
  jira_create_issue E report = Raise e ->
  exists w3,
    conclude E wid report similar proposal w1 = (Raise e, w3)
    /\ calls w3 = calls w1 ++ [CallJiraCreateIssue report].
Proof.
  intros Htr Hkey. unfold conclude.
  unfold bind at 1.
  destruct (update_workflow_tracked E wid "creating_jira_ticket" ∅ w1 Htr)
    as (w2 & wf2 & -> & Hc2 & Hwf2 & _).
  unfold bind at 1. unfold create_ticket, request. rewrite Hkey.
  eexists. split; [reflexivity|]. simpl. by rewrite Hc2.
Qed.

(** The handler of the outer [try] asks nothing of the collaborators. *)
Lemma on_failure_run E wid e w :
  exists w',
    on_failure E wid e w
    = (Ok (Failed {| failed_workflow_id := wid;
                     error := exn_text e;
                     failed_message :=
                       "Failed to process bug report: " +:+ exn_text e |}),
       w')
    /\ calls w' = calls w.
Proof.
  unfold on_failure, bind, ret.
  destruct (active_workflows w !! wid) as [wf|] eqn:Hwf.
  - rewrite (update_workflow_run E wid _ _ w wf Hwf). eauto.
  - rewrite update_workflow_absent by done. eauto.
Qed.

(** X12: a ticket that Jira refuses is fatal.  When steps 1 to 4 have
    returned and [create_issue] raises, the result is the failure dict
    carrying the text of that exception, and the request for the ticket is
    the last request of the run: no branch, commit, pull request or comment
    is asked for. *)
Theorem refused_ticket_is_fatal
    (E : env) (conversation : list message) (channel_id thread_ts : string)
    (w : world) (report : bug_report) (similar : list similar_issue)
    (proposal : fix_proposal) (e : exn) :
  let workflow_id := channel_id +:+ "_" +:+ thread_ts in
  let ready := prepare E conversation workflow_id w in
  let outcome := process_slack_conversation E conversation channel_id thread_ts w in
  ready.1 = Ok (report, similar, proposal) ->
  jira_create_issue E report = Raise e ->
  outcome.1
  = Ok (Failed {| failed_workflow_id := workflow_id;
                  error := exn_text e;
                  failed_message :=
                    "Failed to process bug report: " +:+ exn_text e |})
  /\ calls outcome.2 = calls ready.2 ++ [CallJiraCreateIssue report].
Proof.
  intros wid ready outcome Hready Hkey.
  pose proof (prepare_tracks E conversation wid w) as Htr.
  subst ready.
  destruct (prepare E conversation wid w) as [[ready|e0] w1] eqn:Hp;
    simpl in Hready, Htr; [|discriminate].
  injection Hready as ->.
  destruct (conclude_ticket_refused E wid report similar proposal e w1 Htr Hkey)
    as (w3 & Hc & Hcalls).
  destruct (on_failure_run E wid e w3) as (w4 & Hf & Hcalls4).
  assert (outcome = (Ok (Failed {| failed_workflow_id := wid;
                                   error := exn_text e;
                                   failed_message :=
                                     "Failed to process bug report: " +:+ exn_text e |}),
                     w4)) as ->.
  { subst outcome.
    unfold process_slack_conversation, try_except, run_workflow, bind.
    fold wid. rewrite Hp. simpl. rewrite Hc. exact Hf. }
  simpl. split; [done|]. by rewrite Hcalls4.
Qed.

Lemma refused_ticket_is_fatal_witness :
  (process_slack_conversation Examples.silent_refusal Examples.alice "C1" "1.0"
     Examples.fresh).1
  = Ok (Failed {| failed_workflow_id := "C1_1.0";
                  error := "";
                  failed_message := "Failed to process bug report: " |}).
Proof.
  apply (refused_ticket_is_fatal Examples.silent_refusal Examples.alice
           "C1" "1.0" Examples.fresh
           (fallback_report "alice: Login button does nothing on click")
           [] fallback_fix (Exn OtherException "")).
  - vm_compute. reflexivity.
  - reflexivity.
Defined.

(** *** Publishing the fix *)

Lemma create_fix_branch_run E key bug_title sha w :
  github_get_branch E (github_default_branch E) = Ok sha ->
  github_create_git_ref E ("refs/heads/" +:+ branch_name_for key bug_title) sha
  = Ok tt ->
  create_fix_branch E key bug_title w
  = (Ok (branch_name_for key bug_title),
     World (active_workflows w) (clock_reads w)
       (calls w ++ [CallGetBranch (github_default_branch E);
                    CallCreateGitRef
                      ("refs/heads/" +:+ branch_name_for key bug_title) sha])).
Proof.
  intros Hbase Hcreate.
  unfold create_fix_branch, create_git_ref, request.
  rewrite Hbase. simpl. rewrite Hcreate. rewrite <- app_assoc. done.
Qed.

Lemma finish_run E wid (result : option string -> workflow_result)
    (m : M (option string)) url w4 w5 :
  m w4 = (Ok url, w5) ->
  tracked wid w5 ->
  exists w6 wf,
    bind m (fun url => bind (_update_workflow E wid "completed" ∅)
                         (fun _ => ret (result url))) w4
    = (Ok (result url), w6)
    /\ calls w6 = calls w5
    /\ active_workflows w6 !! wid = Some wf
    /\ status wf = "completed".
Proof.
  intros Hm Htr. unfold bind at 1. rewrite Hm.
  unfold bind.
  destruct (update_workflow_tracked E wid "completed" ∅ w5 Htr)
    as (w6 & wf & -> & Hc & Hwf & Hst & _).
  exists w6, wf. done.
Qed.

Lemma add_comment_run E key comment w :
  add_comment E key comment w
  = (Ok tt,
     World (active_workflows w) (clock_reads w)
       (calls w ++ [CallJiraComment key comment])).
Proof.
  unfold add_comment, try_except, request.
  destruct (jira_post_comment E key comment) as [[]|]; done.
Qed.

(** The branch is created and the commits fail. *)
Lemma publish_fix_commits_fail E wid key bug_title report proposal c cs sha w4 :
  tracked wid w4 ->
  changes_to_apply proposal = c :: cs ->
  github_get_branch E (github_default_branch E) = Ok sha ->
  github_create_git_ref E ("refs/heads/" +:+ branch_name_for key bug_title) sha
  = Ok tt ->
  github_apply_code_changes E (branch_name_for key bug_title) (c :: cs) = false ->
  exists w5,
    publish_fix E wid key bug_title report proposal w4 = (Ok None, w5)
    /\ tracked wid w5
    /\ calls w5
       = calls w4 ++ [CallGetBranch (github_default_branch E);
                      CallCreateGitRef
                        ("refs/heads/" +:+ branch_name_for key bug_title) sha;
                      CallApplyCodeChanges (branch_name_for key bug_title) (c :: cs)].
Proof.
  intros Htr Hchanges Hbase Hcreate Happly.
  unfold publish_fix. rewrite Hchanges.
  unfold bind at 1.
  destruct (update_workflow_tracked E wid "creating_pr" ∅ w4 Htr)
    as (wa & wfa & -> & Hca & Hwfa & _).
  unfold bind at 1. rewrite (create_fix_branch_run E key bug_title sha wa) by done.
  unfold bind at 1. unfold apply_code_changes, request. rewrite Happly.
  eexists. split; [reflexivity|]. simpl.
  split; [unfold tracked; simpl; eauto|].
  rewrite Hca, <- !app_assoc. done.
Qed.

(** The branch is created, the commits succeed, and GitHub answers the
    pull request. *)
Lemma publish_fix_pull_request E wid key bug_title report proposal c cs sha
    (answer : res string) w4 :
  tracked wid w4 ->
  changes_to_apply proposal = c :: cs ->
  github_get_branch E (github_default_branch E) = Ok sha ->
  github_create_git_ref E ("refs/heads/" +:+ branch_name_for key bug_title) sha
  = Ok tt ->
  github_apply_code_changes E (branch_name_for key bug_title) (c :: cs) = true ->
  github_create_pull E (branch_name_for key bug_title) key report proposal = answer ->
  let asked :=
    calls w4 ++ [CallGetBranch (github_default_branch E);
                 CallCreateGitRef
                   ("refs/heads/" +:+ branch_name_for key bug_title) sha;
                 CallApplyCodeChanges (branch_name_for key bug_title) (c :: cs);
                 CallCreatePull (branch_name_for key bug_title) key] in
  exists w5,
    tracked wid w5
    /\ match answer with
       | Raise e =>
           publish_fix E wid key bug_title report proposal w4 = (Raise e, w5)
           /\ calls w5 = asked
       | Ok url =>
           publish_fix E wid key bug_title report proposal w4 = (Ok (Some url), w5)
           /\ calls w5
              = if is_empty url then asked
                else asked ++ [CallJiraComment key ("Pull Request created: " +:+ url)]
       end.
Proof.
  intros Htr Hchanges Hbase Hcreate Happly Hpull asked.
  destruct (update_workflow_tracked E wid "creating_pr" ∅ w4 Htr)
    as (wa & wfa & Hupd & Hca & Hwfa & _).
  assert (calls wa ++ [CallGetBranch (github_default_branch E);
                       CallCreateGitRef
                         ("refs/heads/" +:+ branch_name_for key bug_title) sha]
          ++ [CallApplyCodeChanges (branch_name_for key bug_title) (c :: cs)]
          ++ [CallCreatePull (branch_name_for key bug_title) key] = asked)
    as Hasked by (subst asked; rewrite Hca; done).
  destruct answer as [url|e].
  all: unfold publish_fix; rewrite Hchanges.
  all: unfold bind at 1; rewrite Hupd.
  all: unfold bind at 1;
    rewrite (create_fix_branch_run E key bug_title sha wa) by done.
  all: unfold bind at 1; unfold apply_code_changes, request; rewrite Happly.
  all: unfold bind at 1; unfold create_pull_request, request; rewrite Hpull.
  - destruct (is_empty url) eqn:Hurl.
    + eexists. split; [|split; [reflexivity|]].
      * unfold tracked. simpl. eauto.
      * simpl. rewrite <- Hasked, <- !app_assoc. done.
    + unfold bind at 1. rewrite add_comment_run.
      match goal with
      | |- context [bind (_update_workflow _ _ _ _) _ ?w] => set (wb := w)
      end.
      assert (tracked wid wb) as Hb by (unfold tracked; simpl; eauto).
      destruct (update_workflow_tracked E wid "pr_created"
                  {[ "pr_url" := DStr url ]} wb Hb)
        as (wc & wfc & Hupd' & Hcc & Hwfc & _).
      exists wc. split; [unfold tracked; eauto|].
      split.
      * unfold bind. rewrite Hupd'. done.
      * rewrite Hcc. subst wb. simpl. rewrite <- Hasked, <- !app_assoc. done.
  - eexists. split; [|split; [reflexivity|]].
    + unfold tracked. simpl. eauto.
    + simpl. rewrite <- Hasked, <- !app_assoc. done.
Qed.

Lemma process_after_ticket
    (E : env) (conversation : list message) (channel_id thread_ts : string)
    (w : world) (report : bug_report) (similar : list similar_issue)
    (proposal : fix_proposal) (key : string) :
  let wid := channel_id +:+ "_" +:+ thread_ts in
  let ready := prepare E conversation wid w in
  let outcome := process_slack_conversation E conversation channel_id thread_ts w in
  let publish := publish_fix E wid key (default "" (title report)) report proposal in
  ready.1 = Ok (report, similar, proposal) ->
  jira_create_issue E report = Ok key ->
  exists w4,
    tracked wid w4
    /\ calls w4 = calls ready.2 ++ [CallJiraCreateIssue report]
    /\ (forall url w5,
          publish w4 = (Ok url, w5) -> tracked wid w5 ->
          exists r wf,
            outcome.1 = Ok (Succeeded r)
            /\ pr_url r = url /\ issue_key r = key
            /\ calls outcome.2 = calls w5
            /\ active_workflows outcome.2 !! wid = Some wf
            /\ status wf = "completed")
    /\ (forall e w5,
          publish w4 = (Raise e, w5) ->
          outcome.1
          = Ok (Failed {| failed_workflow_id := wid;
                          error := exn_text e;
                          failed_message :=
                            "Failed to process bug report: " +:+ exn_text e |})
          /\ calls outcome.2 = calls w5).
Proof.
  intros wid ready outcome publish Hready Hkey.
  pose proof (prepare_tracks E conversation wid w) as Htr.
  subst ready.
  destruct (prepare E conversation wid w) as [[ready|e0] w1] eqn:Hp;
    simpl in Hready, Htr; [|discriminate].
  injection Hready as ->.
  destruct (conclude_after_ticket E wid report similar proposal key w1 Htr Hkey)
    as (w4 & Htr4 & Hcalls4 & Hconclude).
  assert (outcome
          = try_except (conclude E wid report similar proposal)
              (on_failure E wid) w1) as Hout.
  { subst outcome.
    unfold process_slack_conversation, try_except, run_workflow, bind.
    fold wid. rewrite Hp. done. }
  exists w4. simpl. split; [done|]. split; [done|]. split.
  - intros url w5 Hpub Htr5.
    destruct (finish_run E wid (RunShape.success_dict E wid key report similar)
                publish url w4 w5 Hpub Htr5)
      as (w6 & wf & Hfin & Hc6 & Hwf & Hst).
    subst publish. rewrite Hout. unfold try_except.
    rewrite Hconclude, Hfin. eexists _, wf. simpl.
    split; [reflexivity|]. simpl. done.
  - intros e w5 Hpub.
    destruct (on_failure_run E wid e w5) as (w6 & Hf & Hc6).
    subst publish.
    assert (outcome = on_failure E wid e w5) as ->.
    { rewrite Hout. unfold try_except. rewrite Hconclude.
      unfold bind at 1. rewrite Hpub. done. }
    rewrite Hf. simpl. split; [reflexivity | exact Hc6].
Qed.

(** X13: when the fix has file changes and the ticket and the branch are
    created but the commits fail, the run still ends as a success with
    [pr_url] null and status [completed]; no pull request is asked for,
    and Jira receives no comment at all, neither the link nor the
    advisory one. *)
Theorem failed_commits_leave_ticket_without_comment
    (E : env) (conversation : list message) (channel_id thread_ts : string)
    (w : world) (report : bug_report) (similar : list similar_issue)
    (proposal : fix_proposal) (key sha : string)
    (c : file_change) (cs : list file_change) :
  let workflow_id := channel_id +:+ "_" +:+ thread_ts in
  let ready := prepare E conversation workflow_id w in
  let outcome := process_slack_conversation E conversation channel_id thread_ts w in
  let name := branch_name_for key (default "" (title report)) in
  ready.1 = Ok (report, similar, proposal) ->
  changes_to_apply proposal = c :: cs ->
  jira_create_issue E report = Ok key ->
  github_get_branch E (github_default_branch E) = Ok sha ->
  github_create_git_ref E ("refs/heads/" +:+ name) sha = Ok tt ->
  github_apply_code_changes E name (c :: cs) = false ->
  exists r wf,
    outcome.1 = Ok (Succeeded r)
    /\ pr_url r = None
    /\ calls outcome.2
       = calls ready.2 ++ [CallJiraCreateIssue report;
                           CallGetBranch (github_default_branch E);
                           CallCreateGitRef ("refs/heads/" +:+ name) sha;
                           CallApplyCodeChanges name (c :: cs)]
    /\ active_workflows outcome.2 !! workflow_id = Some wf
    /\ status wf = "completed".
Proof.
  intros wid ready outcome name Hready Hchanges Hkey Hbase Hcreate Happly.
  destruct (process_after_ticket E conversation channel_id thread_ts w
              report similar proposal key Hready Hkey)
    as (w4 & Htr4 & Hcalls4 & Hok & _).
  destruct (publish_fix_commits_fail E wid key (default "" (title report))
              report proposal c cs sha w4 Htr4 Hchanges Hbase Hcreate Happly)
    as (w5 & Hpub & Htr5 & Hcalls5).
  destruct (Hok None w5 Hpub Htr5) as (r & wf & Hr & Hurl & _ & Hc & Hwf & Hst).
  exists r, wf. repeat split; try done.
  fold outcome in Hc. rewrite Hc, Hcalls5, Hcalls4.
  fold ready. rewrite <- !app_assoc. done.
Qed.

Lemma failed_commits_witness :
  let outcome :=
    process_slack_conversation
      (MoreExamples.fixing false (Ok "https://github.example.com/pull/9"))
      Examples.alice "C1" "1.0" Examples.fresh in
  exists r wf,
    outcome.1 = Ok (Succeeded r)
    /\ pr_url r = None
    /\ calls outcome.2
       = calls (prepare
                  (MoreExamples.fixing false (Ok "https://github.example.com/pull/9"))
                  Examples.alice "C1_1.0" Examples.fresh).2
         ++ [CallJiraCreateIssue
               (fallback_report "alice: Login button does nothing on click");
             CallGetBranch "main";
             CallCreateGitRef "refs/heads/fix/ccs-1-bug-report-from-slack" "0a1b2c";
             CallApplyCodeChanges "fix/ccs-1-bug-report-from-slack"
               MoreExamples.one_change]
    /\ active_workflows outcome.2 !! "C1_1.0" = Some wf
    /\ status wf = "completed".
Proof.
  apply (failed_commits_leave_ticket_without_comment
           (MoreExamples.fixing false (Ok "https://github.example.com/pull/9"))
           Examples.alice "C1" "1.0" Examples.fresh
           (fallback_report "alice: Login button does nothing on click")
           [] MoreExamples.one_change_fix "CCS-1" "0a1b2c"
           (FileChange (Some "src/login.py") (Some "bind(handler)")) []).
  - vm_compute. reflexivity.
  - reflexivity.
  - reflexivity.
  - reflexivity.
  - reflexivity.
  - reflexivity.
Defined.

(** X14: when the ticket, the branch and the commits succeed and GitHub
    returns a non-empty address for the pull request, the result carries
    that address, the last two requests of the run are the pull request
    and the Jira comment that links it, and the workflow is [completed]. *)
Theorem pull_request_is_linked_on_ticket
    (E : env) (conversation : list message) (channel_id thread_ts : string)
    (w : world) (report : bug_report) (similar : list similar_issue)
    (proposal : fix_proposal) (key sha url : string)
    (c : file_change) (cs : list file_change) :
  let workflow_id := channel_id +:+ "_" +:+ thread_ts in
  let ready := prepare E conversation workflow_id w in
  let outcome := process_slack_conversation E conversation channel_id thread_ts w in
  let name := branch_name_for key (default "" (title report)) in
  ready.1 = Ok (report, similar, proposal) ->
  changes_to_apply proposal = c :: cs ->
  jira_create_issue E report = Ok key ->
  github_get_branch E (github_default_branch E) = Ok sha ->
  github_create_git_ref E ("refs/heads/" +:+ name) sha = Ok tt ->
  github_apply_code_changes E name (c :: cs) = true ->
  github_create_pull E name key report proposal = Ok url ->
  is_empty url = false ->
  exists r wf,
    outcome.1 = Ok (Succeeded r)
    /\ pr_url r = Some url
    /\ calls outcome.2
       = calls ready.2 ++ [CallJiraCreateIssue report;
                           CallGetBranch (github_default_branch E);
                           CallCreateGitRef ("refs/heads/" +:+ name) sha;
                           CallApplyCodeChanges name (c :: cs);
                           CallCreatePull name key;
                           CallJiraComment key ("Pull Request created: " +:+ url)]
    /\ active_workflows outcome.2 !! workflow_id = Some wf
    /\ status wf = "completed".
Proof.
  intros wid ready outcome name Hready Hchanges Hkey Hbase Hcreate Happly
    Hpull Hurl.
  destruct (process_after_ticket E conversation channel_id thread_ts w
              report similar proposal key Hready Hkey)
    as (w4 & Htr4 & Hcalls4 & Hok & _).
  destruct (publish_fix_pull_request E wid key (default "" (title report))
              report proposal c cs sha (Ok url) w4 Htr4 Hchanges Hbase Hcreate
              Happly Hpull)
    as (w5 & Htr5 & Hpub & Hcalls5).
  rewrite Hurl in Hcalls5.
  destruct (Hok (Some url) w5 Hpub Htr5)
    as (r & wf & Hr & Hpr & _ & Hc & Hwf & Hst).
  exists r, wf. repeat split; try done.
  fold outcome in Hc. rewrite Hc, Hcalls5, Hcalls4.
  fold ready. rewrite <- !app_assoc. done.
Qed.

Lemma pull_request_is_linked_witness :
  let E := MoreExamples.fixing true (Ok "https://github.example.com/pull/9") in
  let outcome :=
    process_slack_conversation E Examples.alice "C1" "1.0" Examples.fresh in
  exists r wf,
    outcome.1 = Ok (Succeeded r)
    /\ pr_url r = Some "https://github.example.com/pull/9"
    /\ calls outcome.2
       = calls (prepare E Examples.alice "C1_1.0" Examples.fresh).2
         ++ [CallJiraCreateIssue
               (fallback_report "alice: Login button does nothing on click");
             CallGetBranch "main";
             CallCreateGitRef "refs/heads/fix/ccs-1-bug-report-from-slack" "0a1b2c";
             CallApplyCodeChanges "fix/ccs-1-bug-report-from-slack"
               MoreExamples.one_change;
             CallCreatePull "fix/ccs-1-bug-report-from-slack" "CCS-1";
             CallJiraComment "CCS-1"
               "Pull Request created: https://github.example.com/pull/9"]
    /\ active_workflows outcome.2 !! "C1_1.0" = Some wf
    /\ status wf = "completed".
Proof.
  intros E.
  apply (pull_request_is_linked_on_ticket E
           Examples.alice "C1" "1.0" Examples.fresh
           (fallback_report "alice: Login button does nothing on click")
           [] MoreExamples.one_change_fix "CCS-1" "0a1b2c"
           "https://github.example.com/pull/9"
           (FileChange (Some "src/login.py") (Some "bind(handler)")) []).
  - vm_compute. reflexivity.
  - reflexivity.
  - reflexivity.
  - reflexivity.
  - reflexivity.
  - reflexivity.
  - reflexivity.
  - reflexivity.
Defined.

(** X15: when the ticket, the branch and the commits succeed and the pull
    request raises, the run is reported as failed with the text of that
    exception although the ticket exists; nothing is asked of the
    collaborators after the pull request. *)
Theorem refused_pull_request_fails_the_run
    (E : env) (conversation : list message) (channel_id thread_ts : string)
    (w : world) (report : bug_report) (similar : list similar_issue)
    (proposal : fix_proposal) (key sha : string) (e : exn)
    (c : file_change) (cs : list file_change) :
  let workflow_id := channel_id +:+ "_" +:+ thread_ts in
  let ready := prepare E conversation workflow_id w in
  let outcome := process_slack_conversation E conversation channel_id thread_ts w in
  let name := branch_name_for key (default "" (title report)) in
  ready.1 = Ok (report, similar, proposal) ->
  changes_to_apply proposal = c :: cs ->
  jira_create_issue E report = Ok key ->
  github_get_branch E (github_default_branch E) = Ok sha ->
  github_create_git_ref E ("refs/heads/" +:+ name) sha = Ok tt ->
  github_apply_code_changes E name (c :: cs) = true ->
  github_create_pull E name key report proposal = Raise e ->
  outcome.1
  = Ok (Failed {| failed_workflow_id := workflow_id;
                  error := exn_text e;
                  failed_message :=
                    "Failed to process bug report: " +:+ exn_text e |})
  /\ calls outcome.2
     = calls ready.2 ++ [CallJiraCreateIssue report;
                         CallGetBranch (github_default_branch E);
                         CallCreateGitRef ("refs/heads/" +:+ name) sha;
                         CallApplyCodeChanges name (c :: cs);
                         CallCreatePull name key].
Proof.
  intros wid ready outcome name Hready Hchanges Hkey Hbase Hcreate Happly Hpull.
  destruct (process_after_ticket E conversation channel_id thread_ts w
              report similar proposal key Hready Hkey)
    as (w4 & Htr4 & Hcalls4 & _ & Hfail).
  destruct (publish_fix_pull_request E wid key (default "" (title report))
              report proposal c cs sha (Raise e) w4 Htr4 Hchanges Hbase Hcreate
              Happly Hpull)
    as (w5 & Htr5 & Hpub & Hcalls5).
  destruct (Hfail e w5 Hpub) as (Hr & Hc).
  split; [done|].
  fold outcome in Hc. rewrite Hc, Hcalls5, Hcalls4.
  fold ready. rewrite <- !app_assoc. done.
Qed.

Lemma refused_pull_request_witness :
  (process_slack_conversation
     (MoreExamples.fixing true (Raise Examples.unavailable))
     Examples.alice "C1" "1.0" Examples.fresh).1
  = Ok (Failed {| failed_workflow_id := "C1_1.0";
                  error := "service unavailable";
                  failed_message :=
                    "Failed to process bug report: service unavailable" |}).
Proof.
  apply (refused_pull_request_fails_the_run
           (MoreExamples.fixing true (Raise Examples.unavailable))
           Examples.alice "C1" "1.0" Examples.fresh
           (fallback_report "alice: Login button does nothing on click")
           [] MoreExamples.one_change_fix "CCS-1" "0a1b2c" Examples.unavailable
           (FileChange (Some "src/login.py") (Some "bind(handler)")) []).
  - vm_compute. reflexivity.
  - reflexivity.
  - reflexivity.
  - reflexivity.
  - reflexivity.
  - reflexivity.
  - reflexivity.
Defined.

End RunFacts.

(** * Further properties of the calls to the model *)

Module ModelFacts.
Import PyStr AnthropicService MCPServer.

(** *** The transcript *)

Lemma format_message_returns (msg : message) :
  is_Some (msg !! "user") /\ is_Some (msg !! "text")
  <-> exists line, format_message msg = Ok line.
Proof.
  unfold format_message. split.
  - intros [[u ->] [t ->]]. eauto.
  - destruct (msg !! "user"); [|by intros [? ?]].
    destruct (msg !! "text"); [|by intros [? ?]].
    eauto.
Qed.

Lemma format_message_raises (msg : message) (e : exn) :
  format_message msg = Raise e ->
  exn_class e = KeyError /\ (exn_text e = "'user'" \/ exn_text e = "'text'").
Proof.
  unfold format_message.
  destruct (msg !! "user"); [destruct (msg !! "text")|]; intros [= <-]; auto.
Qed.

Lemma format_messages_returns (conversation : list message) :
  Forall (fun msg => is_Some (msg !! "user") /\ is_Some (msg !! "text"))
    conversation
  <-> exists lines, format_messages conversation = Ok lines.
Proof.
  induction conversation as [|msg rest IH]; simpl.
  - split; [eauto | constructor].
  - split.
    + intros Hall. inversion Hall as [|? ? Hmsg Hrest]; subst.
      apply format_message_returns in Hmsg as [line ->].
      apply IH in Hrest as [lines ->]. simpl. eauto.
    + intros [lines Hlines].
      destruct (format_message msg) as [line|] eqn:Hmsg; [|done].
      destruct (format_messages rest) as [ls|] eqn:Hrest; [|done].
      constructor.
      * apply format_message_returns. eauto.
      * apply IH. eauto.
Qed.

Lemma format_messages_raises (conversation : list message) (e : exn) :
  format_messages conversation = Raise e ->
  exn_class e = KeyError /\ (exn_text e = "'user'" \/ exn_text e = "'text'").
Proof.
  induction conversation as [|msg rest IH]; simpl; [done|].
  destruct (format_message msg) as [line|e'] eqn:Hmsg; simpl.
  - destruct (format_messages rest) as [ls|e'']; simpl; [done|].
    intros [= <-]. by apply IH.
  - intros [= <-]. by eapply format_message_raises.
Qed.

(** X16: a message that lacks [user] or [text] makes [parse_bug_report]
    raise a [KeyError] naming the key, before anything is asked of the
    model; the orchestrator reports the run as failed with that key, in
    quotes, as the error. *)
Theorem missing_key_fails_before_the_model
    (E : env) (conversation : list message) (e : exn) (w : world) :
  format_conversation conversation = Raise e ->
  parse_bug_report E conversation w = (Raise e, w)
  /\ exn_class e = KeyError
  /\ (exn_text e = "'user'" \/ exn_text e = "'text'")
  /\ forall channel_id thread_ts,
       let outcome :=
         process_slack_conversation E conversation channel_id thread_ts w in
       outcome.1
       = Ok (Failed {| failed_workflow_id := channel_id +:+ "_" +:+ thread_ts;
                       error := exn_text e;
                       failed_message :=
                         "Failed to process bug report: " +:+ exn_text e |})
       /\ calls outcome.2 = calls w.
Proof.
  intros Hfmt.
  assert (forall w', parse_bug_report E conversation w' = (Raise e, w')) as Hparse.
  { intros w'. unfold parse_bug_report, bind, lift. by rewrite Hfmt. }
  split; [apply Hparse|].
  assert (exn_class e = KeyError
          /\ (exn_text e = "'user'" \/ exn_text e = "'text'")) as [Hc Ht].
  { unfold format_conversation in Hfmt.
    destruct (format_messages conversation) as [lines|e'] eqn:Hm; [done|].
    injection Hfmt as <-. by eapply format_messages_raises. }
  split; [done|]. split; [done|].
  intros channel_id thread_ts outcome. subst outcome.
  set (wid := channel_id +:+ "_" +:+ thread_ts).
  destruct (RunFacts.first_step_run E wid w) as (w1 & w2 & Hstart & Hfirst & Htable).
  assert (calls w2 = calls w) as Hcalls.
  { rewrite RunFacts.start_workflow_run in Hstart. injection Hstart as <-.
    rewrite (RunFacts.update_workflow_run E wid _ _ _
               (Workflow "started" (timestamp E (clock_reads w)) [])) in Hfirst
      by (simpl; apply lookup_insert_eq).
    injection Hfirst as <-. done. }
  assert (run_workflow E conversation wid w = (Raise e, w2)) as Hrun.
  { unfold run_workflow. unfold bind at 1. unfold prepare.
    unfold bind at 1. rewrite Hstart.
    unfold bind at 1. rewrite Hfirst.
    unfold bind at 1. rewrite Hparse. done. }
  unfold process_slack_conversation, try_except. fold wid. rewrite Hrun.
  destruct (RunFacts.on_failure_run E wid e w2) as (w3 & -> & Hc3).
  simpl. split; [done|]. by rewrite Hc3.
Qed.

Lemma missing_key_witness :
  (process_slack_conversation Examples.quiet
     [ {[ "text" := "Login button does nothing on click" ]} ]
     "C1" "1.0" Examples.fresh).1
  = Ok (Failed {| failed_workflow_id := "C1_1.0";
                  error := "'user'";
                  failed_message := "Failed to process bug report: 'user'" |}).
Proof.
  destruct (missing_key_fails_before_the_model Examples.quiet
              [ {[ "text" := "Login button does nothing on click" ]} ]
              (Exn KeyError "'user'") Examples.fresh)
    as (_ & _ & _ & Hrun).
  - vm_compute. reflexivity.
  - exact (proj1 (Hrun "C1" "1.0")).
Defined.

(** *** The fallback report *)

Lemma prefix_of_length_short (n : nat) (s : string) :
  (String.length s <= n)%nat -> prefix_of_length n s = s.
Proof.
  revert s. induction n as [|n IH]; intros [|c s]; simpl; try done; [lia|].
  intros H. f_equal. apply IH. lia.
Qed.

(** *** The fix of the model *)

(** The result that [generate_code_fix] makes of a decoded answer. *)
Lemma generate_code_fix_cases E report code_context w :
  generate_code_fix E report code_context w
  = (Ok match chat_fix E report code_context with
        | Raise _ => fallback_fix
        | Ok text =>
            match json_span text with
            | None => fallback_fix
            | Some json_str =>
                match json_loads_fix E json_str with
                | None => fallback_fix
                | Some result =>
                    if is_ok (count_code_changes result) then result
                    else fallback_fix
                end
            end
        end,
     World (active_workflows w) (clock_reads w)
       (calls w ++ [CallChatFix report code_context])).
Proof.
  unfold generate_code_fix, bind, try_except, extract_fix, bind, request, lift.
  destruct (chat_fix E report code_context) as [text|e]; simpl; [|done].
  destruct (json_span text) as [json_str|]; simpl; [|done].
  destruct (json_loads_fix E json_str) as [result|]; [|done].
  by destruct (count_code_changes result).
Qed.

Lemma count_code_changes_is_ok (result : fix_proposal) :
  is_ok (count_code_changes result) = true
  <-> code_changes result <> Some ChangesNull.
Proof.
  unfold count_code_changes.
  destruct (code_changes result) as [[|l]|]; simpl; split; done.
Qed.

(** X17: [generate_code_fix] never raises and asks the model once.  It
    returns the fallback fix, whose list of changes is empty, when the call
    raises, when its text has no [{]...[}] span, when [json.loads] rejects
    the span, and when the decoded object has [code_changes] null: the
    [len] taken of it for the log line raises inside the [try].  In every
    other case it returns the decoded object.  So the fix it returns never
    has [code_changes] null, and the [len] that the orchestrator takes of
    it cannot raise.  In [propose_fix] an answer that decodes to the empty
    object is replaced by the manual fix, whose list of changes is empty
    too. *)
Theorem generate_code_fix_never_raises
    (E : env) (report : bug_report) (code_context : string) (w : world) :
  let outcome := generate_code_fix E report code_context w in
  (exists proposal,
     outcome.1 = Ok proposal
     /\ code_changes proposal <> Some ChangesNull
     /\ is_ok (files_to_change proposal) = true)
  /\ calls outcome.2 = calls w ++ [CallChatFix report code_context]
  /\ changes_to_apply fallback_fix = []
  /\ changes_to_apply manual_fix = []
  /\ (forall e, chat_fix E report code_context = Raise e ->
        outcome.1 = Ok fallback_fix)
  /\ (forall text,
        chat_fix E report code_context = Ok text -> json_span text = None ->
        outcome.1 = Ok fallback_fix)
  /\ (forall text json_str,
        chat_fix E report code_context = Ok text ->
        json_span text = Some json_str ->
        json_loads_fix E json_str = None ->
        outcome.1 = Ok fallback_fix)
  /\ (forall text json_str result,
        chat_fix E report code_context = Ok text ->
        json_span text = Some json_str ->
        json_loads_fix E json_str = Some result ->
        (code_changes result = Some ChangesNull -> outcome.1 = Ok fallback_fix)
        /\ (code_changes result <> Some ChangesNull -> outcome.1 = Ok result))
  /\ (forall text json_str,
        chat_fix E report code_context = Ok text ->
        json_span text = Some json_str ->
        json_loads_fix E json_str = Some (FixProposal None None None None) ->
        (propose_fix E report code_context w).1 = Ok manual_fix).
Proof.
  intros outcome. subst outcome. rewrite generate_code_fix_cases.
  cbn [fst snd calls].
  split.
  { eexists. split; [reflexivity|].
    assert (forall proposal,
               code_changes proposal <> Some ChangesNull ->
               code_changes proposal <> Some ChangesNull
               /\ is_ok (files_to_change proposal) = true) as Hgood.
    { intros proposal H. split; [done|]. unfold files_to_change.
      by destruct (code_changes proposal) as [[|l]|]. }
    destruct (chat_fix E report code_context) as [text|]; [|by apply Hgood].
    destruct (json_span text) as [json_str|]; [|by apply Hgood].
    destruct (json_loads_fix E json_str) as [result|]; [|by apply Hgood].
    destruct (is_ok (count_code_changes result)) eqn:Hlen; [|by apply Hgood].
    apply Hgood. by apply count_code_changes_is_ok. }
  do 3 (split; [reflexivity|]).
  split; [|split; [|split; [|split]]].
  - intros e ->. done.
  - intros text -> ->. done.
  - intros text json_str -> -> ->. done.
  - intros text json_str result -> -> ->. split.
    + intros Hnull. unfold count_code_changes. by rewrite Hnull.
    + intros Hlist. apply count_code_changes_is_ok in Hlist. by rewrite Hlist.
  - intros text json_str Hchat Hspan Hloads.
    unfold propose_fix, try_except. unfold bind at 1. unfold bind at 1.
    rewrite generate_code_fix_cases, Hchat, Hspan, Hloads. done.
Qed.

Lemma generate_code_fix_never_raises_witness :
  (generate_code_fix MoreExamples.null_changes Examples.empty_report ""
     Examples.fresh).1
  = Ok fallback_fix.
Proof.
  destruct (generate_code_fix_never_raises MoreExamples.null_changes
              Examples.empty_report "" Examples.fresh)
    as (_ & _ & _ & _ & _ & _ & _ & Hdecoded & _).
  apply (Hdecoded MoreExamples.null_text MoreExamples.null_text
           MoreExamples.null_fix); reflexivity.
Defined.

(** *** The JSON span of an answer *)

Lemma index_of_first (c : ascii) (text : string) (i : nat) :
  index_of c text = Some i ->
  String.get i text = Some c
  /\ forall k, (k < i)%nat -> String.get k text <> Some c.
Proof.
  revert i. induction text as [|x text IH]; intros i; simpl; [done|].
  destruct (Ascii.eqb_spec x c) as [->|Hx].
  - intros [= <-]. split; [done|]. intros k Hk. lia.
  - destruct (index_of c text) as [i0|]; simpl; [|done].
    intros [= <-]. destruct (IH i0 eq_refl) as [Hget Hbefore].
    split; [done|]. intros [|k] Hk; simpl.
    + congruence.
    + apply Hbefore. lia.
Qed.

Lemma rindex_of_absent (c : ascii) (text : string) :
  rindex_of c text = None -> forall k, String.get k text <> Some c.
Proof.
  induction text as [|y text IH]; intros Hr k; simpl; [by destruct k|].
  simpl in Hr. destruct (rindex_of c text); [done|].
  destruct (Ascii.eqb_spec y c); [done|].
  destruct k; [congruence | by apply IH].
Qed.

Lemma rindex_of_last (c : ascii) (text : string) (j : nat) :
  rindex_of c text = Some j ->
  String.get j text = Some c
  /\ forall k, (j < k)%nat -> String.get k text <> Some c.
Proof.
  revert j. induction text as [|x text IH]; intros j; simpl; [done|].
  destruct (rindex_of c text) as [j0|] eqn:Hr.
  - intros [= <-]. destruct (IH j0 eq_refl) as [Hget Hafter].
    split; [done|]. intros [|k] Hk; [lia|]. simpl. apply Hafter. lia.
  - destruct (Ascii.eqb_spec x c) as [->|Hx]; [|done].
    intros [= <-]. split; [done|].
    intros [|k] Hk; [lia|]. simpl. by apply rindex_of_absent.
Qed.

Lemma substring_nothing (n : nat) (s : string) : substring n 0 s = "".
Proof.
  revert n. induction s as [|x s IH]; intros [|n]; simpl; auto.
Qed.

(** X18: when an answer has both braces, the span handed to [json.loads]
    runs from the first opening brace to the last closing brace of the
    answer, both included; it is the empty string when the last closing
    brace comes before the first opening one. *)
Theorem json_span_from_first_to_last_brace (text span : string) :
  json_span text = Some span ->
  exists i j,
    String.get i text = Some "{"%char
    /\ (forall k, (k < i)%nat -> String.get k text <> Some "{"%char)
    /\ String.get j text = Some "}"%char
    /\ (forall k, (j < k)%nat -> String.get k text <> Some "}"%char)
    /\ ((j < i)%nat -> span = "")
    /\ ((i < j)%nat ->
        String.get (S (j - i)) span = None
        /\ forall k, (k <= j - i)%nat -> String.get k span = String.get (k + i) text).
Proof.
  unfold json_span.
  destruct (index_of "{" text) as [i|] eqn:Hi; [|done].
  destruct (rindex_of "}" text) as [j|] eqn:Hj; [|done].
  intros [= <-].
  apply index_of_first in Hi as [Hgi Hfirst].
  apply rindex_of_last in Hj as [Hgj Hlast].
  exists i, j. do 4 (split; [done|]). split.
  - intros Hlt. replace (S j - i)%nat with 0%nat by lia.
    apply substring_nothing.
  - intros Hlt. split; [apply substring_correct2; lia|].
    intros k Hk. apply substring_correct1. lia.
Qed.

Lemma json_span_witness :
  exists i j,
    String.get i "ok }{ then {a} and {b} done" = Some "{"%char
    /\ String.get j "ok }{ then {a} and {b} done" = Some "}"%char
    /\ json_span "ok }{ then {a} and {b} done" = Some "{ then {a} and {b}".
Proof.
  destruct (json_span_from_first_to_last_brace "ok }{ then {a} and {b} done"
              "{ then {a} and {b}") as (i & j & Hi & _ & Hj & _).
  - vm_compute. reflexivity.
  - exists i, j. split; [done|]. split; [done|]. vm_compute. reflexivity.
Defined.

End ModelFacts.

(** * Further properties of the search keywords *)

Module KeywordMore.
Import PyStr MCPServer.

(** X19: the keywords handed to the code search hold every entry of a
    list of components, and a single string component as a whole, also
    when that entry is a stop word or when five keywords came before it:
    the caller appends the components after the extraction. *)
Theorem search_keywords_hold_components (report : bug_report) :
  (forall l c, affected_components report = Some (CompList l) -> In c l ->
     In c (search_keywords report))
  /\ (forall s, affected_components report = Some (CompStr s) ->
        last (search_keywords report) = Some s)
  /\ (forall l, affected_components report = Some (CompList l) ->
        (length (search_keywords report) <= 5 + length l)%nat).
Proof.
  unfold search_keywords. split; [|split].
  - intros l c -> Hc. apply in_or_app. by right.
  - intros s ->. apply last_snoc.
  - intros l ->. rewrite length_app. unfold _extract_keywords.
    rewrite length_take. lia.
Qed.

Lemma search_keywords_hold_components_witness :
  In "the"
    (search_keywords
       (BugReport (Some "Login button does nothing when clicked twice today")
          None None None None None (Some (CompList ["auth.py"; "the"])) None)).
Proof.
  apply (proj1 (search_keywords_hold_components _) ["auth.py"; "the"]).
  - reflexivity.
  - right. left. reflexivity.
Defined.

End KeywordMore.

(** * Properties of the configuration and of the Jira issue fields *)

Module ConfigFacts.
Import PyStr Config.

Lemma split_on_from_segment (sep : ascii) (a rest cur : string) :
  existsb (Ascii.eqb sep) (list_ascii_of_string a) = false ->
  split_on_from sep cur (a +:+ String sep rest)
  = (cur +:+ a) :: split_on_from sep "" rest.
Proof.
  revert cur. induction a as [|x a IH]; intros cur; simpl.
  - intros _. rewrite Ascii.eqb_refl.
    f_equal. clear. induction cur as [|c cur IH]; [done|].
    rewrite BranchNameFacts.append_cons. by rewrite <- IH.
  - intros [Hx Ha]%orb_false_iff.
    rewrite Ascii.eqb_sym, Hx. rewrite IH by done.
    f_equal. rewrite BranchNameFacts.append_assoc. done.
Qed.

Lemma split_on_from_last (sep : ascii) (a cur : string) :
  existsb (Ascii.eqb sep) (list_ascii_of_string a) = false ->
  split_on_from sep cur a = [cur +:+ a].
Proof.
  revert cur. induction a as [|x a IH]; intros cur; simpl.
  - intros _. f_equal. clear. induction cur as [|c cur IH]; [done|].
    rewrite BranchNameFacts.append_cons. by rewrite <- IH.
  - intros [Hx Ha]%orb_false_iff.
    rewrite Ascii.eqb_sym, Hx. rewrite IH by done.
    f_equal. rewrite BranchNameFacts.append_assoc. done.
Qed.

Lemma has_slash_append (a b : string) :
  has_slash (a +:+ b) = has_slash a || has_slash b.
Proof.
  unfold has_slash. induction a as [|x a IH]; [done|].
  rewrite BranchNameFacts.append_cons. simpl. rewrite IH.
  by rewrite orb_assoc.
Qed.

(** X20: [get_github_owner_repo] splits [owner/repo] back into its two
    parts, so that the name rebuilt from them is the configured one; a
    value with further segments keeps only the first two; and a value
    without a slash raises a [ValueError]. *)
Theorem owner_repo_round_trip (owner repo : string) :
  has_slash owner = false ->
  has_slash repo = false ->
  get_github_owner_repo (owner +:+ "/" +:+ repo) = Ok (owner, repo)
  /\ repo_full_name (owner +:+ "/" +:+ repo) = Ok (owner +:+ "/" +:+ repo)
  /\ (forall more,
        get_github_owner_repo (owner +:+ "/" +:+ repo +:+ "/" +:+ more)
        = Ok (owner, repo))
  /\ (exists e, get_github_owner_repo owner = Raise e
                /\ exn_class e = ValueError).
Proof.
  intros Ho Hr.
  assert (forall tail, has_slash (owner +:+ "/" +:+ tail) = true) as Hs.
  { intros tail. rewrite has_slash_append. simpl. by rewrite orb_true_r. }
  unfold repo_full_name, get_github_owner_repo, split_on.
  split; [|split; [|split]].
  - rewrite Hs. change (owner +:+ "/" +:+ repo) with (owner +:+ String "/" repo).
    rewrite split_on_from_segment by exact Ho.
    rewrite split_on_from_last by exact Hr. done.
  - rewrite Hs. change (owner +:+ "/" +:+ repo) with (owner +:+ String "/" repo).
    rewrite split_on_from_segment by exact Ho.
    rewrite split_on_from_last by exact Hr. done.
  - intros more. rewrite Hs.
    change (owner +:+ "/" +:+ repo +:+ "/" +:+ more)
      with (owner +:+ String "/" (repo +:+ String "/" more)).
    rewrite split_on_from_segment by exact Ho.
    rewrite split_on_from_segment by exact Hr. done.
  - rewrite Ho. eauto.
Qed.

Lemma owner_repo_round_trip_witness :
  get_github_owner_repo "YeIIcw/devsync" = Ok ("YeIIcw", "devsync").
Proof.
  apply (owner_repo_round_trip "YeIIcw" "devsync"); reflexivity.
Defined.

End ConfigFacts.

Module JiraFacts.
Import PyStr JiraFields.

Lemma member_In (x : string) (l : list string) : member x l = true <-> In x l.
Proof.
  unfold member. rewrite existsb_exists. split.
  - intros (y & Hy & Heq). apply String.eqb_eq in Heq. by subst.
  - intros Hx. exists x. split; [done | apply String.eqb_refl].
Qed.

(** X21: the issue type chosen by [_get_valid_issue_type] is one the
    project offers whenever the project offers any; it is the preferred
    type when that is offered; and it is [Task] when the list is empty. *)
Theorem valid_issue_type_is_available
    (preferred_type : option string) (available_types : list string) :
  (available_types <> [] ->
   In (valid_issue_type preferred_type available_types) available_types)
  /\ (forall p, preferred_type = Some p -> p <> "" -> In p available_types ->
        valid_issue_type preferred_type available_types = p)
  /\ (available_types = [] ->
      valid_issue_type preferred_type available_types = "Task").
Proof.
  unfold valid_issue_type. split; [|split].
  - intros Hne.
    destruct (truthy preferred_type && member _ available_types) eqn:Hp.
    + apply andb_true_iff in Hp as [_ Hp]. by apply member_In.
    + destruct (List.find _ fallbacks) as [fallback|] eqn:Hf.
      * apply find_some in Hf as [_ Hf]. by apply member_In.
      * destruct available_types; [done | by left].
  - intros p -> Hp Hin. simpl.
    destruct p; [done|]. simpl.
    apply member_In in Hin. by rewrite Hin.
  - intros ->. by destruct (truthy preferred_type).
Qed.

Lemma valid_issue_type_witness :
  In (valid_issue_type (Some "Bug") ["Incident"; "Change"]) ["Incident"; "Change"].
Proof.
  apply (proj1 (valid_issue_type_is_available (Some "Bug") ["Incident"; "Change"])).
  discriminate.
Defined.

(** X22: the issue types are read from the project at most once.  After
    any call the list returned is cached, so a second call returns the
    same list without asking the project, whatever the project would
    answer then: in particular the four default types that stand in for a
    failed reading are kept. *)
Theorem issue_types_are_read_once
    (first_answer second_answer : res (list string))
    (cache : option (list string)) :
  let '(types1, cache1, asked1) := _get_available_issue_types first_answer cache in
  let '(types2, cache2, asked2) := _get_available_issue_types second_answer cache1 in
  types2 = types1 /\ cache2 = cache1 /\ asked2 = false
  /\ (cache = None -> asked1 = true)
  /\ (cache = None -> (exists e, first_answer = Raise e) ->
      types2 = default_issue_types).
Proof.
  unfold _get_available_issue_types.
  destruct cache as [types|]; [|destruct first_answer as [types|e]]; simpl;
    repeat split; try done; by intros _ [e ?].
Qed.

Lemma is_label_char_after_clean (c : ascii) :
  is_label_char (if is_label_char c then c else "_"%char) = true.
Proof. destruct (is_label_char c) eqn:H; [done | reflexivity]. Qed.

Lemma clean_label_chars (component : string) (c : ascii) :
  In c (list_ascii_of_string (clean_label component)) -> is_label_char c = true.
Proof.
  induction component as [|x component IH]; simpl; [done|].
  intros [<-|H]; [apply is_label_char_after_clean | by apply IH].
Qed.

Lemma clean_label_length (component : string) :
  String.length (clean_label component) = String.length component.
Proof. induction component as [|x component IH]; simpl; [done | by rewrite IH]. Qed.

Lemma labels_from_spec (components : list string) :
  labels_from components
  = map clean_label (List.filter (fun c => negb (is_empty c)) components).
Proof.
  induction components as [|c components IH]; simpl; [done|].
  destruct c as [|x c]; simpl; [done|]. by rewrite IH.
Qed.

(** X23: in the fields sent to Jira the priority is always one of
    Highest, High, Medium and Low, and it is Medium when the severity is
    absent or is none of Critical, High, Medium and Low; and when labels
    are set, there is at
    least one, each is the name of a non-empty component, in order, with
    every character outside a-z, A-Z, 0-9, underscore and dash replaced by
    an underscore, so no label is empty or holds a space. *)
Theorem issue_dict_is_well_formed
    (project_key issue_type : string) (report : bug_report)
    (pr_url : option string) :
  let fields := issue_dict project_key issue_type report pr_url in
  In (priority fields) ["Highest"; "High"; "Medium"; "Low"]
  /\ (severity report = None -> priority fields = "Medium")
  /\ (forall s, severity report = Some s ->
        ~ In s ["Critical"; "High"; "Medium"; "Low"] ->
        priority fields = "Medium")
  /\ (forall l, labels fields = Some l ->
        l <> []
        /\ l = map clean_label
                 (List.filter (fun c => negb (is_empty c))
                    (MCPServer.component_entries report))
        /\ forall label, In label l ->
             label <> ""
             /\ forall c, In c (list_ascii_of_string label) ->
                  is_label_char c = true /\ c <> " "%char)
  /\ (labels fields = None ->
      forall c, In c (MCPServer.component_entries report) -> c = "").
Proof.
  intros fields. subst fields. unfold issue_dict. simpl.
  split; [|split; [|split; [|split]]].
  - unfold priority_of.
    repeat (destruct (String.eqb _ _); [simpl; tauto|]). simpl. tauto.
  - intros Hs. unfold priority_of. by rewrite Hs.
  - intros s Hs Hunknown. unfold priority_of. rewrite Hs.
    cbn [default from_option]. cbv zeta. unfold id.
    destruct (String.eqb_spec s "Critical") as [->|_];
      [exfalso; apply Hunknown; simpl; tauto|].
    destruct (String.eqb_spec s "High") as [->|_];
      [exfalso; apply Hunknown; simpl; tauto|].
    destruct (String.eqb_spec s "Medium") as [->|_]; [done|].
    destruct (String.eqb_spec s "Low") as [->|_]; [|done].
    exfalso. apply Hunknown. simpl. tauto.
  - unfold labels_of. rewrite labels_from_spec.
    intros l Hl.
    assert (l = map clean_label
                  (List.filter (fun c => negb (is_empty c))
                     (MCPServer.component_entries report))) as ->.
    { destruct (map clean_label _); [done | by injection Hl]. }
    split; [by destruct (map clean_label _)|]. split; [done|].
    intros label Hin. apply in_map_iff in Hin as (c0 & <- & Hc0).
    apply filter_In in Hc0 as [_ Hne].
    split.
    + destruct c0; [done | simpl; done].
    + intros c Hc. apply clean_label_chars in Hc. split; [done|].
      intros ->. done.
  - unfold labels_of. rewrite labels_from_spec.
    intros Hnone c Hc.
    destruct c as [|x c]; [done|].
    assert (In (clean_label (String x c))
              (map clean_label
                 (List.filter (fun c => negb (is_empty c))
                    (MCPServer.component_entries report)))) as Hin.
    { apply in_map. apply filter_In. done. }
    destruct (map clean_label _); [done | discriminate].
Qed.

Lemma issue_dict_witness :
  labels (issue_dict "CCS" "Task"
            (BugReport (Some "T") None None None None (Some "Critical")
               (Some (CompList ["auth service"; ""; "ui/login.tsx"])) None)
            None)
  = Some ["auth_service"; "ui_login_tsx"].
Proof.
  destruct (issue_dict_is_well_formed "CCS" "Task"
              (BugReport (Some "T") None None None None (Some "Critical")
                 (Some (CompList ["auth service"; ""; "ui/login.tsx"])) None)
              None) as (_ & _ & _ & Hl & _).
  destruct (Hl ["auth_service"; "ui_login_tsx"] eq_refl) as (_ & _ & _).
  reflexivity.
Defined.

(** *** The description of the ticket *)

Lemma length_append (a b : string) :
  String.length (a +:+ b) = (String.length a + String.length b)%nat.
Proof.
  induction a as [|x a IH]; [done|].
  rewrite BranchNameFacts.append_cons. simpl. by rewrite IH.
Qed.

Lemma length_prefix_exact (n : nat) (s : string) :
  (n <= String.length s)%nat -> String.length (prefix_of_length n s) = n.
Proof.
  revert s. induction n as [|n IH]; intros [|x s]; simpl; try done; [lia|].
  intros H. f_equal. apply IH. lia.
Qed.

Lemma concat_starts_with_first (sep first : string) (rest : list string) :
  exists tail, String.concat sep (first :: rest) = first +:+ tail.
Proof.
  destruct rest as [|second rest]; simpl.
  - exists "". clear. induction first as [|c first IH]; [done|].
    rewrite BranchNameFacts.append_cons. by rewrite <- IH.
  - eauto.
Qed.

(** X24: the additional context shown in the description of a ticket is
    capped.  A context of at most 2000 characters is shown whole; a longer
    one is cut to its first 2000 characters followed by a marker of 15
    characters, 2015 characters in all. *)
Theorem description_context_is_capped (context : string) :
  (String.length (shown_context context) <= 2015)%nat
  /\ ((String.length context <= 2000)%nat -> shown_context context = context)
  /\ ((2000 < String.length context)%nat ->
      shown_context context
      = prefix_of_length 2000 context +:+ "..." +:+ nl +:+ "[Truncated]"
      /\ String.length (shown_context context) = 2015%nat).
Proof.
  unfold shown_context.
  destruct (Nat.ltb_spec 2000 (String.length context)) as [Hlong|Hshort].
  - assert (String.length
              (prefix_of_length 2000 context +:+ "..." +:+ nl +:+ "[Truncated]")
            = 2015%nat) as Hlen.
    { rewrite length_append, length_prefix_exact by lia.
      change (String.length ("..." +:+ nl +:+ "[Truncated]")) with 15%nat. lia. }
    split; [lia|]. split; [lia|]. done.
  - split; [lia|]. split; [done | lia].
Qed.

Lemma description_context_witness :
  shown_context "short log" = "short log".
Proof.
  apply (proj1 (proj2 (description_context_is_capped "short log"))).
  simpl. lia.
Defined.

Lemma append_nonempty (a b : string) : a <> "" -> a +:+ b <> "".
Proof. destruct a; [done|]. by rewrite BranchNameFacts.append_cons. Qed.

Lemma concat_empty_iff (sep : string) (l : list string) :
  Forall (fun s => s <> "") l -> String.concat sep l = "" <-> l = [].
Proof.
  intros Hall. split; [|by intros ->].
  destruct l as [|first rest]; [done|]. intros Hempty.
  destruct (concat_starts_with_first sep first rest) as [tail Htail].
  rewrite Hempty in Htail. apply Forall_cons in Hall as [Hfirst _].
  by destruct first.
Qed.

Lemma section_if_nil (present : bool) (text : string) :
  section_if present text = [] <-> present = false.
Proof. by destruct present. Qed.

Lemma section_if_nonempty (present : bool) (text : string) :
  text <> "" -> Forall (fun s => s <> "") (section_if present text).
Proof. destruct present; simpl; auto. Qed.

(** X25: the description of a ticket is the empty string exactly when the
    report has no text field that is set and not empty, no component, and
    there is no pull request. *)
Theorem description_empty_iff_nothing_to_show
    (report : bug_report) (pr_url : option string) :
  _format_description report pr_url = ""
  <-> truthy (description report) = false
      /\ truthy (steps_to_reproduce report) = false
      /\ truthy (expected_behavior report) = false
      /\ truthy (actual_behavior report) = false
      /\ listed_components report = []
      /\ truthy (additional_context report) = false
      /\ truthy pr_url = false.
Proof.
  unfold _format_description. cbv zeta.
  rewrite concat_empty_iff.
  2: { repeat apply Forall_app_2; apply section_if_nonempty;
       by apply append_nonempty. }
  rewrite !app_nil, !section_if_nil.
  assert (negb (length (listed_components report) =? 0)%nat = false
          <-> listed_components report = []) as ->; [|done].
  by destruct (listed_components report).
Qed.

End JiraFacts.

(** ** The requests behind the search, the context and the commits *)

Module RepoFacts.
Import PyStr GitHubRepo.

Lemma seen_spec (x : string) (l : list string) : seen x l = true <-> x ∈ l.
Proof.
  unfold seen. rewrite existsb_exists. split.
  - intros (y & Hin & Heq). apply String.eqb_eq in Heq as ->.
    by apply list_elem_of_In.
  - intros Hin. exists x. split; [by apply list_elem_of_In|].
    apply String.eqb_refl.
Qed.

Lemma read_results_spec (C : client) (max_files : Z) (results : list string) :
  forall (files : list repo_file) (seen_paths : list string)
         (log : list repo_call),
    seen_paths = map file_path files ->
    NoDup seen_paths ->
    Z.of_nat (length files) <= Z.max 0 max_files ->
    Forall (fetched_from C) files ->
    exists files' seen' new,
      read_results C max_files results files seen_paths log
      = (files', seen', log ++ new)
      /\ seen' = map file_path files'
      /\ NoDup seen'
      /\ Z.of_nat (length files') <= Z.max 0 max_files
      /\ Forall (fetched_from C) files'
      /\ Forall (fun c => is_fetch c = true) new
      /\ (max_files <= 0 -> new = []).
Proof.
  induction results as [|path rest IH]; intros files seen_paths log Hseen Hnd Hlen Hall.
  { exists files, seen_paths, []. rewrite app_nil_r. by repeat split. }
  simpl. destruct (Z.leb_spec max_files (Z.of_nat (length files))) as [Hfull|Hroom].
  { exists files, seen_paths, []. rewrite app_nil_r. by repeat split. }
  destruct (seen path seen_paths) eqn:Hpath.
  { destruct (IH files seen_paths log Hseen Hnd Hlen Hall)
      as (files' & seen' & new & Heq & ?). by exists files', seen', new. }
  assert (forall files1 seen1,
             seen1 = map file_path files1 -> NoDup seen1 ->
             Z.of_nat (length files1) <= Z.max 0 max_files ->
             Forall (fetched_from C) files1 ->
             exists files' seen' new,
               read_results C max_files rest files1 seen1
                 (log ++ [GetContents path None])
               = (files', seen', log ++ new)
               /\ seen' = map file_path files'
               /\ NoDup seen'
               /\ Z.of_nat (length files') <= Z.max 0 max_files
               /\ Forall (fetched_from C) files'
               /\ Forall (fun c => is_fetch c = true) new
               /\ (max_files <= 0 -> new = [])) as Hnext.
  { intros files1 seen1 H1 H2 H3 H4.
    destruct (IH files1 seen1 (log ++ [GetContents path None]) H1 H2 H3 H4)
      as (files' & seen' & new & Heq & H5 & H6 & H7 & H8 & H9 & _).
    exists files', seen', ([GetContents path None] ++ new).
    rewrite Heq, <- app_assoc. repeat split; try done.
    - by apply Forall_cons.
    - lia. }
  destruct (get_contents C log path None) as [content|e] eqn:Hget; [|by apply Hnext].
  destruct (Z.ltb_spec (size content) 200000) as [Hsmall|Hlarge]; [|by apply Hnext].
  destruct (decoded content) as [text|e] eqn:Hdec; [|by apply Hnext].
  apply Hnext.
  - rewrite map_app. simpl. by rewrite Hseen.
  - apply NoDup_app. split; [done|]. split; [|apply NoDup_singleton].
    intros x Hx Hx'. apply list_elem_of_singleton in Hx' as ->.
    apply seen_spec in Hx. congruence.
  - rewrite length_app. simpl. lia.
  - apply Forall_app. split; [done|]. apply Forall_singleton.
    exists log, content. by repeat split.
Qed.

Lemma run_queries_spec (C : client) (max_files : Z) (queries : list string) :
  forall (files : list repo_file) (seen_paths : list string)
         (log : list repo_call),
    seen_paths = map file_path files ->
    NoDup seen_paths ->
    Z.of_nat (length files) <= Z.max 0 max_files ->
    Forall (fetched_from C) files ->
    exists files' new,
      run_queries C max_files queries files seen_paths log = (files', log ++ new)
      /\ NoDup (map file_path files')
      /\ Z.of_nat (length files') <= Z.max 0 max_files
      /\ Forall (fetched_from C) files'
      /\ Forall (fun c => is_search c || is_fetch c = true) new
      /\ (length (List.filter is_search new) <= length queries)%nat
      /\ (max_files <= 0 -> new = []).
Proof.
  induction queries as [|query rest IH]; intros files seen_paths log Hseen Hnd Hlen Hall.
  { exists files, []. rewrite app_nil_r. subst. by repeat split. }
  simpl. destruct (Z.leb_spec max_files (Z.of_nat (length files))) as [Hfull|Hroom].
  { exists files, []. rewrite app_nil_r. subst. repeat split; try done. simpl. lia. }
  destruct (search_code C log query) as [code_results|e].
  - destruct (read_results_spec C max_files code_results files seen_paths
                (log ++ [SearchCode query]) Hseen Hnd Hlen Hall)
      as (files1 & seen1 & new1 & -> & H1 & H2 & H3 & H4 & H5 & _).
    destruct (IH files1 seen1 ((log ++ [SearchCode query]) ++ new1) H1 H2 H3 H4)
      as (files' & new & -> & H6 & H7 & H8 & H9 & H10 & _).
    exists files', ([SearchCode query] ++ new1 ++ new).
    rewrite <- !app_assoc. repeat split; try done.
    + apply Forall_cons. split; [done|]. apply Forall_app. split; [|done].
      eapply Forall_impl; [exact H5|]. intros c ->. apply orb_true_r.
    + simpl. rewrite List.filter_app, length_app.
      assert (List.filter is_search new1 = []) as ->; [|simpl; lia].
      clear -H5. induction H5 as [|c l Hc _ IHl]; [done|].
      simpl. by destruct c.
    + lia.
  - destruct (IH files seen_paths (log ++ [SearchCode query]) Hseen Hnd Hlen Hall)
      as (files' & new & -> & H6 & H7 & H8 & H9 & H10 & _).
    exists files', ([SearchCode query] ++ new).
    rewrite <- !app_assoc. repeat split; try done.
    + by apply Forall_cons.
    + simpl. lia.
    + lia.
Qed.

Lemma search_queries_count (repo : string) (keywords : list string) :
  (1 <= length (search_queries repo keywords) <= 4)%nat
  /\ last (search_queries repo keywords)
     = Some ("repo:" +:+ repo +:+ " extension:tsx extension:ts").
Proof.
  unfold search_queries. cbv zeta.
  destruct (List.filter looks_like_file keywords),
           (List.filter is_component_name keywords), keywords;
    (split; [simpl; lia | reflexivity]).
Qed.

(** X26: whatever the client answers, [get_relevant_files] returns at most
    [max_files] files (none when [max_files] is not positive), with pairwise
    different paths; each of them was fetched with a reported size below
    200000 and carries the decoded content and the address of that answer.
    It only searches and fetches, with at most four searches, and requests
    nothing at all when [max_files] is not positive. *)
Theorem get_relevant_files_bounded_and_distinct (C : client)
    (keywords : list string) (max_files : Z) (log : list repo_call) :
  exists files new,
    get_relevant_files C keywords max_files log = (files, log ++ new)
    /\ Z.of_nat (length files) <= Z.max 0 max_files
    /\ NoDup (map file_path files)
    /\ Forall (fetched_from C) files
    /\ Forall (fun c => is_search c || is_fetch c = true) new
    /\ (length (List.filter is_search new) <= 4)%nat
    /\ (max_files <= 0 -> new = []).
Proof.
  unfold get_relevant_files.
  destruct (run_queries_spec C max_files (search_queries (repo_name C) keywords)
              [] [] log eq_refl (NoDup_nil_2) ltac:(simpl; lia) (Forall_nil_2 _))
    as (files & new & Heq & H1 & H2 & H3 & H4 & H5 & H6).
  exists files, new. repeat split; try done.
  pose proof (search_queries_count (repo_name C) keywords) as [[_ Hfour] _]. lia.
Qed.

(** *** The context of the affected components *)

Lemma length_chars (s : string) :
  length (MCPServer.chars s) = String.length s.
Proof. induction s as [|c s IH]; simpl; [done | by rewrite IH]. Qed.

Lemma first_components_at_most_five (affected : components) :
  (length (first_components affected) <= 5)%nat.
Proof.
  destruct affected as [|s|l]; unfold first_components; [simpl; lia| |].
  - rewrite length_chars. apply BranchNameFacts.length_prefix_of_length.
  - rewrite length_take. lia.
Qed.

Lemma file_part_spec (C : client) (component : string) (log : list repo_call) :
  exists parts new,
    file_part C component log = (parts, log ++ new)
    /\ Forall (fun s => s <> "") parts
    /\ Forall (fun c => is_fetch c = true) new
    /\ omap searched new = []
    /\ (length new <= 1)%nat.
Proof.
  unfold file_part. destruct (contains "." component).
  - eexists _, [GetContents component None]. split; [reflexivity|].
    split; [|by repeat split; auto].
    destruct (get_contents C log component None) as [content|]; [|done].
    destruct (size content <? 50000); [|done].
    destruct (decoded content); [|done].
    by apply Forall_singleton.
  - exists [], []. rewrite app_nil_r. repeat split; auto.
Qed.

Lemma analyze_components_spec (C : client) (components : list string) :
  forall (parts : list string) (log : list repo_call),
    Forall (fun s => s <> "") parts ->
    exists parts' new,
      analyze_components C components parts log = (parts', log ++ new)
      /\ Forall (fun s => s <> "") parts'
      /\ omap searched new
         = map (fun c => "repo:" +:+ repo_name C +:+ " " +:+ c) components
      /\ (length (List.filter is_fetch new) <= length components)%nat
      /\ Forall (fun c => is_search c || is_fetch c = true) new.
Proof.
  induction components as [|component rest IH]; intros parts log Hparts.
  { exists parts, []. rewrite app_nil_r. by repeat split. }
  simpl.
  destruct (file_part_spec C component log)
    as (file_parts & new1 & -> & Hfile & Hfetch & Hnone & Hone).
  set (query := "repo:" +:+ repo_name C +:+ " " +:+ component).
  assert (forall parts1,
             Forall (fun s => s <> "") parts1 ->
             exists parts' new,
               analyze_components C rest parts1
                 ((log ++ new1) ++ [SearchCode query])
               = (parts', log ++ new)
               /\ Forall (fun s => s <> "") parts'
               /\ omap searched new
                  = query
                    :: map (fun c => "repo:" +:+ repo_name C +:+ " " +:+ c) rest
               /\ (length (List.filter is_fetch new) <= S (length rest))%nat
               /\ Forall (fun c => is_search c || is_fetch c = true) new)
    as Hnext.
  { intros parts1 H1.
    destruct (IH parts1 ((log ++ new1) ++ [SearchCode query]) H1)
      as (parts' & new & -> & H2 & H3 & H4 & H5).
    exists parts', (new1 ++ [SearchCode query] ++ new).
    rewrite <- !app_assoc. repeat split; try done.
    - by rewrite omap_app, Hnone, (omap_app _ [_]), H3.
    - rewrite !List.filter_app, !length_app. simpl.
      assert (length (List.filter is_fetch new1) <= length new1)%nat
        by apply List.filter_length_le.
      lia.
    - apply Forall_app. split.
      + eapply Forall_impl; [exact Hfetch|]. intros c ->. apply orb_true_r.
      + by apply Forall_cons. }
  destruct (search_code C (log ++ new1) query) as [search_results|e].
  - apply Hnext. apply Forall_app. split; [done|]. apply Forall_app.
    split; [done|]. apply Forall_forall. intros s Hs.
    apply list_elem_of_In, in_map_iff in Hs as (path & <- & _). done.
  - apply Hnext. by apply Forall_app.
Qed.

(** X27: for every shape of [affected_components] in the data model,
    [analyze_codebase_context] returns a text that is not empty.  It makes
    exactly one search per component looked at, in order and with the query
    "repo:<name> <component>", for at most five components, and at most one
    fetch per component; a string is looked at character by character. *)
Theorem analyze_codebase_context_never_empty (C : client)
    (affected : components) (log : list repo_call) :
  exists text new,
    analyze_codebase_context C affected log = (text, log ++ new)
    /\ text <> ""
    /\ omap searched new
       = map (fun c => "repo:" +:+ repo_name C +:+ " " +:+ c)
           (first_components affected)
    /\ (length (first_components affected) <= 5)%nat
    /\ (length (List.filter is_fetch new) <= length (first_components affected))%nat
    /\ Forall (fun c => is_search c || is_fetch c = true) new
    /\ (forall s, affected = CompStr s ->
        Forall (fun c => String.length c = 1%nat) (first_components affected)).
Proof.
  unfold analyze_codebase_context.
  destruct (analyze_components_spec C (first_components affected) [] log
              (Forall_nil_2 _))
    as (parts & new & -> & Hparts & Hsearch & Hfetch & Hreads).
  eexists _, new. split; [reflexivity|]. repeat split; try done.
  - destruct parts as [|first rest]; [done|].
    intros Hempty. by apply (JiraFacts.concat_empty_iff _ _ Hparts) in Hempty.
  - apply first_components_at_most_five.
  - intros s ->. unfold first_components. generalize (prefix_of_length 5 s). clear.
    intros s. induction s as [|c s IH]; simpl; [done|]. by apply Forall_cons.
Qed.

(** *** Applying patches *)

Lemma apply_patches_true (C : client) (branch_name commit_message : string)
    (patches : list patch) :
  forall (log log' : list repo_call),
    apply_patches C branch_name patches commit_message log = (true, log') ->
    exists new,
      log' = log ++ new
      /\ omap written_path new
         = map (fun p => default "" (patch_path p))
             (List.filter has_path_and_diff patches)
      /\ Forall (patch_request branch_name commit_message) new
      /\ length new
         = (2 * length (List.filter has_path_and_diff patches))%nat.
Proof.
  induction patches as [|p rest IH]; intros log log' Hrun.
  { simpl in Hrun. injection Hrun as <-. exists []. by rewrite app_nil_r. }
  simpl in Hrun. unfold has_path_and_diff at 1 2. simpl.
  destruct (is_empty (default "" (patch_path p))) eqn:Hpath; simpl in *.
  { by apply IH. }
  destruct (is_empty (default "" (unified_diff p))) eqn:Hdiff; simpl in *.
  { by apply IH. }
  destruct (get_contents C log _ _) as [file_obj|]; [|done].
  destruct (decoded file_obj) as [current|]; [|done].
  destruct (PatchEngine._apply_diff_to_content current _) as [new_content|]; [|done].
  destruct (is_empty new_content) eqn:Hnew; [done|].
  destruct (update_file C _ _ _ _ _ _); [|done].
  apply IH in Hrun as (new & -> & Hpaths & Hall & Hlen).
  eexists ([_; _] ++ new). rewrite <- !app_assoc. split; [reflexivity|].
  split; [by rewrite (omap_app _ [_; _]), Hpaths|]. split; [|unfold has_path_and_diff in Hlen; simpl in *; lia].
  apply Forall_cons. split; [done|]. apply Forall_cons. split; [|done].
  simpl. split; [|done]. intros ->. done.
Qed.

Lemma apply_patches_app (C : client) (branch_name commit_message : string)
    (before after : list patch) :
  forall (log : list repo_call),
    apply_patches C branch_name (before ++ after) commit_message log
    = match apply_patches C branch_name before commit_message log with
      | (true, log1) => apply_patches C branch_name after commit_message log1
      | (false, log1) => (false, log1)
      end.
Proof.
  induction before as [|p rest IH]; intros log; [done|]. simpl.
  destruct (is_empty (default "" (patch_path p)) || is_empty (default "" (unified_diff p)));
    [apply IH|].
  destruct (get_contents C log _ _) as [file_obj|]; [|done].
  destruct (decoded file_obj) as [current|]; [|done].
  destruct (PatchEngine._apply_diff_to_content current _) as [new_content|]; [|done].
  destruct (is_empty new_content); [done|].
  destruct (update_file C _ _ _ _ _ _); [apply IH | done].
Qed.

(** X28: when [apply_unified_diff] returns [True], the list of patches was
    not empty and every patch that has a path and a diff was written, once
    and in the order of the list: the requests are a fetch from the branch
    and an update for each of them, the update has content that is not
    empty, goes to the branch, and carries the commit message given or, when
    that is empty, "fix: Apply patch to <path>". *)
Theorem apply_unified_diff_true_means_all_written (C : client)
    (branch_name commit_message : string) (patches : list patch)
    (log log' : list repo_call) :
  apply_unified_diff C branch_name patches commit_message log = (true, log') ->
  patches <> []
  /\ exists new,
       log' = log ++ new
       /\ omap written_path new
          = map (fun p => default "" (patch_path p))
              (List.filter has_path_and_diff patches)
       /\ Forall (patch_request branch_name commit_message) new
       /\ length new
          = (2 * length (List.filter has_path_and_diff patches))%nat.
Proof.
  destruct patches as [|p rest]; [done|]. intros Hrun.
  split; [done|].
  exact (apply_patches_true C branch_name commit_message (p :: rest) log log' Hrun).
Qed.

Lemma apply_unified_diff_true_witness :
  [Patch (Some "app.ts")
     (Some ("@@ -2,1 +2,1 @@" +:+ nl +:+ "-let b = 2" +:+ nl +:+ "+let b = 3"));
   Patch None (Some "@@ -1 +1 @@")] <> []
  /\ exists new,
       [GetContents "app.ts" (Some "fix/login");
        UpdateFile "app.ts" "fix: Apply patch to app.ts"
          ("let a = 1" +:+ nl +:+ "let b = 3") "s1" "fix/login"]
       = [] ++ new
       /\ omap written_path new = ["app.ts"]
       /\ Forall (patch_request "fix/login" "") new
       /\ length new = 2%nat.
Proof.
  apply (apply_unified_diff_true_means_all_written small_repo "fix/login" ""
           [Patch (Some "app.ts")
              (Some ("@@ -2,1 +2,1 @@" +:+ nl +:+ "-let b = 2" +:+ nl
                     +:+ "+let b = 3"));
            Patch None (Some "@@ -1 +1 @@")] []).
  vm_compute. reflexivity.
Defined.

(** X29: [apply_unified_diff] stops at the first patch it cannot apply and
    undoes nothing.  When the patches before [p] were applied, and the file
    of [p] is empty or the patch engine raises on its diff, the result is
    [False]; the file of [p] was fetched but not written, the requests of
    the earlier patches stay as they were made, and the patches after [p]
    are not looked at. *)
Theorem apply_unified_diff_stops_without_undoing (C : client)
    (branch_name commit_message : string) (before after : list patch)
    (p : patch) (log log1 : list repo_call) (file_obj : fetched_file)
    (current : string) :
  apply_patches C branch_name before commit_message log = (true, log1) ->
  has_path_and_diff p = true ->
  get_contents C log1 (default "" (patch_path p)) (Some branch_name)
  = Ok file_obj ->
  decoded file_obj = Ok current ->
  current = ""
  \/ is_ok (PatchEngine._apply_diff_to_content current
             (default "" (unified_diff p))) = false ->
  apply_unified_diff C branch_name (before ++ p :: after) commit_message log
  = (false,
     log1 ++ [GetContents (default "" (patch_path p)) (Some branch_name)]).
Proof.
  intros Hbefore Hp Hget Hdec Hbad.
  assert (apply_patches C branch_name (before ++ p :: after) commit_message log
          = (false,
             log1 ++ [GetContents (default "" (patch_path p)) (Some branch_name)]))
    as Hloop.
  { rewrite apply_patches_app, Hbefore. simpl.
    unfold has_path_and_diff in Hp.
    destruct (is_empty (default "" (patch_path p))); [done|].
    destruct (is_empty (default "" (unified_diff p))) eqn:Hdiff; [done|].
    simpl. rewrite Hget, Hdec.
    destruct Hbad as [->|Hraise].
    - unfold PatchEngine._apply_diff_to_content. rewrite Hdiff. done.
    - by destruct (PatchEngine._apply_diff_to_content current _). }
  destruct before; exact Hloop.
Qed.

Lemma apply_unified_diff_stops_witness :
  apply_unified_diff small_repo "fix/login"
    ([Patch (Some "app.ts")
        (Some ("@@ -2,1 +2,1 @@" +:+ nl +:+ "-let b = 2" +:+ nl +:+ "+let b = 3"))]
     ++ Patch (Some "empty.ts") (Some ("@@ -0,0 +1 @@" +:+ nl +:+ "+let c = 0"))
        :: [Patch (Some "app.ts") (Some "@@ -1 +1 @@")])
    "" []
  = (false,
     [GetContents "app.ts" (Some "fix/login");
      UpdateFile "app.ts" "fix: Apply patch to app.ts"
        ("let a = 1" +:+ nl +:+ "let b = 3") "s1" "fix/login"]
     ++ [GetContents "empty.ts" (Some "fix/login")]).
Proof.
  apply (apply_unified_diff_stops_without_undoing small_repo "fix/login" ""
           _ _ (Patch (Some "empty.ts") _) [] _
           (FetchedFile 0 (Ok "") "s0"
              "https://github.com/acme/shop/blob/main/empty.ts") "").
  - vm_compute. reflexivity.
  - reflexivity.
  - reflexivity.
  - reflexivity.
  - by left.
Defined.

(** *** Committing whole files *)

Lemma update_existing_spec (C : client) (branch_name file_path changes : string)
    (log : list repo_call) :
  exists outcome new,
    update_existing C branch_name file_path changes log = (outcome, log ++ new)
    /\ forall history c, new = history ++ [c] -> written_path c = None
                         \/ exists m s, c = UpdateFile file_path m changes s branch_name.
Proof.
  unfold update_existing. cbv zeta.
  destruct (get_contents C log file_path (Some branch_name)) as [fc|e].
  - destruct (decoded fc) as [cur|e].
    + eexists _, [_; _]. rewrite <- app_assoc. split; [reflexivity|].
      intros history c Heq.
      change [?a; ?b] with ([a] ++ [b]) in Heq.
      apply app_inj_tail in Heq as [_ <-]. right. eauto.
    + eexists _, [_]. split; [reflexivity|]. intros history c Heq.
      change [?a] with ([] ++ [a]) in Heq at 1.
      apply app_inj_tail in Heq as [_ <-]. by left.
  - eexists _, [_]. split; [reflexivity|]. intros history c Heq.
    change [?a] with ([] ++ [a]) in Heq at 1.
    apply app_inj_tail in Heq as [_ <-]. by left.
Qed.

Lemma refused_create_after (C : client) (log before new : list repo_call) :
  new <> [] ->
  ends_with_refused_create C log (before ++ new)
  <-> ends_with_refused_create C (log ++ before) new.
Proof.
  intros Hnew. unfold ends_with_refused_create. split.
  - intros (history & path & message & content & branch & Heq & Hrefused).
    destruct (exists_last Hnew) as (front & c & ->).
    rewrite app_assoc in Heq. apply app_inj_tail in Heq as [<- ->].
    exists front, path, message, content, branch.
    split; [done|]. by rewrite <- app_assoc.
  - intros (history & path & message & content & branch & -> & Hrefused).
    exists (before ++ history), path, message, content, branch.
    by rewrite !app_assoc.
Qed.

Lemma apply_changes_spec (C : client) (branch_name : string)
    (code_changes : list file_change) :
  forall (log : list repo_call),
    exists ok new,
      apply_changes C branch_name code_changes log = (ok, log ++ new)
      /\ (ok = false <-> ends_with_refused_create C log new).
Proof.
  induction code_changes as [|change rest IH]; intros log.
  { exists true, []. rewrite app_nil_r. split; [done|]. split; [done|].
    intros (history & ? & ? & ? & ? & Heq & _). by destruct history. }
  simpl.
  destruct (is_empty (default "" (file change))); [apply IH|].
  destruct (is_empty (default "" (file_changes change))); [apply IH|].
  set (file_path := default "" (file change)).
  set (changes := default "" (file_changes change)).
  destruct (update_existing_spec C branch_name file_path changes log)
    as (outcome & new1 & -> & Hlast).
  destruct outcome as [[]|e].
  - (* updated *)
    destruct (IH (log ++ new1)) as (ok & new & -> & Hok).
    exists ok, (new1 ++ new). rewrite app_assoc. split; [done|].
    destruct new as [|c new].
    + rewrite app_nil_r. rewrite Hok. split.
      * intros (history & ? & ? & ? & ? & Heq & _). by destruct history.
      * intros (history & path & message & content & branch & -> & _).
        exfalso. destruct (Hlast _ _ eq_refl) as [?|(? & ? & ?)]; done.
    + rewrite Hok. symmetry. by apply refused_create_after.
  - (* create instead *)
    unfold create_instead. cbv zeta.
    set (message := "Fix: Create " +:+ file_path).
    destruct (create_file C (log ++ new1) file_path message changes branch_name)
      as [[]|e'] eqn:Hcreate.
    + destruct (IH ((log ++ new1) ++ [CreateFile file_path message changes branch_name]))
        as (ok & new & -> & Hok).
      exists ok, ((new1 ++ [CreateFile file_path message changes branch_name]) ++ new).
      rewrite !app_assoc. split; [done|].
      destruct new as [|c new].
      * rewrite app_nil_r. rewrite Hok. split.
        { intros (history & ? & ? & ? & ? & Heq & _). by destruct history. }
        { intros (history & path & message' & content & branch & Heq & Hrefused).
          apply app_inj_tail in Heq as [<- [= <- <- <- <-]].
          fold message in Hrefused. by rewrite Hcreate in Hrefused. }
      * rewrite Hok. symmetry. rewrite <- (app_assoc log).
        by apply refused_create_after.
    + exists false, (new1 ++ [CreateFile file_path message changes branch_name]).
      rewrite app_assoc. split; [done|]. split; [|done]. intros _.
      exists new1, file_path, message, changes, branch_name.
      split; [done|]. by rewrite Hcreate.
Qed.

(** X30: [apply_code_changes] reports a failure only for an empty list or
    when a [create_file] was refused, and that request is then the last one
    it makes.  So a file that cannot be read, or an update that is refused,
    does not by itself make the result [False]. *)
Theorem apply_code_changes_fails_only_on_refused_create (C : client)
    (branch_name : string) (code_changes : list file_change)
    (log : list repo_call) :
  exists ok new,
    apply_code_changes C branch_name code_changes log = (ok, log ++ new)
    /\ (ok = false
        <-> code_changes = [] \/ ends_with_refused_create C log new)
    /\ (code_changes = [] -> new = []).
Proof.
  destruct code_changes as [|change rest].
  { exists false, []. rewrite app_nil_r. split; [done|]. split; [|done].
    split; auto. }
  destruct (apply_changes_spec C branch_name (change :: rest) log)
    as (ok & new & Heq & Hok).
  exists ok, new. split; [exact Heq|]. split; [|done].
  rewrite Hok. split; [by right|]. by intros [?|?].
Qed.

End RepoFacts.
